(** * The DAT market-data parser of data_parser_qmt.py

    A shallow embedding of [DATParser] (record decoding, timestamp
    interpretation, bar assembly, series building) together with the
    properties its specification states.

    Python values are modelled as follows.
    - [int] is [Z]; lengths, positions and loop indices, which are never
      negative, are [nat].
    - [float] is IEEE 754 binary64: a finite value is kept as the exact
      rational it denotes, and every operation rounds its exact result to
      the nearest representable value, ties to even ([Float64.nearest]).
    - [bytes] is [list byte]; a tuple produced by [struct.unpack] is a
      [list Z].
    - an exception is a value of [Py.exn] carried by [Py.outcome];
      [try]/[except] is [Py.try_except].
    - what lies outside the program is passed to it: [read] for opening and
      reading a file, [print] for writing a message to standard output,
      [mkdir], [glob] and [to_csv] for the file system. Each of them may
      raise. *)

From Stdlib Require Import ZArith QArith Qround Qreduction Qpower Lia Lqa ZifyNat.
From Stdlib Require Import List Bool String Ascii DecimalString Sorted Permutation.
From Stdlib Require Import Strings.Byte.
From Stdlib Require Floats.SpecFloat.
Import ListNotations.
Open Scope Z_scope.

(** ** binary64 arithmetic *)

Module Float64.

(** The sign of a zero is not tracked ([0.0 == -0.0] in Python, and the
    parser never divides by a zero that came out of an underflow). *)
Inductive float : Type :=
| Fin (q : Q)
| Inf (negative : bool)
| NaN.

Definition pow2 (e : Z) : Q := Qpower 2 e.

(** [ilog2 q] is the integer [k] with [2^k <= q < 2^(k+1)], for [0 < q]. *)
Definition ilog2 (q : Q) : Z :=
  let k := Z.log2 (Qnum q) - Z.log2 (Zpos (Qden q)) in
  if Qle_bool (pow2 k) q then k else k - 1.

(** Nearest integer, ties to the even one. *)
Definition rne (q : Q) : Z :=
  let f := Qfloor q in
  match Qcompare (q - inject_Z f) (1 # 2) with
  | Lt => f
  | Gt => f + 1
  | Eq => if Z.even f then f else f + 1
  end.

(** Exponent of the last place of a binary64 number of magnitude [q]:
    53 significant bits, and no exponent below that of the subnormals. *)
Definition fexp (q : Q) : Z := Z.max (ilog2 q - 52) (-1074).

Definition round_mag (q : Q) : Q :=
  (inject_Z (rne (q / pow2 (fexp q))) * pow2 (fexp q))%Q.

Definition overflow (negative : bool) (r : Q) : float :=
  if Qle_bool (pow2 1024) r then Inf negative
  else Fin (Qred (if negative then - r else r)).

(** Round an exact result to binary64. *)
Definition nearest (q : Q) : float :=
  match Qcompare q 0 with
  | Eq => Fin 0
  | Gt => overflow false (round_mag q)
  | Lt => overflow true (round_mag (- q))
  end.

(** [float(z)] *)
Definition of_int (z : Z) : float := nearest (inject_Z z).

Definition is_neg (q : Q) : bool := negb (Qle_bool 0 q).

(** Division. A zero divisor gives an infinity or NaN, as numpy does;
    Python's own [/] raises there instead, but the parser only uses it
    with the literals [1000.0] and [100.0]. *)
Definition div (a b : float) : float :=
  match a, b with
  | NaN, _ | _, NaN => NaN
  | Inf _, Inf _ => NaN
  | Inf s, Fin y => Inf (xorb s (is_neg y))
  | Fin _, Inf _ => Fin 0
  | Fin x, Fin y =>
      match Qcompare y 0 with
      | Eq => match Qcompare x 0 with
              | Eq => NaN
              | Lt => Inf true
              | Gt => Inf false
              end
      | _ => nearest (x / y)
      end
  end.

Definition sub (a b : float) : float :=
  match a, b with
  | NaN, _ | _, NaN => NaN
  | Fin x, Fin y => nearest (x - y)
  | Inf s, Inf t => if Bool.eqb s t then NaN else Inf s
  | Inf s, Fin _ => Inf s
  | Fin _, Inf t => Inf (negb t)
  end.

Definition mul (a b : float) : float :=
  match a, b with
  | NaN, _ | _, NaN => NaN
  | Fin x, Fin y => nearest (x * y)
  | Inf s, Inf t => Inf (xorb s t)
  | Inf s, Fin y =>
      match Qcompare y 0 with
      | Eq => NaN
      | Lt => Inf (negb s)
      | Gt => Inf s
      end
  | Fin x, Inf t =>
      match Qcompare x 0 with
      | Eq => NaN
      | Lt => Inf (negb t)
      | Gt => Inf t
      end
  end.

(** Comparisons; every comparison with NaN is false. *)
Definition leb (a b : float) : bool :=
  match a, b with
  | NaN, _ | _, NaN => false
  | Fin x, Fin y => Qle_bool x y
  | Inf true, _ => true
  | _, Inf false => true
  | _, _ => false
  end.

Definition ltb (a b : float) : bool :=
  match a, b with
  | NaN, _ | _, NaN => false
  | Fin x, Fin y => negb (Qle_bool y x)
  | Inf true, Inf true => false
  | Inf true, _ => true
  | Inf false, _ => false
  | Fin _, Inf s => negb s
  end.

Definition eqb (a b : float) : bool :=
  match a, b with
  | Fin x, Fin y => Qeq_bool x y
  | Inf s, Inf t => Bool.eqb s t
  | _, _ => false
  end.

Definition is_finite (a : float) : bool :=
  match a with
  | Fin _ => true
  | _ => false
  end.

(** Python's [max(a, b)] and [min(a, b)]: the first argument is kept
    unless the second is strictly beyond it. *)
Definition max (a b : float) : float := if ltb a b then b else a.
Definition min (a b : float) : float := if ltb b a then b else a.

(** Python's [round(a, 2)] on a float: the exact value of [a] is rounded to
    the nearest multiple of 1/100, ties to even, and that decimal is
    converted back to binary64. A non-finite [a] is returned as it is. *)
Definition round2 (a : float) : float :=
  match a with
  | Fin q => nearest (inject_Z (rne (q * 100)) / 100)
  | _ => a
  end.

(** The value of a number in the Standard Library's description of
    IEEE 754, used to compare [div] with [SpecFloat.SFdiv]. *)
Definition of_spec (x : SpecFloat.spec_float) : float :=
  match x with
  | SpecFloat.S754_zero _ => Fin 0
  | SpecFloat.S754_infinity s => Inf s
  | SpecFloat.S754_nan => NaN
  | SpecFloat.S754_finite s m e =>
      Fin (Qred ((if s then - inject_Z (Zpos m) else inject_Z (Zpos m)) * pow2 e))
  end.

Definition spec_of_int (z : Z) : SpecFloat.spec_float :=
  SpecFloat.binary_normalize 53 1024 z 0 false.

End Float64.

(** ** Python values and exceptions *)

Module Py.

Inductive exn : Type :=
| StructError      (* struct.error *)
| OSError          (* open / read failure *)
| ValueError
| OverflowError
| UnicodeEncodeError.  (* a stream that cannot encode what is written to it *)

Inductive outcome (A : Type) : Type :=
| Ok (a : A)
| Raise (e : exn).
Arguments Ok {A} a.
Arguments Raise {A} e.

Definition bind {A B : Type} (c : outcome A) (k : A -> outcome B) : outcome B :=
  match c with
  | Ok a => k a
  | Raise e => Raise e
  end.

(** [try: c  except <handled>: h] *)
Definition try_except {A : Type} (c : outcome A) (handled : exn -> bool)
    (h : exn -> outcome A) : outcome A :=
  match c with
  | Ok a => Ok a
  | Raise e => if handled e then h e else Raise e
  end.

Definition any_exception (e : exn) : bool := true.

Definition is_struct_error (e : exn) : bool :=
  match e with
  | StructError => true
  | _ => false
  end.

(** A number that is either an [int] or a [float]. *)
Inductive num : Type :=
| Int (z : Z)
| Float (x : Float64.float).

(** [round(x, 2)]: an [int] is returned unchanged. *)
Definition round2 (x : num) : num :=
  match x with
  | Int z => Int z
  | Float a => Float (Float64.round2 a)
  end.

(** The decimal form of an integer. *)
Definition decimal (z : Z) : string := NilZero.string_of_int (Z.to_int z).

(** [sys.get_int_max_str_digits()], as the interpreter starts. *)
Definition int_max_str_digits : Z := 4300.

(** [str(z)] for an [int]: the decimal form; [ValueError] for an integer of
    more than [int_max_str_digits] digits. *)
Definition str (z : Z) : outcome string :=
  if Z.abs z <? 10 ^ int_max_str_digits then Ok (decimal z)
  else Raise ValueError.

(** [l[a:b]] for [0 <= a <= b]. *)
Definition slice {A : Type} (l : list A) (a b : nat) : list A :=
  firstn (b - a) (skipn a l).

(** [range(0, stop, 2)] *)
Definition range_by_2 (stop : nat) : list nat :=
  map (fun k => (2 * k)%nat) (seq 0 (Nat.div (stop + 1) 2)).

Definition lower_char (c : ascii) : ascii :=
  let n := nat_of_ascii c in
  if ((65 <=? n) && (n <=? 90))%nat then ascii_of_nat (n + 32) else c.

(** [s.lower()], on ASCII letters. *)
Fixpoint lower (s : string) : string :=
  match s with
  | EmptyString => EmptyString
  | String c s' => String (lower_char c) (lower s')
  end.

(** [needle in s] *)
Fixpoint contains (needle s : string) : bool :=
  prefix needle s ||
  match s with
  | EmptyString => false
  | String _ s' => contains needle s'
  end.

(** [s.rfind(c)], [None] standing for -1. *)
Fixpoint rfind (c : ascii) (s : string) : option nat :=
  match s with
  | EmptyString => None
  | String c' s' =>
      match rfind c s' with
      | Some i => Some (S i)
      | None => if Ascii.eqb c c' then Some 0%nat else None
      end
  end.

(** [Path(p).name]: the last component of the path. *)
Definition name (p : string) : string :=
  match rfind "/" p with
  | Some i => substring (i + 1) (String.length p - (i + 1)) p
  | None => p
  end.

(** [Path(p).stem]: the last component of the path, without its last
    suffix. *)
Definition stem (p : string) : string :=
  let name :=
    match rfind "/" p with
    | Some i => substring (i + 1) (String.length p - (i + 1)) p
    | None => p
    end in
  match rfind "." name with
  | Some i =>
      if ((0 <? i) && (i <? String.length name - 1))%nat
      then substring 0 i name else name
  | None => name
  end.

End Py.

Declare Scope py_scope.
Delimit Scope py_scope with py.
Notation "x <- c ;; k" := (Py.bind c (fun x => k))
  (at level 61, c at next level, right associativity) : py_scope.

(** ** Local calendar time ([datetime.fromtimestamp], [strftime]) *)

Module Calendar.

Record datetime : Type := {
  year : Z; month : Z; day : Z;
  hour : Z; minute : Z; second : Z
}.

(** Proleptic Gregorian date of the day [days] days after 1970-01-01. *)
Definition civil_from_days (days : Z) : Z * Z * Z :=
  let z := days + 719468 in
  let era := z / 146097 in
  let doe := z - era * 146097 in
  let yoe := (doe - doe / 1460 + doe / 36524 - doe / 146096) / 365 in
  let doy := doe - (365 * yoe + yoe / 4 - yoe / 100) in
  let mp := (5 * doy + 2) / 153 in
  let d := doy - (153 * mp + 2) / 5 + 1 in
  let m := if mp <? 10 then mp + 3 else mp - 9 in
  let y := yoe + era * 400 + (if m <=? 2 then 1 else 0) in
  (y, m, d).

(** [datetime.fromtimestamp(t)]: the local time at the instant [t], where
    [utcoffset t] is the number of seconds local time is ahead of UTC at
    that instant. A [datetime] only exists for the years 1 to 9999;
    outside them Python raises. *)
Definition fromtimestamp (utcoffset : Z -> Z) (t : Z) : Py.outcome datetime :=
  let local := t + utcoffset t in
  let '(y, m, d) := civil_from_days (local / 86400) in
  let sod := local mod 86400 in
  if (1 <=? y) && (y <=? 9999) then
    Py.Ok {| year := y; month := m; day := d;
             hour := sod / 3600; minute := (sod mod 3600) / 60;
             second := sod mod 60 |}
  else Py.Raise Py.ValueError.

Definition digit (n : Z) : ascii := ascii_of_nat (48 + Z.to_nat (n mod 10)).

Definition pad2 (n : Z) (rest : string) : string :=
  String (digit (n / 10)) (String (digit n) rest).

Definition pad4 (n : Z) (rest : string) : string :=
  String (digit (n / 1000)) (String (digit (n / 100)) (pad2 n rest)).

(** [dt.strftime('%Y-%m-%d')] *)
Definition strftime_date_to (dt : datetime) (rest : string) : string :=
  pad4 (year dt) (String "-" (pad2 (month dt) (String "-" (pad2 (day dt) rest)))).

Definition strftime_date (dt : datetime) : string :=
  strftime_date_to dt EmptyString.

(** [dt.strftime('%Y-%m-%d %H:%M:%S')] *)
Definition strftime_datetime (dt : datetime) : string :=
  strftime_date_to dt
    (String " " (pad2 (hour dt) (String ":" (pad2 (minute dt)
       (String ":" (pad2 (second dt) EmptyString)))))).

End Calendar.

(** ** [struct.unpack('<8I', data)] *)

Module Struct.

(** Little-endian value of a run of bytes. *)
Fixpoint le_value (bs : list byte) : Z :=
  match bs with
  | [] => 0
  | b :: bs' => Z.of_N (Byte.to_N b) + 256 * le_value bs'
  end.

(** The unsigned 32-bit fields of a buffer, four bytes each. *)
Fixpoint fields (count : nat) (data : list byte) : list Z :=
  match count with
  | O => []
  | S count' => le_value (firstn 4 data) :: fields count' (skipn 4 data)
  end.

(** [struct.unpack('<8I', data)]: eight unsigned 32-bit little-endian
    integers; [struct.error] unless the buffer has exactly 32 bytes. *)
Definition unpack_8I (data : list byte) : Py.outcome (list Z) :=
  if (List.length data =? 32)%nat then Py.Ok (fields 8 data)
  else Py.Raise Py.StructError.

(** The values an unsigned 32-bit field can take. *)
Definition u32 (x : Z) : Prop := 0 <= x < 4294967296.

End Struct.

(** ** [class DATParser] *)

Module DATParser.

Import Py.
Local Open Scope py_scope.

(** [self.record_size] *)
Definition record_size : nat := 32.

(** The test [v > 1500000000 and v < 2000000000], written out twice in the
    source: in [parse_date] and on [price_unpacked[2]]. *)
Definition unix_timestamp (v : Z) : bool :=
  (1500000000 <? v) && (v <? 2000000000).

(** [parse_date(self, date_int, include_time=False)] *)
Definition parse_date (utcoffset : Z -> Z) (date_int : Z) (include_time : bool)
    : outcome string :=
  try_except
    (if unix_timestamp date_int then
       target_date <- Calendar.fromtimestamp utcoffset date_int ;;
       if include_time then Ok (Calendar.strftime_datetime target_date)
       else Ok (Calendar.strftime_date target_date)
     else str date_int)
    any_exception
    (fun _ => str date_int).

(** [_detect_data_type(self, file_path)]: [true] for intraday data. *)
Definition _detect_data_type (file_path : string) : bool :=
  let path_str := lower file_path in
  contains "5m" path_str || contains "min" path_str.

(** One entry of [records]: the dictionary appended for an accepted pair.
    [time_field] is the name of its first key, [time] the value there. *)
Record Bar : Type := {
  time_field : string;
  time : string;
  open : Float64.float;
  high : Float64.float;
  low : Float64.float;
  close : Float64.float;
  volume : Z;
  amount : num
}.

(** The local variables computed for a pair before the quality checks. *)
Record Scaled : Type := {
  open_price : Float64.float;
  high_price : Float64.float;
  low_price : Float64.float;
  close_price : Float64.float;
  scaled_volume : Z;
  scaled_amount : num
}.

(** [price_unpacked[i]], [volume_unpacked[i]] on the 8-tuples of
    [struct.unpack]. *)
Definition item (t : list Z) (i : nat) : Z := nth i t 0.

Definition price_limit (is_intraday : bool) : Z :=
  if is_intraday then 10000000 else 1000000.

(** [len([x for x in price_unpacked[3:7] if x > 0 and x < price_limit]) >= 3] *)
Definition plausible (is_intraday : bool) (price_unpacked : list Z) : bool :=
  (3 <=? List.length
           (filter (fun x => ((0 <? x) && (x <? price_limit is_intraday))%Z)
                   (slice price_unpacked 3 7)))%nat.

(** Source lines 101 to 116: prices divided by [1000.0], volume and amount
    by the kind of data. *)
Definition scale (is_intraday : bool) (price_unpacked volume_unpacked : list Z)
    : Scaled :=
  let thousand := Float64.Fin 1000 in
  let open_price := Float64.div (Float64.of_int (item price_unpacked 3)) thousand in
  let high_price := Float64.div (Float64.of_int (item price_unpacked 4)) thousand in
  let low_price := Float64.div (Float64.of_int (item price_unpacked 5)) thousand in
  let close_price := Float64.div (Float64.of_int (item price_unpacked 6)) thousand in
  if is_intraday then
    let volume := item volume_unpacked 0 in
    let raw_amount := item volume_unpacked 2 in
    let amount :=
      if 1000000 <? raw_amount
      then Float (Float64.div (Float64.of_int raw_amount) (Float64.Fin 100))
      else Int raw_amount in
    {| open_price := open_price; high_price := high_price;
       low_price := low_price; close_price := close_price;
       scaled_volume := volume; scaled_amount := amount |}
  else
    let volume := item volume_unpacked 0 * 100 in
    let raw_amount := item volume_unpacked 2 in
    let amount := Int raw_amount in
    {| open_price := open_price; high_price := high_price;
       low_price := low_price; close_price := close_price;
       scaled_volume := volume; scaled_amount := amount |}.

Definition prices (s : Scaled) : list Float64.float :=
  [open_price s; high_price s; low_price s; close_price s].

(** The condition of the first [continue] (source lines 119, 120). *)
Definition zero_or_negative (s : Scaled) : bool :=
  forallb (fun p => Float64.eqb p (Float64.of_int 0)) (prices s) ||
  existsb (fun p => Float64.ltb p (Float64.of_int 0)) (prices s).

(** The condition of the second [continue] (source lines 124 to 126). *)
Definition inconsistent (s : Scaled) : bool :=
  Float64.ltb (high_price s) (low_price s) ||
  Float64.ltb (high_price s) (Float64.max (open_price s) (close_price s)) ||
  Float64.ltb (Float64.min (open_price s) (close_price s)) (low_price s).

(** The dictionary of source lines 131 to 139. *)
Definition emit (is_intraday : bool) (stamp : string) (s : Scaled) : Bar :=
  {| time_field := if is_intraday then "datetime" else "date";
     time := stamp;
     open := Float64.round2 (open_price s);
     high := Float64.round2 (high_price s);
     low := Float64.round2 (low_price s);
     close := Float64.round2 (close_price s);
     volume := scaled_volume s;
     amount := round2 (scaled_amount s) |}.

(** Source lines 95 to 139 on one unpacked pair: [Some] of the bar that is
    appended to [records], [None] when the pair is skipped. *)
Definition assemble (utcoffset : Z -> Z) (is_intraday : bool)
    (price_unpacked volume_unpacked : list Z) : outcome (option Bar) :=
  if unix_timestamp (item price_unpacked 2) then
    let date_int := item price_unpacked 2 in
    if plausible is_intraday price_unpacked then
      let s := scale is_intraday price_unpacked volume_unpacked in
      if zero_or_negative s then Ok None
      else if inconsistent s then Ok None
      else
        stamp <- parse_date utcoffset date_int is_intraday ;;
        Ok (Some (emit is_intraday stamp s))
    else Ok None
  else Ok None.

(** What one turn of the [for] loop asks for next. *)
Inductive flow : Type := Next | Break.

(** The body of the loop at index [i] (source lines 78 to 142). *)
Definition pair_at (utcoffset : Z -> Z) (is_intraday : bool) (data : list byte)
    (i : nat) (records : list Bar) : outcome (flow * list Bar) :=
  let price_pos := (i * record_size)%nat in
  let price_data := slice data price_pos (price_pos + record_size) in
  let volume_pos := ((i + 1) * record_size)%nat in
  let volume_data := slice data volume_pos (volume_pos + record_size) in
  if ((List.length price_data <? record_size) ||
      (List.length volume_data <? record_size))%nat
  then Ok (Break, records)
  else
    try_except
      (price_unpacked <- Struct.unpack_8I price_data ;;
       volume_unpacked <- Struct.unpack_8I volume_data ;;
       accepted <- assemble utcoffset is_intraday price_unpacked volume_unpacked ;;
       match accepted with
       | Some bar => Ok (Next, records ++ [bar])
       | None => Ok (Next, records)
       end)
      is_struct_error
      (fun _ => Ok (Next, records)).

(** [for i in range(...)] with its [break]. *)
Fixpoint for_pairs (utcoffset : Z -> Z) (is_intraday : bool) (data : list byte)
    (indices : list nat) (records : list Bar) : outcome (list Bar) :=
  match indices with
  | [] => Ok records
  | i :: rest =>
      turn <- pair_at utcoffset is_intraday data i records ;;
      match turn with
      | (Break, records') => Ok records'
      | (Next, records') => for_pairs utcoffset is_intraday data rest records'
      end
  end.

(** A row of the returned table: the bar with the columns [code] and
    [pct_change] added. pandas keeps a column that mixes [int] and [float]
    as float64; an unsigned 32-bit integer converts exactly, so the number
    in the cell is the one kept here. *)
Record Row : Type := {
  code : string;
  bar : Bar;
  pct_change : Float64.float
}.

Record DataFrame : Type := {
  columns : list string;
  rows : list Row
}.

(** [pd.DataFrame()] *)
Definition empty_frame : DataFrame := {| columns := []; rows := [] |}.

(** [df.empty] *)
Definition is_empty (df : DataFrame) : bool :=
  match columns df, rows df with
  | [], _ | _, [] => true
  | _, _ => false
  end.

(** [df.sort_values(time_field)]: ascending on the strings of the time
    column. Rows with equal keys are kept in their order here; pandas leaves
    that order to the sorting routine. *)
Fixpoint insert_by_time (b : Bar) (sorted : list Bar) : list Bar :=
  match sorted with
  | [] => [b]
  | b' :: rest =>
      if String.ltb (time b) (time b') then b :: sorted
      else b' :: insert_by_time b rest
  end.

Definition sort_values (records : list Bar) : list Bar :=
  fold_left (fun sorted b => insert_by_time b sorted) records [].

(** [series / series.shift(1) - 1], the body of pandas' [pct_change]:
    [previous] is the entry before the head of [closes], NaN ahead of the
    first one. *)
Fixpoint ratios (previous : Float64.float) (closes : list Float64.float)
    : list Float64.float :=
  match closes with
  | [] => []
  | c :: rest =>
      Float64.sub (Float64.div c previous) (Float64.of_int 1) :: ratios c rest
  end.

(** [df['close'].pct_change() * 100] *)
Definition pct_change_100 (closes : list Float64.float) : list Float64.float :=
  map (fun r => Float64.mul r (Float64.of_int 100)) (ratios Float64.NaN closes).

Definition make_row (stock_code : string) (entry : Bar * Float64.float) : Row :=
  {| code := stock_code; bar := fst entry; pct_change := snd entry |}.

(** What the program hands to [print]: one constructor for each message,
    with the values its f-string formats. *)
Inductive message : Type :=
| ParseFailed (file_path : string) (e : exn)          (* source line 167 *)
| NoDatFiles (directory_path : string)                (* source line 185 *)
| FilesFound (count : nat)                            (* source line 188 *)
| Processing (i count : nat) (file_name : string)     (* source line 195 *)
| FilesParsed (successful_count : nat)                (* source line 203 *)
| CombinedSaved (combined_file : string)              (* source line 213 *)
| Totals (records stocks : nat)                       (* source line 214 *)
| DataSaved (output_file : string).                   (* source line 237 *)

(** Source lines 65 to 164, the body of the outer [try]. [read file_path]
    is what opening and reading the file gives. *)
Definition parse_body (utcoffset : Z -> Z) (read : string -> outcome (list byte))
    (file_path : string) : outcome DataFrame :=
  data <- read file_path ;;
  let record_count := Nat.div (List.length data) record_size in
  if (record_count =? 0)%nat then Ok empty_frame
  else
    let is_intraday := _detect_data_type file_path in
    records <- for_pairs utcoffset is_intraday data
                 (range_by_2 (record_count - 1)) [] ;;
    match records with
    | [] => Ok empty_frame
    | _ :: _ =>
        let stock_code := stem file_path in
        let time_field := (if is_intraday then "datetime" else "date")%string in
        let df := sort_values records in
        let pct := pct_change_100 (map close df) in
        Ok {| columns := ["code"; time_field; "open"; "high"; "low"; "close";
                          "volume"; "amount"; "pct_change"]%string;
              rows := map (make_row stock_code) (combine df pct) |}
    end.

(** [parse_dat_file(self, file_path)]. The handler of the outer [try]
    prints its message before it returns; an exception of that [print]
    leaves the function. *)
Definition parse_dat_file (utcoffset : Z -> Z)
    (read : string -> outcome (list byte)) (print : message -> outcome unit)
    (file_path : string) : outcome DataFrame :=
  try_except (parse_body utcoffset read file_path)
    any_exception
    (fun e =>
       _ <- print (ParseFailed file_path e) ;;
       Ok empty_frame).

(** The loop of [parse_directory] over [enumerate(dat_files, 1)] (source
    lines 193 to 201): the frames that are not empty, and how many there
    are. [files] is [len(dat_files)] and [i] the number of the file at the
    head of [dat_files]. *)
Fixpoint parse_files (utcoffset : Z -> Z) (read : string -> outcome (list byte))
    (print : message -> outcome unit) (files : nat)
    (dat_files : list string) (i : nat) (all_data : list DataFrame)
    (successful_count : nat) : outcome (list DataFrame * nat) :=
  match dat_files with
  | [] => Ok (all_data, successful_count)
  | dat_file :: rest =>
      _ <- (if (Nat.modulo i 100 =? 0)%nat
            then print (Processing i files (name dat_file))
            else Ok tt) ;;
      df <- parse_dat_file utcoffset read print dat_file ;;
      if negb (is_empty df)
      then parse_files utcoffset read print files rest (i + 1)
             (all_data ++ [df]) (successful_count + 1)
      else parse_files utcoffset read print files rest (i + 1)
             all_data successful_count
  end.

(** The four scaled prices of a decoded pair are finite: the exact values
    they denote, none of them negative. *)
Record exact_prices (p : list Z) (s : Scaled) (o h l c : Q) : Prop := {
  exact_open : open_price s = Float64.Fin o;
  exact_high : high_price s = Float64.Fin h;
  exact_low : low_price s = Float64.Fin l;
  exact_close : close_price s = Float64.Fin c;
  open_nonneg : (0 <= o)%Q;
  high_nonneg : (0 <= h)%Q;
  low_nonneg : (0 <= l)%Q;
  close_nonneg : (0 <= c)%Q;
  open_zero : item p 3 = 0 -> (o == 0)%Q;
  high_zero : item p 4 = 0 -> (h == 0)%Q;
  close_zero : item p 6 = 0 -> (c == 0)%Q;
  open_positive : 0 < item p 3 -> (0 < o)%Q;
  low_positive : 0 < item p 5 -> (0 < l)%Q
}.

(** A bar is materialized when the assembler accepts some pair of decoded
    records and appends that bar for it. *)
Definition materialized (utcoffset : Z -> Z) (is_intraday : bool) (b : Bar)
    : Prop :=
  exists price_data volume_data price_unpacked volume_unpacked,
    Struct.unpack_8I price_data = Ok price_unpacked /\
    Struct.unpack_8I volume_data = Ok volume_unpacked /\
    assemble utcoffset is_intraday price_unpacked volume_unpacked = Ok (Some b).

(** The order of the time column, on bars and on rows. *)
Definition bar_le (b1 b2 : Bar) : Prop :=
  String.leb (time b1) (time b2) = true.

Definition time_le (r1 r2 : Row) : Prop :=
  String.leb (time (bar r1)) (time (bar r2)) = true.

End DATParser.

(** ** The pairs of a file *)

Module Pairing.

Import Py DATParser.
Local Open Scope py_scope.

(** What [assemble] gives for the records [i] and [i + 1] of a file. *)
Definition bar_at (utcoffset : Z -> Z) (is_intraday : bool) (data : list byte)
    (i : nat) : outcome (option Bar) :=
  price_unpacked <-
    Struct.unpack_8I (slice data (i * record_size) (i * record_size + record_size)) ;;
  volume_unpacked <-
    Struct.unpack_8I
      (slice data ((i + 1) * record_size) ((i + 1) * record_size + record_size)) ;;
  assemble utcoffset is_intraday price_unpacked volume_unpacked.

(** The bars accepted for that pair: one, or none. *)
Definition accepted_at (utcoffset : Z -> Z) (is_intraday : bool)
    (data : list byte) (i : nat) : list Bar :=
  match bar_at utcoffset is_intraday data i with
  | Ok (Some b) => [b]
  | _ => []
  end.

(** The accepted bars of a whole file, in the order of its pairs. *)
Definition accepted_bars (utcoffset : Z -> Z) (file_path : string)
    (data : list byte) : list Bar :=
  flat_map (accepted_at utcoffset (_detect_data_type file_path) data)
    (range_by_2 (Nat.div (List.length data) record_size - 1)).

End Pairing.

(** ** [parse_directory] and [parse_single_stock] *)

Module Directory.

Import Py DATParser.
Local Open Scope py_scope.

(** [c in s] for a character. *)
Fixpoint occurs (c : ascii) (s : string) : bool :=
  match s with
  | EmptyString => false
  | String c' s' => Ascii.eqb c c' || occurs c s'
  end.

(** The columns of [pd.concat]: those of the frames, each once, in the
    order they first appear. *)
Definition add_columns (so_far new : list string) : list string :=
  so_far ++ filter (fun c => negb (existsb (String.eqb c) so_far)) new.

(** [pd.concat(frames, ignore_index=True)] *)
Definition concat (frames : list DataFrame) : DataFrame :=
  {| columns := fold_left (fun cols df => add_columns cols (columns df)) frames [];
     rows := flat_map rows frames |}.

(** [not df.empty] *)
Definition has_rows (df : DataFrame) : bool := negb (is_empty df).

(** The table [parse_dat_file] returns for a file; the empty one stands in
    where it raises. *)
Definition table_of (utcoffset : Z -> Z) (read : string -> outcome (list byte))
    (print : message -> outcome unit) (file_path : string) : DataFrame :=
  match parse_dat_file utcoffset read print file_path with
  | Ok df => df
  | Raise _ => empty_frame
  end.

(** [series.nunique()] on strings. *)
Definition nunique (values : list string) : nat :=
  List.length (nodup string_dec values).

(** [parse_directory(self, directory_path, output_dir)]. The file system is
    what the caller passes: [mkdir] for [output_dir.mkdir(exist_ok=True)],
    [glob] for [directory_path.glob('*.DAT')] and [to_csv] for
    [combined_df.to_csv(combined_file, ...)]. *)
Definition parse_directory (utcoffset : Z -> Z)
    (read : string -> outcome (list byte)) (print : message -> outcome unit)
    (mkdir : string -> outcome unit) (glob : string -> list string)
    (to_csv : string -> DataFrame -> outcome unit)
    (directory_path output_dir : string) : outcome DataFrame :=
  _ <- mkdir output_dir ;;
  let dat_files := glob directory_path in
  match dat_files with
  | [] =>
      _ <- print (NoDatFiles directory_path) ;;
      Ok empty_frame
  | _ :: _ =>
      _ <- print (FilesFound (List.length dat_files)) ;;
      collected <- parse_files utcoffset read print (List.length dat_files)
                     dat_files 1 [] 0 ;;
      let all_data := fst collected in
      let successful_count := snd collected in
      _ <- print (FilesParsed successful_count) ;;
      match all_data with
      | _ :: _ =>
          let combined_df := concat all_data in
          let combined_file := (output_dir ++ "/all_stocks_data.csv")%string in
          _ <- to_csv combined_file combined_df ;;
          _ <- print (CombinedSaved combined_file) ;;
          _ <- print (Totals (List.length (rows combined_df))
                        (nunique (map code (rows combined_df)))) ;;
          Ok combined_df
      | [] => Ok empty_frame
      end
  end.

(** [parse_single_stock(dat_file_path, output_file=None)]; an empty
    [output_file] counts as none, as [None] does. *)
Definition parse_single_stock (utcoffset : Z -> Z)
    (read : string -> outcome (list byte)) (print : message -> outcome unit)
    (to_csv : string -> DataFrame -> outcome unit)
    (dat_file_path : string) (output_file : option string) : outcome DataFrame :=
  df <- parse_dat_file utcoffset read print dat_file_path ;;
  match output_file with
  | Some (String c rest) =>
      if negb (is_empty df) then
        _ <- to_csv (String c rest) df ;;
        _ <- print (DataSaved (String c rest)) ;;
        Ok df
      else Ok df
  | _ => Ok df
  end.

End Directory.

(** ** Sample files *)

Module Sample.

Import Py DATParser.

Definition byte_of (z : Z) : byte :=
  match Byte.of_N (Z.to_N (z mod 256)) with
  | Some b => b
  | None => x00
  end.

(** [struct.pack('<I', z)] and [struct.pack('<8I', *fields)]. *)
Definition pack_I (z : Z) : list byte :=
  [byte_of z; byte_of (z / 256); byte_of (z / 65536); byte_of (z / 16777216)].

Definition pack (fields : list Z) : list byte := flat_map pack_I fields.

(** Local time eight hours ahead of UTC, all year. *)
Definition cst (t : Z) : Z := 28800.

(** A local time so far behind UTC that the calendar has no year for it. *)
Definition before_calendar (t : Z) : Z := - 99999999999999.

Definition daily_path : string := "data/szdayK/000001.DAT".
Definition intraday_path : string := "data/sh5mK/600000.DAT".

(** The pair of the specification's scenarios: prices 10.0, 10.5, 9.9 and
    10.2 at 1700000000. *)
Definition price_record : list Z :=
  [0; 0; 1700000000; 10000; 10500; 9900; 10200; 0].
Definition volume_record : list Z := [500; 0; 5000000; 0; 0; 0; 0; 0].
Definition intraday_volume_record : list Z := [500; 0; 2000000; 0; 0; 0; 0; 0].

(** An earlier pair whose raw low is zero. *)
Definition zero_low_record : list Z :=
  [0; 0; 1650000000; 10000; 10500; 0; 10200; 0].

(** A still earlier pair with all four raw prices below half a cent. *)
Definition sub_cent_record : list Z := [0; 0; 1600000000; 4; 4; 4; 4; 0].

Definition one_pair : list byte := pack price_record ++ pack volume_record.

Definition three_pairs : list byte :=
  pack price_record ++ pack volume_record ++
  pack zero_low_record ++ pack volume_record ++
  pack sub_cent_record ++ pack volume_record.

Definition zero_low_pair : list byte :=
  pack zero_low_record ++ pack volume_record.

Definition partial_record : list byte := [x01; x02; x03].

(** A file system with one readable file at every path. *)
Definition disk (contents : list byte) (path : string) : outcome (list byte) :=
  Ok contents.

(** A file system on which nothing can be opened. *)
Definition unreadable (path : string) : outcome (list byte) := Raise OSError.

(** A standard output that takes every message. *)
Definition stdout (m : message) : outcome unit := Ok tt.

(** A standard output in an encoding without the characters of the
    messages, which are all written in Chinese. *)
Definition ascii_stdout (m : message) : outcome unit := Raise UnicodeEncodeError.

Definition frame_of (result : outcome DataFrame) : DataFrame :=
  match result with
  | Ok df => df
  | Raise _ => empty_frame
  end.

Definition three_pairs_frame : DataFrame :=
  Eval vm_compute in frame_of (parse_dat_file cst (disk three_pairs) stdout daily_path).

Definition one_pair_frame : DataFrame :=
  Eval vm_compute in frame_of (parse_dat_file cst (disk one_pair) stdout daily_path).

Definition zero_low_frame : DataFrame :=
  Eval vm_compute in
    frame_of (parse_dat_file cst (disk zero_low_pair) stdout daily_path).

Definition no_bar : Bar :=
  {| time_field := ""; time := "";
     open := Float64.NaN; high := Float64.NaN; low := Float64.NaN;
     close := Float64.NaN; volume := 0; amount := Int 0 |}.

Definition no_row : Row :=
  {| code := ""; bar := no_bar; pct_change := Float64.NaN |}.

(** The rows of the sample tables, by position. *)
Definition row_at (df : DataFrame) (i : nat) : Row := nth i (rows df) no_row.

Definition sub_cent_row : Row := Eval vm_compute in row_at three_pairs_frame 0.
Definition zero_low_row : Row := Eval vm_compute in row_at three_pairs_frame 1.
Definition scenario_row : Row := Eval vm_compute in row_at three_pairs_frame 2.

(** The bar the assembler appends for the scenario pair of a daily file. *)
Definition scenario_bar : Bar := Eval vm_compute in bar scenario_row.

End Sample.

(** ** Sample directories *)

Module SampleDirectory.

Import Py DATParser Directory.

Definition mkdir_ok (path : string) : outcome unit := Ok tt.

Definition mkdir_fails (path : string) : outcome unit := Raise OSError.

(** A directory with a daily and a 5-minute file. *)
Definition glob_two (directory : string) : list string :=
  [Sample.daily_path; Sample.intraday_path].

Definition to_csv_ok (path : string) (df : DataFrame) : outcome unit := Ok tt.

Definition to_csv_fails (path : string) (df : DataFrame) : outcome unit :=
  Raise OSError.

Definition combined_frame : DataFrame :=
  Eval vm_compute in
    Sample.frame_of
      (parse_directory Sample.cst (Sample.disk Sample.three_pairs) Sample.stdout
         mkdir_ok glob_two to_csv_ok "data" "output").

Definition combined_row : Row := Eval vm_compute in Sample.row_at combined_frame 4.

(** A pair whose raw prices end in other digits than 5:
    10.004, 10.506, 9.899, 10.201. *)
Definition odd_cents_record : list Z :=
  [0; 0; 1700000000; 10004; 10506; 9899; 10201; 0].

Definition odd_cents_bar : Bar :=
  Eval vm_compute in
    match assemble Sample.cst true odd_cents_record Sample.intraday_volume_record with
    | Ok (Some b) => b
    | _ => Sample.no_bar
    end.

Definition intraday_frame : DataFrame :=
  Eval vm_compute in
    Sample.frame_of
      (parse_dat_file Sample.cst (Sample.disk Sample.three_pairs) Sample.stdout
         Sample.intraday_path).

End SampleDirectory.

(** * Properties *)

(** ** Rounding to binary64 is monotone *)

Module Float64Facts.

Import Float64.
Local Open Scope Q_scope.

Lemma pow2_pos e : 0 < pow2 e.
Proof. unfold pow2. apply Qpower_0_lt. reflexivity. Qed.

Lemma pow2_le a b : (a <= b)%Z -> pow2 a <= pow2 b.
Proof. intros H. unfold pow2. apply Qpower_le_compat_l; [exact H | discriminate]. Qed.

Lemma pow2_add a b : pow2 (a + b) == pow2 a * pow2 b.
Proof. unfold pow2. apply Qpower_plus. discriminate. Qed.

Lemma pow2_Z n : (0 <= n)%Z -> inject_Z (2 ^ n) == pow2 n.
Proof. intros H. unfold pow2. rewrite Zpower_Qpower by exact H. reflexivity. Qed.

Lemma rne_floor q : (Qfloor q <= rne q <= Qfloor q + 1)%Z.
Proof.
  unfold rne. destruct (Qcompare _ _); [destruct (Z.even _) | |]; lia.
Qed.

Lemma rne_Z z : rne (inject_Z z) = z.
Proof.
  unfold rne. rewrite Qfloor_Z.
  assert (E : inject_Z z - inject_Z z == 0) by ring.
  rewrite E. reflexivity.
Qed.

Lemma rne_mono a b : a <= b -> (rne a <= rne b)%Z.
Proof.
  intros Hab.
  pose proof (Qfloor_resp_le _ _ Hab) as Hf.
  destruct (Z.eq_dec (Qfloor a) (Qfloor b)) as [E | NE].
  - unfold rne. rewrite E.
    destruct (Qcompare_spec (a - inject_Z (Qfloor b)) (1 # 2)) as [Ha | Ha | Ha];
    destruct (Qcompare_spec (b - inject_Z (Qfloor b)) (1 # 2)) as [Hb | Hb | Hb];
    try destruct (Z.even (Qfloor b)); try lia; exfalso; lra.
  - pose proof (rne_floor a). pose proof (rne_floor b). lia.
Qed.

Lemma rne_le_Z a z : a <= inject_Z z -> (rne a <= z)%Z.
Proof. intros H. rewrite <- (rne_Z z). apply rne_mono, H. Qed.

Lemma rne_ge_Z a z : inject_Z z <= a -> (z <= rne a)%Z.
Proof. intros H. rewrite <- (rne_Z z). apply rne_mono, H. Qed.

Lemma Zlog2_Q n : (0 < n)%Z -> pow2 (Z.log2 n) <= inject_Z n < pow2 (Z.log2 n + 1).
Proof.
  intros Hn. pose proof (Z.log2_spec n Hn) as [H1 H2].
  pose proof (Z.log2_nonneg n) as H0.
  rewrite <- !pow2_Z by lia. rewrite <- Zle_Qle, <- Zlt_Qlt.
  replace (Z.log2 n + 1)%Z with (Z.succ (Z.log2 n)) by lia. split; assumption.
Qed.

(** [ilog2] brackets its argument between two powers of two. *)
Lemma ilog2_spec q : 0 < q -> pow2 (ilog2 q) <= q < pow2 (ilog2 q + 1).
Proof.
  intros Hq. destruct q as [n d].
  assert (Hn : (0 < n)%Z).
  { unfold Qlt in Hq. simpl in Hq. lia. }
  pose proof (Zlog2_Q n Hn) as [Hn1 Hn2].
  pose proof (Zlog2_Q (Zpos d) eq_refl) as [Hd1 Hd2].
  unfold ilog2. cbn [Qnum Qden].
  set (a := Z.log2 n) in *. set (b := Z.log2 (Z.pos d)) in *.
  assert (Hq' : n # d == inject_Z n / inject_Z (Zpos d)) by apply Qmake_Qdiv.
  assert (Hdpos : 0 < inject_Z (Zpos d)) by reflexivity.
  destruct (Qle_bool (pow2 (a - b)) (n # d)) eqn:E.
  - apply Qle_bool_iff in E. split; [exact E |].
    rewrite Hq'. apply Qlt_shift_div_r; [exact Hdpos |].
    apply Qlt_le_trans with (pow2 (a + 1)); [exact Hn2 |].
    replace (a + 1)%Z with ((a - b + 1) + b)%Z by lia.
    rewrite pow2_add. apply Qmult_le_l; [apply pow2_pos | exact Hd1].
  - assert (E' : n # d < pow2 (a - b)).
    { apply Qnot_le_lt. intros H. apply Qle_bool_iff in H. congruence. }
    replace (a - b - 1 + 1)%Z with (a - b)%Z by lia.
    split; [| exact E'].
    rewrite Hq'. apply Qle_shift_div_l; [exact Hdpos |].
    apply Qle_trans with (pow2 a); [| exact Hn1].
    replace a with ((a - b - 1) + (b + 1))%Z at 2 by lia.
    rewrite pow2_add. apply Qmult_le_l; [apply pow2_pos | apply Qlt_le_weak, Hd2].
Qed.

Lemma ilog2_mono a b : 0 < a -> a <= b -> (ilog2 a <= ilog2 b)%Z.
Proof.
  intros Ha Hab.
  destruct (ilog2_spec a Ha) as [A1 A2].
  destruct (ilog2_spec b (Qlt_le_trans _ _ _ Ha Hab)) as [B1 B2].
  destruct (Z_le_gt_dec (ilog2 a) (ilog2 b)) as [H | H]; [exact H | exfalso].
  assert (pow2 (ilog2 b + 1) <= pow2 (ilog2 a)) by (apply pow2_le; lia).
  lra.
Qed.

(** A normal number keeps its leading bit... *)
Lemma round_mag_lower q : 0 < q -> (- 1074 < ilog2 q - 52)%Z ->
  pow2 (ilog2 q) <= round_mag q.
Proof.
  intros Hq He. unfold round_mag, fexp.
  replace (Z.max (ilog2 q - 52) (-1074)) with (ilog2 q - 52)%Z by lia.
  set (e := (ilog2 q - 52)%Z).
  destruct (ilog2_spec q Hq) as [L _].
  assert (Hm : (2 ^ 52 <= rne (q / pow2 e))%Z).
  { apply rne_ge_Z. rewrite pow2_Z by lia.
    apply Qle_shift_div_l; [apply pow2_pos |].
    rewrite <- pow2_add. replace (52 + e)%Z with (ilog2 q) by (unfold e; lia). exact L. }
  replace (ilog2 q) with (52 + e)%Z at 1 by (unfold e; lia).
  rewrite pow2_add. apply Qmult_le_r; [apply pow2_pos |].
  rewrite <- (pow2_Z 52) by lia. rewrite <- Zle_Qle. exact Hm.
Qed.

(** ... and no rounding goes past the next power of two. *)
Lemma round_mag_upper q : 0 < q -> round_mag q <= pow2 (fexp q + 53).
Proof.
  intros Hq. unfold round_mag. set (e := fexp q).
  destruct (ilog2_spec q Hq) as [_ U].
  assert (Hm : (rne (q / pow2 e) <= 2 ^ 53)%Z).
  { apply rne_le_Z. rewrite pow2_Z by lia.
    apply Qle_shift_div_r; [apply pow2_pos |].
    rewrite <- pow2_add.
    apply Qle_trans with (pow2 (ilog2 q + 1)); [apply Qlt_le_weak, U |].
    apply pow2_le. unfold e, fexp. lia. }
  rewrite (Z.add_comm e 53), pow2_add. apply Qmult_le_r; [apply pow2_pos |].
  rewrite <- (pow2_Z 53) by lia. rewrite <- Zle_Qle. exact Hm.
Qed.

Lemma round_mag_mono a b : 0 < a -> a <= b -> round_mag a <= round_mag b.
Proof.
  intros Ha Hab.
  assert (Hb : 0 < b) by lra.
  pose proof (ilog2_mono a b Ha Hab) as Hl.
  destruct (Z.eq_dec (fexp a) (fexp b)) as [E | NE].
  - unfold round_mag. rewrite E.
    apply Qmult_le_r; [apply pow2_pos |].
    rewrite <- Zle_Qle. apply rne_mono.
    apply Qmult_le_r; [apply Qinv_lt_0_compat, pow2_pos | exact Hab].
  - assert (Hlt : (fexp a < fexp b)%Z) by (unfold fexp in *; lia).
    apply Qle_trans with (pow2 (fexp a + 53)); [apply round_mag_upper, Ha |].
    apply Qle_trans with (pow2 (ilog2 b)).
    + apply pow2_le. unfold fexp in *. lia.
    + apply round_mag_lower; [exact Hb | unfold fexp in *; lia].
Qed.

Lemma round_mag_nonneg q : 0 < q -> 0 <= round_mag q.
Proof.
  intros Hq. unfold round_mag.
  apply Qmult_le_0_compat; [| apply Qlt_le_weak, pow2_pos].
  change 0 with (inject_Z 0). rewrite <- Zle_Qle. apply rne_ge_Z.
  apply Qle_shift_div_l; [apply pow2_pos |].
  setoid_replace (inject_Z 0 * pow2 (fexp q)) with 0 by ring. lra.
Qed.

Lemma leb_overflow_pos r1 r2 :
  r1 <= r2 -> leb (overflow false r1) (overflow false r2) = true.
Proof.
  intros H. unfold overflow.
  destruct (Qle_bool (pow2 1024) r1) eqn:E1;
    destruct (Qle_bool (pow2 1024) r2) eqn:E2; try reflexivity.
  - apply Qle_bool_iff in E1.
    assert (Qle_bool (pow2 1024) r2 = true) by (apply Qle_bool_iff; lra).
    congruence.
  - cbn [leb]. apply Qle_bool_iff, Qred_le. exact H.
Qed.

Lemma leb_overflow_neg r1 r2 :
  r1 <= r2 -> leb (overflow true r2) (overflow true r1) = true.
Proof.
  intros H. unfold overflow.
  destruct (Qle_bool (pow2 1024) r1) eqn:E1;
    destruct (Qle_bool (pow2 1024) r2) eqn:E2; try reflexivity.
  - apply Qle_bool_iff in E1.
    assert (Qle_bool (pow2 1024) r2 = true) by (apply Qle_bool_iff; lra).
    congruence.
  - cbn [leb]. apply Qle_bool_iff, Qred_le. lra.
Qed.

Lemma leb_overflow_neg_zero r : 0 <= r -> leb (overflow true r) (Fin 0) = true.
Proof.
  intros H. unfold overflow. destruct (Qle_bool _ _); [reflexivity |].
  cbn [leb]. apply Qle_bool_iff. rewrite Qred_correct. lra.
Qed.

Lemma leb_zero_overflow_pos r : 0 <= r -> leb (Fin 0) (overflow false r) = true.
Proof.
  intros H. unfold overflow. destruct (Qle_bool _ _); [reflexivity |].
  cbn [leb]. apply Qle_bool_iff. rewrite Qred_correct. lra.
Qed.

Lemma leb_trans a b c : leb a b = true -> leb b c = true -> leb a c = true.
Proof.
  destruct a as [x | [] |], b as [y | [] |], c as [z | [] |]; simpl; try congruence.
  rewrite !Qle_bool_iff. intros. lra.
Qed.

(** Rounding to nearest never reverses the order of two exact results. *)
Lemma nearest_mono a b : a <= b -> leb (nearest a) (nearest b) = true.
Proof.
  intros Hab. unfold nearest.
  destruct (Qcompare_spec a 0) as [Ha | Ha | Ha];
  destruct (Qcompare_spec b 0) as [Hb | Hb | Hb]; try (exfalso; lra).
  - reflexivity.
  - apply leb_zero_overflow_pos, round_mag_nonneg, Hb.
  - apply leb_overflow_neg_zero, round_mag_nonneg. lra.
  - apply leb_overflow_neg, round_mag_mono; lra.
  - apply leb_trans with (Fin 0).
    + apply leb_overflow_neg_zero, round_mag_nonneg. lra.
    + apply leb_zero_overflow_pos, round_mag_nonneg, Hb.
  - apply leb_overflow_pos, round_mag_mono; lra.
Qed.

(** [round(a, 2) <= round(b, 2)] whenever [a <= b]. *)
Lemma round2_mono a b : a <= b -> leb (round2 (Fin a)) (round2 (Fin b)) = true.
Proof.
  intros Hab. cbn [round2]. apply nearest_mono.
  apply Qmult_le_r; [reflexivity |]. rewrite <- Zle_Qle. apply rne_mono.
  apply Qmult_le_r; [reflexivity | exact Hab].
Qed.

(** A result between two exactly known roundings is finite and between
    them. *)
Lemma nearest_between lo hi lo' hi' q :
  nearest lo = Fin lo' -> nearest hi = Fin hi' -> lo <= q <= hi ->
  exists r, nearest q = Fin r /\ lo' <= r <= hi'.
Proof.
  intros Hlo Hhi [H1 H2].
  pose proof (nearest_mono lo q H1) as L. pose proof (nearest_mono q hi H2) as U.
  rewrite Hlo in L. rewrite Hhi in U.
  destruct (nearest q) as [r | [] |]; try discriminate.
  exists r. cbn [leb] in L, U. apply Qle_bool_iff in L, U. auto.
Qed.

End Float64Facts.

(** ** Decoded fields and scaled prices *)

Module DecoderFacts.

Import Float64 Float64Facts Struct.

Lemma byte_bound b : 0 <= Z.of_N (Byte.to_N b) <= 255.
Proof. pose proof (Byte.to_N_bounded b). lia. Qed.

Lemma le_value_4 data : u32 (le_value (firstn 4 data)).
Proof.
  unfold u32.
  destruct data as [| b0 [| b1 [| b2 [| b3 rest]]]]; cbn [firstn le_value];
    repeat match goal with
           | |- context [Byte.to_N ?b] =>
               pose proof (byte_bound b); generalize dependent (Z.of_N (Byte.to_N b)); intros
           end; lia.
Qed.

Lemma fields_u32 count data : Forall u32 (fields count data).
Proof.
  revert data. induction count as [| count IH]; intros data; cbn [fields].
  - constructor.
  - constructor; [apply le_value_4 | apply IH].
Qed.

Lemma fields_length count data : List.length (fields count data) = count.
Proof.
  revert data. induction count as [| count IH]; intros data; cbn [fields].
  - reflexivity.
  - cbn [List.length]. f_equal. apply IH.
Qed.

(** [struct.unpack] succeeds exactly on 32 bytes, and then gives eight
    unsigned 32-bit values. *)
Lemma unpack_8I_ok data t :
  unpack_8I data = Py.Ok t ->
  List.length data = 32%nat /\ List.length t = 8%nat /\ Forall u32 t.
Proof.
  unfold unpack_8I. destruct (Nat.eqb_spec (List.length data) 32) as [E | NE];
    [| discriminate].
  intros H. assert (Ht : t = fields 8 data) by congruence. rewrite Ht.
  split; [exact E |]. split; [apply fields_length | apply fields_u32].
Qed.

Lemma item_u32 t i : Forall u32 t -> u32 (DATParser.item t i).
Proof.
  intros H. unfold DATParser.item.
  destruct (Nat.lt_ge_cases i (List.length t)) as [Hi | Hi].
  - rewrite Forall_forall in H. apply H, nth_In, Hi.
  - rewrite nth_overflow by exact Hi. unfold u32. lia.
Qed.

Local Open Scope Q_scope.

Lemma of_int_u32 x :
  u32 x ->
  exists q, of_int x = Fin q /\ 0 <= q <= 4294967296 /\
            ((0 < x)%Z -> 1 <= q) /\ (x = 0%Z -> q == 0).
Proof.
  intros [H0 H1]. unfold of_int.
  assert (Hhi : nearest 4294967296 = Fin 4294967296) by (vm_compute; reflexivity).
  destruct (Z.eq_dec x 0) as [-> | Hx].
  - exists 0. split; [reflexivity |]. split; [lra |].
    split; [lia | reflexivity].
  - assert (H1' : nearest 1 = Fin 1) by (vm_compute; reflexivity).
    destruct (nearest_between 1 4294967296 1 4294967296 (inject_Z x) H1' Hhi)
      as [q [Hq Hb]].
    { split.
      - change 1 with (inject_Z 1). rewrite <- Zle_Qle. lia.
      - change 4294967296 with (inject_Z 4294967296). rewrite <- Zle_Qle. lia. }
    exists q. split; [exact Hq |]. split; [lra |].
    split; [intros _; lra | intros E; contradiction].
Qed.

(** [x / 1000.0] for an unsigned 32-bit [x] is finite, zero for zero and
    positive otherwise. *)
Lemma thousandth_u32 x :
  u32 x ->
  exists r, div (of_int x) (Fin 1000) = Fin r /\ 0 <= r /\
            ((0 < x)%Z -> 0 < r) /\ (x = 0%Z -> r == 0).
Proof.
  intros Hx. destruct (of_int_u32 x Hx) as [q [Hq [[Q0 Q1] [Qpos Qzero]]]].
  rewrite Hq. unfold div. change (Qcompare 1000 0) with Gt.
  assert (Hlo : exists lo, nearest (1 / 1000) = Fin lo /\ 0 < lo)
    by (vm_compute; eexists; split; reflexivity).
  assert (Hhi : exists hi, nearest (4294967296 / 1000) = Fin hi)
    by (vm_compute; eexists; reflexivity).
  destruct Hlo as [lo [Hlo Hlo0]]. destruct Hhi as [hi Hhi].
  destruct (Z.eq_dec x 0) as [E | NE].
  - assert (Hz : nearest (q / 1000) = Fin 0).
    { unfold nearest. assert (Hq0 : q / 1000 == 0) by (rewrite (Qzero E); reflexivity).
      rewrite Hq0. reflexivity. }
    rewrite Hz. exists 0. split; [reflexivity |]. split; [lra |].
    split; [lia | reflexivity].
  - assert (Hq1 : 1 <= q) by (apply Qpos; destruct Hx; lia).
    destruct (nearest_between (1 / 1000) (4294967296 / 1000) _ _ (q / 1000) Hlo Hhi)
      as [r [Hr [R0 R1]]].
    { split; apply Qmult_le_r; try reflexivity; assumption. }
    exists r.
    assert (Hpos : 0 < r) by (eapply Qlt_le_trans; [exact Hlo0 | exact R0]).
    split; [exact Hr |]. split; [lra |].
    split; [intros _; exact Hpos | intros E; contradiction].
Qed.

End DecoderFacts.

(** ** The assembler on one pair *)

Module AssemblerFacts.

Import Py DATParser Float64 Float64Facts Struct DecoderFacts.

Lemma ltb_Fin_false a b : ltb (Fin a) (Fin b) = false -> (b <= a)%Q.
Proof.
  cbn [ltb]. intros H. apply negb_false_iff in H. now apply Qle_bool_iff.
Qed.

Lemma ltb_Fin_true a b : ltb (Fin a) (Fin b) = true -> (a < b)%Q.
Proof.
  cbn [ltb]. intros H. apply negb_true_iff in H.
  apply Qnot_le_lt. intros L. apply Qle_bool_iff in L. congruence.
Qed.

Lemma leb_min x a b :
  leb x a = true -> leb x b = true -> leb x (min a b) = true.
Proof. intros Ha Hb. unfold min. now destruct (ltb b a). Qed.

Lemma leb_max a b x :
  leb a x = true -> leb b x = true -> leb (max a b) x = true.
Proof. intros Ha Hb. unfold max. now destruct (ltb a b). Qed.

(** What it takes for [assemble] to append a bar. *)
Lemma assemble_accepts utcoffset is_intraday p v b :
  assemble utcoffset is_intraday p v = Ok (Some b) ->
  unix_timestamp (item p 2) = true /\
  plausible is_intraday p = true /\
  zero_or_negative (scale is_intraday p v) = false /\
  inconsistent (scale is_intraday p v) = false /\
  exists stamp,
    parse_date utcoffset (item p 2) is_intraday = Ok stamp /\
    b = emit is_intraday stamp (scale is_intraday p v).
Proof.
  unfold assemble.
  destruct (unix_timestamp (item p 2)); [| discriminate].
  destruct (plausible is_intraday p); [| discriminate].
  destruct (zero_or_negative _); [discriminate |].
  destruct (inconsistent _); [discriminate |].
  destruct (parse_date utcoffset (item p 2) is_intraday) as [stamp | e];
    cbn [bind]; [| discriminate].
  intros H. repeat split. exists stamp. split; congruence.
Qed.

Lemma scale_prices is_intraday p v :
  let s := scale is_intraday p v in
  open_price s = div (of_int (item p 3)) (Fin 1000) /\
  high_price s = div (of_int (item p 4)) (Fin 1000) /\
  low_price s = div (of_int (item p 5)) (Fin 1000) /\
  close_price s = div (of_int (item p 6)) (Fin 1000).
Proof. destruct is_intraday; repeat split. Qed.

Lemma scale_exact is_intraday p v :
  Forall u32 p ->
  exists o h l c, exact_prices p (scale is_intraday p v) o h l c.
Proof.
  intros Hp.
  destruct (scale_prices is_intraday p v) as [Eo [Eh [El Ec]]].
  destruct (thousandth_u32 _ (item_u32 p 3 Hp)) as [o [Ho [O0 [Op Oz]]]].
  destruct (thousandth_u32 _ (item_u32 p 4 Hp)) as [h [Hh [H0 [_ Hz]]]].
  destruct (thousandth_u32 _ (item_u32 p 5 Hp)) as [l [Hl [L0 [Lp _]]]].
  destruct (thousandth_u32 _ (item_u32 p 6 Hp)) as [c [Hc [C0 [_ Cz]]]].
  exists o, h, l, c. constructor; try assumption; congruence.
Qed.

(** The second quality check leaves the prices ordered. *)
Lemma consistent_order s p o h l c :
  exact_prices p s o h l c -> inconsistent s = false ->
  (l <= o /\ l <= c /\ o <= h /\ c <= h)%Q.
Proof.
  intros E. unfold inconsistent.
  rewrite (exact_open _ _ _ _ _ _ E), (exact_high _ _ _ _ _ _ E),
          (exact_low _ _ _ _ _ _ E), (exact_close _ _ _ _ _ _ E).
  intros H. apply orb_false_iff in H. destruct H as [H H3].
  apply orb_false_iff in H. destruct H as [H1 H2].
  apply ltb_Fin_false in H1.
  unfold max in H2. unfold min in H3.
  destruct (ltb (Fin o) (Fin c)) eqn:Eoc; destruct (ltb (Fin c) (Fin o)) eqn:Eco;
    try apply ltb_Fin_true in Eoc; try apply ltb_Fin_true in Eco;
    try apply ltb_Fin_false in Eoc; try apply ltb_Fin_false in Eco;
    apply ltb_Fin_false in H2; apply ltb_Fin_false in H3;
    repeat split; lra.
Qed.

Lemma round2_zero : round2 (Fin 0) = Fin 0.
Proof. vm_compute. reflexivity. Qed.

Lemma round2_nonneg q : (0 <= q)%Q -> leb (of_int 0) (round2 (Fin q)) = true.
Proof.
  intros H. change (of_int 0) with (Fin 0). rewrite <- round2_zero.
  apply round2_mono, H.
Qed.

(** The stored prices of an accepted pair keep their order, and none is
    negative. *)
Lemma accepted_prices utcoffset is_intraday p v b :
  Forall u32 p ->
  assemble utcoffset is_intraday p v = Ok (Some b) ->
  (leb (low b) (min (open b) (close b)) = true /\
   leb (max (open b) (close b)) (high b) = true) /\
  (leb (of_int 0) (open b) = true /\ leb (of_int 0) (high b) = true /\
   leb (of_int 0) (low b) = true /\ leb (of_int 0) (close b) = true).
Proof.
  intros Hp Hacc.
  destruct (assemble_accepts _ _ _ _ _ Hacc) as [_ [_ [_ [Hcons [stamp [_ ->]]]]]].
  destruct (scale_exact is_intraday p v Hp) as [o [h [l [c E]]]].
  destruct (consistent_order _ _ _ _ _ _ E Hcons) as [Hlo [Hlc [Hoh Hch]]].
  cbn [emit open high low close].
  rewrite (exact_open _ _ _ _ _ _ E), (exact_high _ _ _ _ _ _ E),
          (exact_low _ _ _ _ _ _ E), (exact_close _ _ _ _ _ _ E).
  split; [split |].
  - apply leb_min; apply round2_mono; assumption.
  - apply leb_max; apply round2_mono; assumption.
  - repeat split; apply round2_nonneg; apply E.
Qed.

Lemma materialized_prices utcoffset is_intraday b :
  materialized utcoffset is_intraday b ->
  (leb (low b) (min (open b) (close b)) = true /\
   leb (max (open b) (close b)) (high b) = true) /\
  (leb (of_int 0) (open b) = true /\ leb (of_int 0) (high b) = true /\
   leb (of_int 0) (low b) = true /\ leb (of_int 0) (close b) = true).
Proof.
  intros [pd [vd [p [v [Hp [_ Hacc]]]]]].
  apply unpack_8I_ok in Hp. destruct Hp as [_ [_ Hp]].
  eapply accepted_prices; eassumption.
Qed.

(** With two zeros among the four raw prices fewer than three are
    plausible. *)
Lemma plausible_zeros is_intraday a0 a1 a2 a3 a4 a5 a6 a7 :
  plausible is_intraday [a0; a1; a2; a3; a4; a5; a6; a7] = true ->
  (a3 = 0 -> a5 = 0 -> False) /\
  (a6 = 0 -> a5 = 0 -> False).
Proof.
  unfold plausible, slice. cbn [Nat.sub skipn firstn filter].
  intros H. repeat split; intros -> ->; revert H;
    change (0 <? 0) with false; cbn [andb];
    repeat match goal with
           | |- context [(0 <? ?a) && (?a <? ?lim)] =>
               destruct ((0 <? a) && (a <? lim))
           end; cbn; discriminate.
Qed.

(** In an accepted pair the raw open, high and close are not zero. *)
Lemma accepted_raw_positive utcoffset is_intraday p v b :
  Forall u32 p -> List.length p = 8%nat ->
  assemble utcoffset is_intraday p v = Ok (Some b) ->
  0 < item p 3 /\ 0 < item p 4 /\ 0 < item p 6.
Proof.
  intros Hp Hlen Hacc.
  destruct (assemble_accepts _ _ _ _ _ Hacc) as [_ [Hpl [_ [Hcons _]]]].
  destruct (scale_exact is_intraday p v Hp) as [o [h [l [c E]]]].
  destruct (consistent_order _ _ _ _ _ _ E Hcons) as [Hlo [Hlc [Hoh Hch]]].
  pose proof (item_u32 p 3 Hp) as U3. pose proof (item_u32 p 4 Hp) as U4.
  pose proof (item_u32 p 5 Hp) as U5. pose proof (item_u32 p 6 Hp) as U6.
  pose proof (open_zero _ _ _ _ _ _ E) as Oz.
  pose proof (high_zero _ _ _ _ _ _ E) as Hz.
  pose proof (close_zero _ _ _ _ _ _ E) as Cz.
  pose proof (low_positive _ _ _ _ _ _ E) as Lp.
  pose proof (open_positive _ _ _ _ _ _ E) as Op.
  pose proof (open_nonneg _ _ _ _ _ _ E) as O0.
  pose proof (low_nonneg _ _ _ _ _ _ E) as L0.
  destruct p as [| a0 [| a1 [| a2 [| a3 [| a4 [| a5 [| a6 [| a7 [| ? ?]]]]]]]]];
    try discriminate Hlen.
  destruct (plausible_zeros _ _ _ _ _ _ _ _ _ Hpl) as [Z35 Z65].
  unfold item in *. cbn [nth] in *. unfold u32 in *.
  assert (Low0 : (l == 0)%Q -> a5 = 0).
  { intros Hl. destruct (Z.eq_dec a5 0) as [-> | N]; [reflexivity |].
    assert (0 < l)%Q by (apply Lp; lia). lra. }
  assert (N3 : a3 <> 0).
  { intros E3. apply (Z35 E3). apply Low0. specialize (Oz E3). lra. }
  assert (N6 : a6 <> 0).
  { intros E6. apply (Z65 E6). apply Low0. specialize (Cz E6). lra. }
  assert (N4 : a4 <> 0).
  { intros E4. specialize (Hz E4).
    assert (0 < o)%Q by (apply Op; lia). lra. }
  lia.
Qed.

End AssemblerFacts.

(** ** The loop over pairs and the series built from it *)

Module SeriesFacts.

Import Py DATParser.

(** One turn of the loop appends at most one bar, a materialized one. *)
Lemma pair_at_cases utcoffset is_intraday data i records turn records' :
  pair_at utcoffset is_intraday data i records = Ok (turn, records') ->
  records' = records \/
  exists b, materialized utcoffset is_intraday b /\ records' = records ++ [b].
Proof.
  unfold pair_at.
  destruct (_ || _)%bool; [intros H; left; congruence |].
  destruct (Struct.unpack_8I (slice data (i * record_size) _)) as [p | e] eqn:Hp;
    cbn [bind try_except].
  2: { destruct (is_struct_error e); [intros H; left; congruence | discriminate]. }
  destruct (Struct.unpack_8I (slice data ((i + 1) * record_size) _)) as [v | e] eqn:Hv;
    cbn [bind try_except].
  2: { destruct (is_struct_error e); [intros H; left; congruence | discriminate]. }
  destruct (assemble utcoffset is_intraday p v) as [[b |] | e] eqn:Ha;
    cbn [bind try_except].
  - intros H. right. exists b. split; [| congruence].
    eexists _, _, p, v. split; [exact Hp |]. split; [exact Hv | exact Ha].
  - intros H. left. congruence.
  - destruct (is_struct_error e); [intros H; left; congruence | discriminate].
Qed.

Lemma for_pairs_appends utcoffset is_intraday data indices records out :
  for_pairs utcoffset is_intraday data indices records = Ok out ->
  exists added,
    out = records ++ added /\
    Forall (materialized utcoffset is_intraday) added /\
    (List.length added <= List.length indices)%nat.
Proof.
  revert records. induction indices as [| i rest IH]; intros records; cbn [for_pairs].
  - intros H. exists []. rewrite app_nil_r. split; [congruence |].
    split; [constructor | apply Nat.le_refl].
  - destruct (pair_at utcoffset is_intraday data i records) as [[turn records'] | e] eqn:Hp;
      cbn [bind]; [| discriminate].
    assert (Hone : exists one, records' = records ++ one /\
                     Forall (materialized utcoffset is_intraday) one /\
                     (List.length one <= 1)%nat).
    { destruct (pair_at_cases _ _ _ _ _ _ _ Hp) as [-> | [b [Hb ->]]].
      - exists []. rewrite app_nil_r. repeat split; auto.
      - exists [b]. repeat split; auto. }
    destruct Hone as [one [-> [Hone Hlen]]].
    destruct turn.
    + intros H. destruct (IH _ H) as [added [-> [Hadd Hl]]].
      exists (one ++ added). rewrite app_assoc. split; [reflexivity |].
      split; [apply Forall_app; auto |].
      rewrite length_app. cbn [List.length]. lia.
    + intros H. exists one. split; [congruence |].
      split; [exact Hone | cbn [List.length]; lia].
Qed.

(** *** Sorting on the time column *)

Lemma insert_by_time_perm b sorted : Permutation (insert_by_time b sorted) (b :: sorted).
Proof.
  induction sorted as [| b' rest IH]; cbn [insert_by_time].
  - apply Permutation_refl.
  - destruct (String.ltb (time b) (time b')).
    + apply Permutation_refl.
    + eapply perm_trans; [apply perm_skip, IH | apply perm_swap].
Qed.

Lemma fold_insert_perm records acc :
  Permutation (fold_left (fun sorted b => insert_by_time b sorted) records acc)
              (acc ++ records).
Proof.
  revert acc. induction records as [| b rest IH]; intros acc; cbn [fold_left].
  - rewrite app_nil_r. apply Permutation_refl.
  - eapply perm_trans; [apply IH |].
    eapply perm_trans; [apply Permutation_app_tail, insert_by_time_perm |].
    cbn [app]. apply Permutation_middle.
Qed.

(** [sort_values] keeps exactly the bars it is given. *)
Lemma sort_values_perm records : Permutation (sort_values records) records.
Proof. unfold sort_values. apply (fold_insert_perm records []). Qed.

Lemma not_ltb_leb s1 s2 : String.ltb s1 s2 = false -> String.leb s2 s1 = true.
Proof.
  unfold String.ltb, String.leb. rewrite (String.compare_antisym s2 s1).
  destruct (String.compare s1 s2); cbn; congruence.
Qed.

Lemma ltb_leb s1 s2 : String.ltb s1 s2 = true -> String.leb s1 s2 = true.
Proof.
  unfold String.ltb, String.leb. destruct (String.compare s1 s2); congruence.
Qed.

Lemma insert_by_time_sorted b sorted :
  Sorted bar_le sorted -> Sorted bar_le (insert_by_time b sorted).
Proof.
  induction 1 as [| b' rest Hs IH Hd]; cbn [insert_by_time].
  - repeat constructor.
  - destruct (String.ltb (time b) (time b')) eqn:E.
    + constructor; [constructor; assumption |].
      constructor. apply ltb_leb, E.
    + constructor; [exact IH |].
      destruct rest as [| b'' rest']; cbn [insert_by_time].
      * constructor. apply not_ltb_leb, E.
      * destruct (String.ltb (time b) (time b'')).
        -- constructor. apply not_ltb_leb, E.
        -- constructor. inversion Hd; assumption.
Qed.

Lemma fold_insert_sorted records acc :
  Sorted bar_le acc ->
  Sorted bar_le (fold_left (fun sorted b => insert_by_time b sorted) records acc).
Proof.
  revert acc. induction records as [| b rest IH]; intros acc Hacc; cbn [fold_left].
  - exact Hacc.
  - apply IH, insert_by_time_sorted, Hacc.
Qed.

Lemma sort_values_sorted records : Sorted bar_le (sort_values records).
Proof. apply fold_insert_sorted. constructor. Qed.

(** *** The percent-change column *)

Lemma ratios_length previous closes :
  List.length (ratios previous closes) = List.length closes.
Proof.
  revert previous. induction closes as [| c rest IH]; intros previous; cbn.
  - reflexivity.
  - now rewrite IH.
Qed.

Lemma pct_change_100_length closes :
  List.length (pct_change_100 closes) = List.length closes.
Proof. unfold pct_change_100. now rewrite length_map, ratios_length. Qed.

Lemma ratios_head previous c rest :
  nth_error (ratios previous (c :: rest)) 0 =
  Some (Float64.sub (Float64.div c previous) (Float64.of_int 1)).
Proof. reflexivity. Qed.

Lemma ratios_step previous closes i c_prev c :
  nth_error closes i = Some c_prev ->
  nth_error closes (S i) = Some c ->
  nth_error (ratios previous closes) (S i) =
  Some (Float64.sub (Float64.div c c_prev) (Float64.of_int 1)).
Proof.
  revert previous i. induction closes as [| c0 rest IH]; intros previous i H0 H1.
  - destruct i; discriminate.
  - destruct i as [| i].
    + cbn in H0. injection H0 as ->.
      destruct rest as [| c1 rest']; [discriminate |].
      cbn in H1. injection H1 as ->. reflexivity.
    + cbn [ratios nth_error]. apply IH; assumption.
Qed.

(** *** Rows *)

Lemma rows_bars stock_code (bars : list Bar) (pct : list Float64.float) :
  List.length pct = List.length bars ->
  map bar (map (make_row stock_code) (combine bars pct)) = bars /\
  map pct_change (map (make_row stock_code) (combine bars pct)) = pct.
Proof.
  revert pct. induction bars as [| b rest IH]; intros [| x pct] H;
    try discriminate; cbn.
  - split; reflexivity.
  - injection H as H. destruct (IH pct H) as [-> ->]. split; reflexivity.
Qed.

Lemma sorted_rows (l : list Row) : Sorted bar_le (map bar l) -> Sorted time_le l.
Proof.
  induction l as [| r rest IH]; intros H.
  - constructor.
  - cbn [map] in H. inversion H as [| ? ? Hs Hd]; subst.
    constructor; [apply IH, Hs |].
    destruct rest as [| r' rest']; constructor.
    cbn [map] in Hd. inversion Hd; assumption.
Qed.

End SeriesFacts.

(** ** The whole file *)

Module ParserFacts.

Import Py DATParser SeriesFacts.

(** Linear arithmetic with quotients by constants. *)
Ltac div_lia := zify; Z.to_euclidean_division_equations; lia.

(** When the handler of [parse_dat_file] returns, it returns the empty
    table. *)
Lemma handler_returns (print : message -> outcome unit) file_path e df :
  bind (print (ParseFailed file_path e)) (fun _ => Ok empty_frame) = Ok df ->
  df = empty_frame.
Proof.
  destruct (print (ParseFailed file_path e)) as [[] | e']; cbn [bind];
    congruence.
Qed.

(** A returned table is the empty one, or it is built from the bars the
    loop collected. *)
Lemma parse_dat_file_inv utcoffset read print file_path df :
  parse_dat_file utcoffset read print file_path = Ok df ->
  df = empty_frame \/
  exists data records,
    read file_path = Ok data /\
    for_pairs utcoffset (_detect_data_type file_path) data
      (range_by_2 (Nat.div (List.length data) record_size - 1)) [] = Ok records /\
    records <> [] /\
    rows df = map (make_row (stem file_path))
                (combine (sort_values records)
                         (pct_change_100 (map close (sort_values records)))).
Proof.
  unfold parse_dat_file, try_except, parse_body.
  destruct (read file_path) as [data | e]; cbn [bind any_exception];
    [| intros H; left; exact (handler_returns _ _ _ _ H)].
  destruct (Nat.div (List.length data) record_size =? 0)%nat;
    [intros H; left; congruence |].
  destruct (for_pairs _ _ data _ []) as [records | e] eqn:Hloop;
    cbn [bind]; [| intros H; left; exact (handler_returns _ _ _ _ H)].
  destruct records as [| b rest]; [intros H; left; congruence |].
  intros H. right. exists data, (b :: rest).
  split; [reflexivity |]. split; [exact Hloop |]. split; [discriminate |].
  injection H as <-. reflexivity.
Qed.

Lemma sort_values_length records :
  List.length (sort_values records) = List.length records.
Proof. apply Permutation_length, sort_values_perm. Qed.

(** The bars and the percent changes of the rows of a table that has
    rows. *)
Lemma built_rows stock_code records :
  let built := map (make_row stock_code)
                 (combine (sort_values records)
                          (pct_change_100 (map close (sort_values records)))) in
  map bar built = sort_values records /\
  map pct_change built = pct_change_100 (map close (sort_values records)).
Proof.
  apply rows_bars. now rewrite pct_change_100_length, length_map.
Qed.

Lemma range_by_2_length stop : List.length (range_by_2 stop) = Nat.div (stop + 1) 2.
Proof. unfold range_by_2. now rewrite length_map, length_seq. Qed.

Lemma range_by_2_In stop i : In i (range_by_2 stop) -> (i + 1 <= stop)%nat.
Proof.
  unfold range_by_2. rewrite in_map_iff. intros [k [<- Hk]].
  apply in_seq in Hk. div_lia.
Qed.

(** Every row of a returned table carries a materialized bar. *)
Lemma rows_materialized utcoffset read print file_path df r :
  parse_dat_file utcoffset read print file_path = Ok df ->
  In r (rows df) ->
  materialized utcoffset (_detect_data_type file_path) (bar r).
Proof.
  intros Hparse Hin.
  destruct (parse_dat_file_inv _ _ _ _ _ Hparse)
    as [-> | [data [records [_ [Hloop [_ Hrows]]]]]].
  - destruct Hin.
  - destruct (for_pairs_appends _ _ _ _ _ _ Hloop) as [added [-> [Hall _]]].
    cbn [app] in Hrows.
    assert (Hb : In (bar r) (map bar (rows df))) by (apply in_map, Hin).
    rewrite Hrows in Hb. rewrite (proj1 (built_rows _ _)) in Hb.
    apply (Permutation_in _ (sort_values_perm added)) in Hb.
    rewrite Forall_forall in Hall. apply Hall, Hb.
Qed.

(** *** Only the bytes of whole pairs are read *)

Lemma slice_firstn {A : Type} (l : list A) m a b :
  (b <= m)%nat -> slice (firstn m l) a b = slice l a b.
Proof.
  intros H. unfold slice. rewrite skipn_firstn_comm, firstn_firstn.
  f_equal. lia.
Qed.

Lemma pair_at_prefix utcoffset is_intraday data m i records :
  ((i + 2) * record_size <= m)%nat ->
  pair_at utcoffset is_intraday (firstn m data) i records =
  pair_at utcoffset is_intraday data i records.
Proof.
  intros H. unfold pair_at. unfold record_size in *.
  rewrite !slice_firstn by lia. reflexivity.
Qed.

Lemma for_pairs_prefix utcoffset is_intraday data m indices records :
  (forall i, In i indices -> ((i + 2) * record_size <= m)%nat) ->
  for_pairs utcoffset is_intraday (firstn m data) indices records =
  for_pairs utcoffset is_intraday data indices records.
Proof.
  revert records. induction indices as [| i rest IH]; intros records H;
    cbn [for_pairs].
  - reflexivity.
  - rewrite pair_at_prefix by (apply H; left; reflexivity).
    destruct (pair_at utcoffset is_intraday data i records) as [[[|] records'] | e];
      cbn [bind]; try reflexivity.
    apply IH. intros j Hj. apply H. right. exact Hj.
Qed.

Lemma range_by_2_pairs count :
  range_by_2 (count - 1) = map (fun k => (2 * k)%nat) (seq 0 (Nat.div count 2)).
Proof. unfold range_by_2. do 2 f_equal. div_lia. Qed.

(** Cutting a file anywhere after its last whole pair of records changes
    nothing. *)
Lemma parse_body_prefix utcoffset read read' file_path data m :
  read file_path = Ok data ->
  read' file_path = Ok (firstn m data) ->
  (2 * record_size * Nat.div (Nat.div (List.length data) record_size) 2 <= m)%nat ->
  parse_body utcoffset read' file_path = parse_body utcoffset read file_path.
Proof.
  intros Hr Hr' Hm. unfold parse_body. rewrite Hr, Hr'. cbn [bind].
  rewrite length_firstn. unfold record_size in *.
  set (len := List.length data) in *.
  assert (Hpairs : Nat.div (Nat.div (Nat.min m len) 32) 2 = Nat.div (Nat.div len 32) 2)
    by div_lia.
  rewrite !range_by_2_pairs, Hpairs.
  rewrite for_pairs_prefix.
  2: { intros i Hi. apply in_map_iff in Hi. destruct Hi as [k [<- Hk]].
       apply in_seq in Hk. unfold record_size. lia. }
  destruct (Nat.eqb_spec (Nat.div (Nat.min m len) 32) 0) as [E' | N'];
    destruct (Nat.eqb_spec (Nat.div len 32) 0) as [E | N]; try reflexivity.
  - assert (Hz : Nat.div (Nat.div len 32) 2 = 0%nat) by div_lia.
    rewrite Hz. reflexivity.
  - exfalso. div_lia.
Qed.

End ParserFacts.

(** ** Timestamps *)

Module TimestampFacts.

Import Py DATParser Calendar.

Lemma digits_no_dash d i :
  String.get i (NilEmpty.string_of_uint d) <> Some "-"%char.
Proof.
  revert i. induction d; intros [| i]; cbn; try discriminate; apply IHd.
Qed.

(** Past its first character the decimal form of an integer has only
    digits. *)
Lemma decimal_no_dash z i : String.get (S i) (decimal z) <> Some "-"%char.
Proof.
  unfold decimal, NilZero.string_of_int, NilZero.string_of_uint.
  destruct (Z.to_int z) as [d | d].
  - destruct d; try apply digits_no_dash. destruct i; discriminate.
  - cbn [String.get]. destruct d; try apply digits_no_dash.
    destruct i; discriminate.
Qed.

(** Both formats have a dash after the four digits of the year. *)
Lemma strftime_date_to_dash dt rest :
  String.get 4 (strftime_date_to dt rest) = Some "-"%char.
Proof. reflexivity. Qed.

Lemma formatted_not_decimal dt (include_time : bool) z :
  (if include_time then strftime_datetime dt else strftime_date dt) <> decimal z.
Proof.
  intros H. apply (decimal_no_dash z 3). rewrite <- H.
  destruct include_time; reflexivity.
Qed.

Lemma unix_timestamp_iff v :
  unix_timestamp v = true <-> 1500000000 < v < 2000000000.
Proof.
  unfold unix_timestamp. rewrite andb_true_iff, !Z.ltb_lt. tauto.
Qed.

(** The days of the accepted range fall in the years 2017 to 2034. *)
Lemma civil_year days :
  17360 <= days <= 23149 ->
  2017 <= fst (fst (civil_from_days days)) <= 2034.
Proof.
  intros Hd. unfold civil_from_days.
  set (z := days + 719468).
  assert (Hera : z / 146097 = 5).
  { symmetry. apply (Z.div_unique z 146097 5 (z - 730485)); unfold z; lia. }
  cbv zeta. fold z. rewrite !Hera.
  set (doe := z - 5 * 146097).
  assert (Hdoe : 6343 <= doe <= 12132) by (unfold doe, z; lia).
  clearbody doe.
  set (yoe := (doe - doe / 1460 + doe / 36524 - doe / 146096) / 365).
  assert (Hyoe : 17 <= yoe <= 33).
  { unfold yoe. Z.to_euclidean_division_equations. lia. }
  clearbody yoe. cbn [fst].
  match goal with
  | |- context [if ?c then 1 else 0] => destruct c
  end; lia.
Qed.

(** With local time within a day of UTC, every instant of the accepted range
    has a calendar date. *)
Lemma fromtimestamp_in_range utcoffset t :
  unix_timestamp t = true -> - 86400 <= utcoffset t <= 86400 ->
  exists dt, fromtimestamp utcoffset t = Ok dt.
Proof.
  intros Ht Hoff. apply unix_timestamp_iff in Ht.
  unfold fromtimestamp.
  assert (Hd : 17360 <= (t + utcoffset t) / 86400 <= 23149)
    by (Z.to_euclidean_division_equations; lia).
  pose proof (civil_year _ Hd) as Hy.
  destruct (civil_from_days ((t + utcoffset t) / 86400)) as [[y m] d].
  cbn [fst] in Hy.
  replace ((1 <=? y) && (y <=? 9999))%bool with true.
  - eexists. reflexivity.
  - symmetry. apply andb_true_iff. rewrite !Z.leb_le. lia.
Qed.

(** [str] gives the decimal form of an integer of at most
    [int_max_str_digits] digits, and raises on every other one. *)
Lemma str_small z :
  Z.abs z < 10 ^ int_max_str_digits -> str z = Ok (decimal z).
Proof. intros H. unfold str. apply Z.ltb_lt in H. now rewrite H. Qed.

Lemma str_huge z :
  10 ^ int_max_str_digits <= Z.abs z -> str z = Raise ValueError.
Proof. intros H. unfold str. apply Z.ltb_ge in H. now rewrite H. Qed.

Lemma ten_digits_small : 10 ^ 10 <= 10 ^ int_max_str_digits.
Proof. apply Z.pow_le_mono_r; unfold int_max_str_digits; lia. Qed.

Lemma ten_digits n :
  Z.abs n < 10000000000 -> Z.abs n < 10 ^ int_max_str_digits.
Proof.
  intros H. apply Z.lt_le_trans with (10 ^ 10); [exact H |].
  exact ten_digits_small.
Qed.

Lemma timestamp_small n :
  unix_timestamp n = true -> Z.abs n < 10 ^ int_max_str_digits.
Proof.
  intros H. apply unix_timestamp_iff in H. apply ten_digits. lia.
Qed.

(** The smallest integers, in absolute value, that [str] refuses. *)
Lemma limit_is_huge : 10 ^ int_max_str_digits <= Z.abs (10 ^ int_max_str_digits).
Proof. rewrite Z.abs_eq; [apply Z.le_refl | apply Z.pow_nonneg; lia]. Qed.

Lemma opposite_limit_is_huge :
  10 ^ int_max_str_digits <= Z.abs (- 10 ^ int_max_str_digits).
Proof. rewrite Z.abs_opp. exact limit_is_huge. Qed.

Lemma huge_outside n :
  10 ^ int_max_str_digits <= Z.abs n -> unix_timestamp n = false.
Proof.
  intros H. destruct (unix_timestamp n) eqn:E; [| reflexivity].
  apply timestamp_small in E. exfalso. revert H E.
  generalize (10 ^ int_max_str_digits). intros limit H E. lia.
Qed.

Lemma parse_date_outside utcoffset n include_time :
  unix_timestamp n = false -> parse_date utcoffset n include_time = str n.
Proof.
  intros H. unfold parse_date, try_except. rewrite H.
  now destruct (str n).
Qed.

Lemma parse_date_failure utcoffset n include_time e :
  fromtimestamp utcoffset n = Raise e ->
  parse_date utcoffset n include_time = str n.
Proof.
  intros He. destruct (unix_timestamp n) eqn:Hn;
    [| now apply parse_date_outside].
  unfold parse_date. rewrite Hn, He. reflexivity.
Qed.

(** On a value of the accepted range [parse_date] returns. *)
Lemma parse_date_timestamp utcoffset n include_time :
  unix_timestamp n = true -> exists s, parse_date utcoffset n include_time = Ok s.
Proof.
  intros Hn. unfold parse_date. rewrite Hn.
  destruct (fromtimestamp utcoffset n) as [dt | e]; cbn [bind try_except].
  - destruct include_time; eexists; reflexivity.
  - cbn [any_exception]. rewrite (str_small n (timestamp_small n Hn)).
    eexists; reflexivity.
Qed.

Lemma parse_date_total utcoffset n include_time :
  Z.abs n < 10 ^ int_max_str_digits ->
  exists s, parse_date utcoffset n include_time = Ok s.
Proof.
  intros Hsmall. destruct (unix_timestamp n) eqn:Hn.
  - now apply parse_date_timestamp.
  - rewrite (parse_date_outside _ _ _ Hn), (str_small n Hsmall).
    eexists; reflexivity.
Qed.

Lemma parse_date_huge utcoffset n include_time :
  10 ^ int_max_str_digits <= Z.abs n ->
  parse_date utcoffset n include_time = Raise ValueError.
Proof.
  intros H. rewrite (parse_date_outside _ _ _ (huge_outside n H)).
  now apply str_huge.
Qed.

End TimestampFacts.

(** ** What returns and what raises *)

Module ReturnFacts.

Import Py DATParser TimestampFacts.

Lemma assemble_total utcoffset is_intraday p v :
  exists r, assemble utcoffset is_intraday p v = Ok r.
Proof.
  unfold assemble.
  destruct (unix_timestamp (item p 2)) eqn:Hts; [| eexists; reflexivity].
  destruct (plausible is_intraday p); [| eexists; reflexivity].
  destruct (zero_or_negative _); [eexists; reflexivity |].
  destruct (inconsistent _); [eexists; reflexivity |].
  destruct (parse_date_timestamp utcoffset (item p 2) is_intraday Hts)
    as [stamp ->].
  eexists. reflexivity.
Qed.

(** No turn of the loop raises: [struct.error] is caught, and nothing else
    can be raised. *)
Lemma pair_at_total utcoffset is_intraday data i records :
  exists turn, pair_at utcoffset is_intraday data i records = Ok turn.
Proof.
  unfold pair_at.
  match goal with
  | |- context [if ?c then _ else _] => destruct c
  end; [eexists; reflexivity |].
  unfold Struct.unpack_8I.
  destruct (List.length _ =? 32)%nat;
    cbn [bind try_except is_struct_error]; [| eexists; reflexivity].
  destruct (List.length _ =? 32)%nat;
    cbn [bind try_except is_struct_error]; [| eexists; reflexivity].
  match goal with
  | |- context [assemble ?u ?k ?p ?v] =>
      destruct (assemble_total u k p v) as [[b |] ->]
  end; cbn [bind]; eexists; reflexivity.
Qed.

Lemma for_pairs_total utcoffset is_intraday data indices records :
  exists collected,
    for_pairs utcoffset is_intraday data indices records = Ok collected.
Proof.
  revert records. induction indices as [| i rest IH]; intros records;
    cbn [for_pairs]; [eexists; reflexivity |].
  destruct (pair_at_total utcoffset is_intraday data i records)
    as [[[|] records'] ->]; cbn [bind]; [apply IH | eexists; reflexivity].
Qed.

(** The body of the outer [try] raises only what reading the file raises. *)
Lemma parse_body_readable utcoffset read file_path data :
  read file_path = Ok data ->
  exists df, parse_body utcoffset read file_path = Ok df.
Proof.
  intros Hread. unfold parse_body. rewrite Hread. cbn [bind].
  destruct (Nat.div (List.length data) record_size =? 0)%nat;
    [eexists; reflexivity |].
  destruct (for_pairs_total utcoffset (_detect_data_type file_path) data
              (range_by_2 (Nat.div (List.length data) record_size - 1)) [])
    as [[| b rest] ->]; cbn [bind]; eexists; reflexivity.
Qed.

Lemma parse_body_unreadable utcoffset read file_path e :
  read file_path = Raise e -> parse_body utcoffset read file_path = Raise e.
Proof. intros Hread. unfold parse_body. now rewrite Hread. Qed.

Lemma parse_body_raises utcoffset read file_path e :
  parse_body utcoffset read file_path = Raise e -> read file_path = Raise e.
Proof.
  intros H. destruct (read file_path) as [data | e'] eqn:Hread.
  - destruct (parse_body_readable utcoffset read file_path data Hread) as [df Hdf].
    congruence.
  - rewrite (parse_body_unreadable _ _ _ _ Hread) in H. congruence.
Qed.

(** A file that can be read gives a table, whatever [print] does. *)
Lemma parse_dat_file_readable utcoffset read print file_path data :
  read file_path = Ok data ->
  exists df, parse_dat_file utcoffset read print file_path = Ok df.
Proof.
  intros Hread. unfold parse_dat_file.
  destruct (parse_body_readable utcoffset read file_path data Hread) as [df ->].
  eexists. reflexivity.
Qed.

(** For a file that cannot be read the handler prints and returns the empty
    table. *)
Lemma parse_dat_file_unreadable utcoffset read print file_path e :
  read file_path = Raise e ->
  parse_dat_file utcoffset read print file_path =
  bind (print (ParseFailed file_path e)) (fun _ => Ok empty_frame).
Proof.
  intros Hread. unfold parse_dat_file.
  rewrite (parse_body_unreadable _ _ _ _ Hread). reflexivity.
Qed.

(** What [parse_dat_file] raises was raised by the [print] of its handler,
    for a file that could not be read. *)
Lemma parse_dat_file_raises utcoffset read print file_path e' :
  parse_dat_file utcoffset read print file_path = Raise e' ->
  exists e, read file_path = Raise e /\
            print (ParseFailed file_path e) = Raise e'.
Proof.
  intros H. destruct (read file_path) as [data | e] eqn:Hread.
  - destruct (parse_dat_file_readable utcoffset read print file_path data Hread)
      as [df Hdf]. congruence.
  - exists e. split; [reflexivity |].
    rewrite (parse_dat_file_unreadable _ _ _ _ _ Hread) in H.
    destruct (print (ParseFailed file_path e)) as [[] | e'']; cbn [bind] in H;
      congruence.
Qed.

Lemma parse_dat_file_printing utcoffset read print file_path :
  (forall e, print (ParseFailed file_path e) = Ok tt) ->
  exists df, parse_dat_file utcoffset read print file_path = Ok df.
Proof.
  intros Hprint.
  destruct (parse_dat_file utcoffset read print file_path) as [df | e'] eqn:H;
    [eexists; reflexivity |].
  destruct (parse_dat_file_raises _ _ _ _ _ H) as [e [_ He]].
  rewrite Hprint in He. discriminate.
Qed.

(** The loop over the files of a directory runs to its end when every
    message can be printed. *)
Lemma parse_files_total utcoffset read print files dat_files i all_data
    successful_count :
  (forall m, print m = Ok tt) ->
  exists result,
    parse_files utcoffset read print files dat_files i all_data
      successful_count = Ok result.
Proof.
  intros Hprint. revert i all_data successful_count.
  induction dat_files as [| dat_file rest IH]; intros i all_data successful_count;
    cbn [parse_files].
  - eexists. reflexivity.
  - assert (Hp : (if (Nat.modulo i 100 =? 0)%nat
                  then print (Processing i files (name dat_file))
                  else Ok tt) = Ok tt)
      by (destruct (Nat.modulo i 100 =? 0)%nat; [apply Hprint | reflexivity]).
    rewrite Hp. cbn [bind].
    destruct (parse_dat_file_printing utcoffset read print dat_file
                (fun e => Hprint _)) as [df ->].
    cbn [bind]. destruct (negb (is_empty df)); apply IH.
Qed.


End ReturnFacts.

(** * The specification's claims *)

Import Py DATParser.

(** ** The model of division against the Standard Library's binary64 *)

(** On sample operands, ties of [round(x, 2)] among them, the quotient
    computed by [Float64.div] is the one [SpecFloat.SFdiv] computes. *)
Example div_agrees_with_SpecFloat :
  Forall (fun x =>
            Float64.div (Float64.of_int x) (Float64.Fin 1000) =
            Float64.of_spec
              (SpecFloat.SFdiv 53 1024 (Float64.spec_of_int x)
                 (Float64.spec_of_int 1000)))
    [1; 4; 5; 125; 375; 2675; 9900; 10000; 10200; 10500; 999999; 1000000;
     9999999; 2147483648; 4294967295].
Proof. repeat (constructor; [vm_compute; reflexivity |]). constructor. Qed.

(** [round(2675 / 1000.0, 2)] is 2.67 and [round(0.125, 2)] is 0.12, as in
    Python. *)
Example round2_ties :
  Float64.round2 (Float64.div (Float64.of_int 2675) (Float64.Fin 1000)) =
  Float64.nearest (267 # 100) /\
  Float64.round2 (Float64.div (Float64.of_int 125) (Float64.Fin 1000)) =
  Float64.nearest (12 # 100).
Proof. split; vm_compute; reflexivity. Qed.

(** The specification's daily and intraday scenarios. *)
Example daily_scenario :
  assemble Sample.cst false Sample.price_record Sample.volume_record =
  Ok (Some {| time_field := "date"; time := "2023-11-15";
              open := Float64.nearest 10; high := Float64.nearest (105 # 10);
              low := Float64.nearest (99 # 10); close := Float64.nearest (102 # 10);
              volume := 50000; amount := Int 5000000 |}).
Proof. vm_compute. reflexivity. Qed.

Example intraday_scenario :
  assemble Sample.cst true Sample.price_record Sample.intraday_volume_record =
  Ok (Some {| time_field := "datetime"; time := "2023-11-15 06:13:20";
              open := Float64.nearest 10; high := Float64.nearest (105 # 10);
              low := Float64.nearest (99 # 10); close := Float64.nearest (102 # 10);
              volume := 500; amount := Float (Float64.nearest 20000) |}).
Proof. vm_compute. reflexivity. Qed.

(** ** C1 and C2: the stored prices *)

(** C1. In every row of a table returned for a file, of either kind, the
    stored prices, as rounded to two digits, satisfy
    low <= min(open, close) and max(open, close) <= high. *)
Theorem stored_prices_ordered utcoffset read print file_path df r :
  parse_dat_file utcoffset read print file_path = Ok df ->
  In r (rows df) ->
  Float64.leb (low (bar r)) (Float64.min (open (bar r)) (close (bar r))) = true /\
  Float64.leb (Float64.max (open (bar r)) (close (bar r))) (high (bar r)) = true.
Proof.
  intros Hparse Hin.
  apply (AssemblerFacts.materialized_prices utcoffset (_detect_data_type file_path)).
  eapply ParserFacts.rows_materialized; eassumption.
Qed.

Lemma stored_prices_ordered_witness :
  parse_dat_file Sample.cst (Sample.disk Sample.three_pairs) Sample.stdout
    Sample.daily_path =
    Ok Sample.three_pairs_frame /\
  In Sample.zero_low_row (rows Sample.three_pairs_frame) /\
  Float64.leb (low (bar Sample.zero_low_row))
    (Float64.min (open (bar Sample.zero_low_row))
       (close (bar Sample.zero_low_row))) = true /\
  Float64.leb
    (Float64.max (open (bar Sample.zero_low_row))
       (close (bar Sample.zero_low_row)))
    (high (bar Sample.zero_low_row)) = true.
Proof.
  assert (Hparse : parse_dat_file Sample.cst (Sample.disk Sample.three_pairs)
                     Sample.stdout Sample.daily_path = Ok Sample.three_pairs_frame)
    by (vm_compute; reflexivity).
  assert (Hin : In Sample.zero_low_row (rows Sample.three_pairs_frame))
    by (right; left; reflexivity).
  split; [exact Hparse |]. split; [exact Hin |].
  exact (stored_prices_ordered _ _ _ _ _ _ Hparse Hin).
Defined.

(** C2, as stated, fails. In the table of the three-pair sample file the
    pair with raw prices 10000, 10500, 0, 10200 passes every check and its
    stored low is 0.0; the pair with raw prices 4, 4, 4, 4 passes them too
    and its stored open, high and close are 0.0. None of these is strictly
    positive. *)
Lemma stored_prices_not_positive :
  parse_dat_file Sample.cst (Sample.disk Sample.three_pairs) Sample.stdout
    Sample.daily_path =
    Ok Sample.three_pairs_frame /\
  In Sample.zero_low_row (rows Sample.three_pairs_frame) /\
  Float64.ltb (Float64.of_int 0) (low (bar Sample.zero_low_row)) = false /\
  In Sample.sub_cent_row (rows Sample.three_pairs_frame) /\
  Float64.ltb (Float64.of_int 0) (open (bar Sample.sub_cent_row)) = false /\
  Float64.ltb (Float64.of_int 0) (high (bar Sample.sub_cent_row)) = false /\
  Float64.ltb (Float64.of_int 0) (close (bar Sample.sub_cent_row)) = false.
Proof.
  split; [vm_compute; reflexivity |].
  split; [right; left; reflexivity |].
  split; [vm_compute; reflexivity |].
  split; [left; reflexivity |].
  repeat split; vm_compute; reflexivity.
Qed.

(** A file with the zero-low pair alone: its one row has a low of 0.0. *)
Example zero_low_pair_alone :
  parse_dat_file Sample.cst (Sample.disk Sample.zero_low_pair) Sample.stdout
    Sample.daily_path =
    Ok Sample.zero_low_frame /\
  low (bar (Sample.row_at Sample.zero_low_frame 0)) = Float64.Fin 0.
Proof. split; vm_compute; reflexivity. Qed.

(** A pair whose high is below its low is never appended (10000, 9000,
    9900, 10200). *)
Example high_below_low_rejected :
  assemble Sample.cst false [0; 0; 1700000000; 10000; 9000; 9900; 10200; 0]
    Sample.volume_record = Ok None.
Proof. vm_compute. reflexivity. Qed.

(** All four stored prices of the pair with raw prices 4, 4, 4, 4 are
    0.0, and the percent change of the row after it is infinite. *)
Example sub_cent_prices_stored_as_zero :
  In Sample.sub_cent_row (rows Sample.three_pairs_frame) /\
  open (bar Sample.sub_cent_row) = Float64.Fin 0 /\
  high (bar Sample.sub_cent_row) = Float64.Fin 0 /\
  low (bar Sample.sub_cent_row) = Float64.Fin 0 /\
  close (bar Sample.sub_cent_row) = Float64.Fin 0 /\
  pct_change Sample.zero_low_row = Float64.Inf false.
Proof. split; [left; reflexivity | repeat split]. Qed.

(** C2, amended. In every row of a table returned for a file none of the
    four stored prices is negative. *)
Theorem stored_prices_nonnegative utcoffset read print file_path df r :
  parse_dat_file utcoffset read print file_path = Ok df ->
  In r (rows df) ->
  Float64.leb (Float64.of_int 0) (open (bar r)) = true /\
  Float64.leb (Float64.of_int 0) (high (bar r)) = true /\
  Float64.leb (Float64.of_int 0) (low (bar r)) = true /\
  Float64.leb (Float64.of_int 0) (close (bar r)) = true.
Proof.
  intros Hparse Hin.
  apply (AssemblerFacts.materialized_prices utcoffset (_detect_data_type file_path)).
  eapply ParserFacts.rows_materialized; eassumption.
Qed.

Lemma stored_prices_nonnegative_witness :
  parse_dat_file Sample.cst (Sample.disk Sample.three_pairs) Sample.stdout
    Sample.daily_path =
    Ok Sample.three_pairs_frame /\
  In Sample.sub_cent_row (rows Sample.three_pairs_frame) /\
  Float64.leb (Float64.of_int 0) (open (bar Sample.sub_cent_row)) = true /\
  Float64.leb (Float64.of_int 0) (high (bar Sample.sub_cent_row)) = true /\
  Float64.leb (Float64.of_int 0) (low (bar Sample.sub_cent_row)) = true /\
  Float64.leb (Float64.of_int 0) (close (bar Sample.sub_cent_row)) = true.
Proof.
  assert (Hparse : parse_dat_file Sample.cst (Sample.disk Sample.three_pairs)
                     Sample.stdout Sample.daily_path = Ok Sample.three_pairs_frame)
    by (vm_compute; reflexivity).
  assert (Hin : In Sample.sub_cent_row (rows Sample.three_pairs_frame))
    by (left; reflexivity).
  split; [exact Hparse |]. split; [exact Hin |].
  exact (stored_prices_nonnegative _ _ _ _ _ _ Hparse Hin).
Defined.

(** ** C3: scaling *)

(** C3. For an accepted pair the four prices are fields 3, 4, 5, 6 of the
    price record divided by 1000.0; for daily data the volume is field 0 of
    the volume record times 100 and the amount is field 2 as it is; for
    intraday data the volume is field 0 as it is and the amount is field 2
    divided by 100.0 exactly when it exceeds 1000000, field 2 as it is
    otherwise. The bar stores these values rounded to two digits. *)
Theorem accepted_pair_scaling utcoffset is_intraday p v b :
  assemble utcoffset is_intraday p v = Ok (Some b) ->
  exists s stamp,
    b = emit is_intraday stamp s /\
    open_price s = Float64.div (Float64.of_int (item p 3)) (Float64.Fin 1000) /\
    high_price s = Float64.div (Float64.of_int (item p 4)) (Float64.Fin 1000) /\
    low_price s = Float64.div (Float64.of_int (item p 5)) (Float64.Fin 1000) /\
    close_price s = Float64.div (Float64.of_int (item p 6)) (Float64.Fin 1000) /\
    (is_intraday = false ->
       scaled_volume s = item v 0 * 100 /\ scaled_amount s = Int (item v 2)) /\
    (is_intraday = true ->
       scaled_volume s = item v 0 /\
       (1000000 < item v 2 ->
          scaled_amount s =
          Float (Float64.div (Float64.of_int (item v 2)) (Float64.Fin 100))) /\
       (item v 2 <= 1000000 -> scaled_amount s = Int (item v 2))).
Proof.
  intros Hacc.
  destruct (AssemblerFacts.assemble_accepts _ _ _ _ _ Hacc)
    as [_ [_ [_ [_ [stamp [_ Hb]]]]]].
  exists (scale is_intraday p v), stamp.
  split; [exact Hb |].
  destruct (AssemblerFacts.scale_prices is_intraday p v) as [Ho [Hh [Hl Hc]]].
  repeat (split; [assumption |]).
  split.
  - intros ->. split; reflexivity.
  - intros ->. cbn [scale scaled_volume scaled_amount].
    split; [reflexivity |]. split; intros H.
    + apply Z.ltb_lt in H. rewrite H. reflexivity.
    + apply Z.ltb_ge in H. rewrite H. reflexivity.
Qed.

Lemma accepted_pair_scaling_witness :
  assemble Sample.cst true Sample.price_record Sample.intraday_volume_record =
    Ok (Some (emit true "2023-11-15 06:13:20"
                (scale true Sample.price_record Sample.intraday_volume_record))) /\
  exists s stamp,
    emit true "2023-11-15 06:13:20"
      (scale true Sample.price_record Sample.intraday_volume_record) =
    emit true stamp s /\
    open_price s = Float64.div (Float64.of_int 10000) (Float64.Fin 1000) /\
    high_price s = Float64.div (Float64.of_int 10500) (Float64.Fin 1000) /\
    low_price s = Float64.div (Float64.of_int 9900) (Float64.Fin 1000) /\
    close_price s = Float64.div (Float64.of_int 10200) (Float64.Fin 1000) /\
    (true = false -> scaled_volume s = 500 * 100 /\ scaled_amount s = Int 2000000) /\
    (true = true ->
       scaled_volume s = 500 /\
       (1000000 < 2000000 ->
          scaled_amount s =
          Float (Float64.div (Float64.of_int 2000000) (Float64.Fin 100))) /\
       (2000000 <= 1000000 -> scaled_amount s = Int 2000000)).
Proof.
  assert (Hacc : assemble Sample.cst true Sample.price_record
                   Sample.intraday_volume_record =
                 Ok (Some (emit true "2023-11-15 06:13:20"
                       (scale true Sample.price_record Sample.intraday_volume_record))))
    by (vm_compute; reflexivity).
  split; [exact Hacc |].
  exact (accepted_pair_scaling _ _ _ _ _ Hacc).
Defined.

(** ** C4 and C6: ordering and percent change *)

Lemma of_int_1 : Float64.of_int 1 = Float64.Fin 1.
Proof. vm_compute. reflexivity. Qed.

Lemma of_int_100 : Float64.of_int 100 = Float64.Fin 100.
Proof. vm_compute. reflexivity. Qed.

(** Dividing by a zero close gives an infinity or NaN, and so does the
    percent change computed from it. *)
Lemma zero_divisor_not_finite c previous :
  Float64.eqb previous (Float64.of_int 0) = true ->
  Float64.is_finite
    (Float64.mul (Float64.sub (Float64.div c previous) (Float64.of_int 1))
       (Float64.of_int 100)) = false.
Proof.
  rewrite of_int_1, of_int_100. change (Float64.of_int 0) with (Float64.Fin 0).
  destruct previous as [q | s |]; cbn [Float64.eqb]; try discriminate.
  intros Hq. apply Qeq_bool_iff in Hq.
  assert (Hc : Qcompare q 0 = Eq) by (apply Qeq_alt, Hq).
  destruct c as [x | s |]; cbn [Float64.div]; try reflexivity.
  rewrite Hc. destruct (Qcompare x 0); reflexivity.
Qed.

(** The percent-change column of a returned table is computed from its
    close column, in the order of its rows. *)
Lemma rows_pct_change utcoffset read print file_path df :
  parse_dat_file utcoffset read print file_path = Ok df ->
  map pct_change (rows df) =
  pct_change_100 (map close (map bar (rows df))).
Proof.
  intros Hparse.
  destruct (ParserFacts.parse_dat_file_inv _ _ _ _ _ Hparse)
    as [-> | [data [records [_ [_ [_ Hrows]]]]]]; [reflexivity |].
  rewrite Hrows.
  destruct (ParserFacts.built_rows (stem file_path) records) as [Hb Hp].
  rewrite Hb. exact Hp.
Qed.

(** C4. In a table returned for a file the first row has no percent change
    (NaN), and every later row has (close / previous close - 1) * 100, the
    previous close being the one of the row before it in the sorted table;
    when that close is zero the result is an infinity or NaN, not an
    error. *)
Theorem pct_change_law utcoffset read print file_path df :
  parse_dat_file utcoffset read print file_path = Ok df ->
  (forall r, nth_error (rows df) 0 = Some r -> pct_change r = Float64.NaN) /\
  (forall i r_prev r,
      nth_error (rows df) i = Some r_prev ->
      nth_error (rows df) (S i) = Some r ->
      pct_change r =
        Float64.mul
          (Float64.sub (Float64.div (close (bar r)) (close (bar r_prev)))
             (Float64.of_int 1))
          (Float64.of_int 100) /\
      (Float64.eqb (close (bar r_prev)) (Float64.of_int 0) = true ->
       Float64.is_finite (pct_change r) = false)).
Proof.
  intros Hparse. pose proof (rows_pct_change _ _ _ _ _ Hparse) as Hpct.
  split.
  - intros r Hr. destruct (rows df) as [| r0 rest]; [discriminate |].
    cbn in Hr. injection Hr as ->.
    cbn [map] in Hpct. unfold pct_change_100 in Hpct. cbn [ratios map] in Hpct.
    injection Hpct as Hhead _. rewrite Hhead.
    destruct (close (bar r)) as [x | s |]; reflexivity.
  - intros i r_prev r Hprev Hr.
    assert (Hlaw : pct_change r =
              Float64.mul
                (Float64.sub (Float64.div (close (bar r)) (close (bar r_prev)))
                   (Float64.of_int 1))
                (Float64.of_int 100)).
    { pose proof (map_nth_error pct_change _ _ Hr) as Hleft.
      rewrite Hpct in Hleft. unfold pct_change_100 in Hleft.
      assert (Hc0 : nth_error (map close (map bar (rows df))) i = Some (close (bar r_prev))).
      { rewrite map_map. apply (map_nth_error (fun x => close (bar x))), Hprev. }
      assert (Hc1 : nth_error (map close (map bar (rows df))) (S i) = Some (close (bar r))).
      { rewrite map_map. apply (map_nth_error (fun x => close (bar x))), Hr. }
      pose proof (SeriesFacts.ratios_step Float64.NaN _ _ _ _ Hc0 Hc1) as Hratio.
      apply (map_nth_error (fun x => Float64.mul x (Float64.of_int 100))) in Hratio.
      congruence. }
    split; [exact Hlaw |].
    intros Hzero. rewrite Hlaw. apply zero_divisor_not_finite, Hzero.
Qed.

Lemma pct_change_law_witness :
  parse_dat_file Sample.cst (Sample.disk Sample.three_pairs) Sample.stdout
    Sample.daily_path =
    Ok Sample.three_pairs_frame /\
  (forall r, nth_error (rows Sample.three_pairs_frame) 0 = Some r ->
             pct_change r = Float64.NaN) /\
  (forall i r_prev r,
      nth_error (rows Sample.three_pairs_frame) i = Some r_prev ->
      nth_error (rows Sample.three_pairs_frame) (S i) = Some r ->
      pct_change r =
        Float64.mul
          (Float64.sub (Float64.div (close (bar r)) (close (bar r_prev)))
             (Float64.of_int 1))
          (Float64.of_int 100) /\
      (Float64.eqb (close (bar r_prev)) (Float64.of_int 0) = true ->
       Float64.is_finite (pct_change r) = false)).
Proof.
  assert (Hparse : parse_dat_file Sample.cst (Sample.disk Sample.three_pairs)
                     Sample.stdout Sample.daily_path = Ok Sample.three_pairs_frame)
    by (vm_compute; reflexivity).
  split; [exact Hparse |].
  exact (pct_change_law _ _ _ _ _ Hparse).
Defined.

(** C6. The rows of a table returned for a file are in ascending order of
    the strings of their time column, each no later than the next, and the
    percent-change column is computed from the close column in that
    order. *)
Theorem rows_sorted_by_time utcoffset read print file_path df :
  parse_dat_file utcoffset read print file_path = Ok df ->
  Sorted time_le (rows df) /\
  map pct_change (rows df) = pct_change_100 (map close (map bar (rows df))).
Proof.
  intros Hparse. split; [| apply (rows_pct_change _ _ _ _ _ Hparse)].
  destruct (ParserFacts.parse_dat_file_inv _ _ _ _ _ Hparse)
    as [-> | [data [records [_ [_ [_ Hrows]]]]]]; [constructor |].
  apply SeriesFacts.sorted_rows. rewrite Hrows.
  rewrite (proj1 (ParserFacts.built_rows (stem file_path) records)).
  apply SeriesFacts.sort_values_sorted.
Qed.

Lemma rows_sorted_by_time_witness :
  parse_dat_file Sample.cst (Sample.disk Sample.three_pairs) Sample.stdout
    Sample.daily_path =
    Ok Sample.three_pairs_frame /\
  Sorted time_le (rows Sample.three_pairs_frame) /\
  map pct_change (rows Sample.three_pairs_frame) =
  pct_change_100 (map close (map bar (rows Sample.three_pairs_frame))).
Proof.
  assert (Hparse : parse_dat_file Sample.cst (Sample.disk Sample.three_pairs)
                     Sample.stdout Sample.daily_path = Ok Sample.three_pairs_frame)
    by (vm_compute; reflexivity).
  split; [exact Hparse |].
  exact (rows_sorted_by_time _ _ _ _ _ Hparse).
Defined.

(** ** C5 and C8: pairing and the tail of a file *)

Lemma rows_length utcoffset read print file_path df data :
  read file_path = Ok data ->
  parse_dat_file utcoffset read print file_path = Ok df ->
  (List.length (rows df) <= Nat.div (Nat.div (List.length data) record_size) 2)%nat.
Proof.
  intros Hread Hparse.
  destruct (ParserFacts.parse_dat_file_inv _ _ _ _ _ Hparse)
    as [-> | [data' [records [Hread' [Hloop [_ Hrows]]]]]]; [apply Nat.le_0_l |].
  assert (data' = data) by congruence. subst data'.
  destruct (SeriesFacts.for_pairs_appends _ _ _ _ _ _ Hloop) as [added [-> [_ Hlen]]].
  cbn [app] in Hrows.
  assert (Hl : List.length (rows df) = List.length added).
  { rewrite <- (length_map bar), Hrows,
      (proj1 (ParserFacts.built_rows (stem file_path) added)).
    apply ParserFacts.sort_values_length. }
  rewrite Hl. rewrite ParserFacts.range_by_2_pairs in Hlen.
  now rewrite length_map, length_seq in Hlen.
Qed.

Lemma parse_dat_file_prefix utcoffset read read' print file_path data m :
  read file_path = Ok data ->
  read' file_path = Ok (firstn m data) ->
  (2 * record_size * Nat.div (Nat.div (List.length data) record_size) 2 <= m)%nat ->
  parse_dat_file utcoffset read' print file_path =
  parse_dat_file utcoffset read print file_path.
Proof.
  intros Hr Hr' Hm. unfold parse_dat_file.
  now rewrite (ParserFacts.parse_body_prefix utcoffset read read' file_path data m).
Qed.

(** C5. Records are taken two at a time: a file of [2n] whole records gives
    at most [n] rows, and a file of [2n + 1] whole records gives what its
    first [2n] records give. *)
Theorem records_taken_in_pairs utcoffset read read' print file_path data n :
  read file_path = Ok data ->
  (Nat.div (List.length data) record_size = 2 * n ->
   forall df, parse_dat_file utcoffset read print file_path = Ok df ->
              List.length (rows df) <= n)%nat /\
  (Nat.div (List.length data) record_size = 2 * n + 1 ->
   read' file_path = Ok (firstn (2 * n * record_size) data) ->
   parse_dat_file utcoffset read print file_path =
   parse_dat_file utcoffset read' print file_path)%nat.
Proof.
  intros Hread. split.
  - intros Hcount df Hparse.
    pose proof (rows_length _ _ _ _ _ _ Hread Hparse) as H.
    rewrite Hcount in H. ParserFacts.div_lia.
  - intros Hcount Hread'. symmetry.
    apply (parse_dat_file_prefix utcoffset read read' print file_path data
             (2 * n * record_size) Hread Hread').
    rewrite Hcount. unfold record_size. ParserFacts.div_lia.
Qed.

Lemma records_taken_in_pairs_witness :
  Sample.disk (Sample.three_pairs ++ Sample.pack Sample.price_record)
    Sample.daily_path =
    Ok (Sample.three_pairs ++ Sample.pack Sample.price_record) /\
  (Nat.div (List.length (Sample.three_pairs ++ Sample.pack Sample.price_record))
     record_size = 2 * 3 + 1 ->
   Sample.disk Sample.three_pairs Sample.daily_path =
     Ok (firstn (2 * 3 * record_size)
           (Sample.three_pairs ++ Sample.pack Sample.price_record)) ->
   parse_dat_file Sample.cst
     (Sample.disk (Sample.three_pairs ++ Sample.pack Sample.price_record))
     Sample.stdout Sample.daily_path =
   parse_dat_file Sample.cst (Sample.disk Sample.three_pairs) Sample.stdout
     Sample.daily_path)%nat /\
  (List.length (rows Sample.three_pairs_frame) <= 3)%nat.
Proof.
  assert (Hread : Sample.disk (Sample.three_pairs ++ Sample.pack Sample.price_record)
                    Sample.daily_path =
                  Ok (Sample.three_pairs ++ Sample.pack Sample.price_record))
    by reflexivity.
  split; [exact Hread |]. split.
  - exact (proj2 (records_taken_in_pairs Sample.cst _
                    (Sample.disk Sample.three_pairs) Sample.stdout _ _ 3%nat Hread)).
  - apply (proj1 (records_taken_in_pairs Sample.cst (Sample.disk Sample.three_pairs)
                    (Sample.disk Sample.three_pairs) Sample.stdout Sample.daily_path
                    Sample.three_pairs 3%nat eq_refl)).
    + vm_compute. reflexivity.
    + vm_compute. reflexivity.
Defined.

(** C8. A file that ends in a partial record, after whole 32-byte records,
    gives the table of the file without the partial record, and that is a
    returned table, not an error. *)
Theorem partial_tail_ignored utcoffset read read' print file_path data tail :
  (Nat.modulo (List.length data) record_size = 0)%nat ->
  (List.length tail < record_size)%nat ->
  read file_path = Ok (data ++ tail) ->
  read' file_path = Ok data ->
  parse_dat_file utcoffset read print file_path =
  parse_dat_file utcoffset read' print file_path /\
  exists df, parse_dat_file utcoffset read print file_path = Ok df.
Proof.
  intros Haligned Htail Hread Hread'.
  split; [| exact (ReturnFacts.parse_dat_file_readable _ _ _ _ _ Hread)].
  symmetry.
  apply (parse_dat_file_prefix utcoffset read read' print file_path (data ++ tail)
           (List.length data) Hread).
  - rewrite firstn_app, Nat.sub_diag, firstn_all. cbn [firstn].
    now rewrite app_nil_r.
  - rewrite length_app. unfold record_size in *. ParserFacts.div_lia.
Qed.

Lemma partial_tail_ignored_witness :
  (Nat.modulo (List.length Sample.three_pairs) record_size = 0)%nat /\
  (List.length Sample.partial_record < record_size)%nat /\
  parse_dat_file Sample.cst
    (Sample.disk (Sample.three_pairs ++ Sample.partial_record))
    Sample.stdout Sample.daily_path =
  parse_dat_file Sample.cst (Sample.disk Sample.three_pairs) Sample.stdout
    Sample.daily_path /\
  exists df,
    parse_dat_file Sample.cst
      (Sample.disk (Sample.three_pairs ++ Sample.partial_record))
      Sample.stdout Sample.daily_path = Ok df.
Proof.
  assert (Haligned : (Nat.modulo (List.length Sample.three_pairs) record_size = 0)%nat)
    by (vm_compute; reflexivity).
  assert (Htail : (List.length Sample.partial_record < record_size)%nat)
    by (vm_compute; lia).
  split; [exact Haligned |]. split; [exact Htail |].
  exact (partial_tail_ignored Sample.cst
           (Sample.disk (Sample.three_pairs ++ Sample.partial_record))
           (Sample.disk Sample.three_pairs) Sample.stdout Sample.daily_path
           Sample.three_pairs Sample.partial_record
           Haligned Htail eq_refl eq_refl).
Defined.

(** ** C9: what leaves [parse_dat_file] *)

(** C9, as stated, fails. The handler of the outer [try] prints a message,
    outside any [try] of its own. On a standard output that cannot encode
    the message that [print] raises: the parse of a file that cannot be
    read then raises to its caller instead of returning a table, and the
    loop over the files of a directory stops there. *)
Lemma parse_dat_file_raises_from_handler :
  Sample.unreadable Sample.daily_path = Raise OSError /\
  Sample.ascii_stdout (ParseFailed Sample.daily_path OSError) =
    Raise UnicodeEncodeError /\
  parse_dat_file Sample.cst Sample.unreadable Sample.ascii_stdout
    Sample.daily_path = Raise UnicodeEncodeError /\
  ~ (exists df,
       parse_dat_file Sample.cst Sample.unreadable Sample.ascii_stdout
         Sample.daily_path = Ok df) /\
  parse_files Sample.cst Sample.unreadable Sample.ascii_stdout 2
    [Sample.daily_path; Sample.intraday_path] 1 [] 0 = Raise UnicodeEncodeError.
Proof.
  split; [reflexivity |]. split; [reflexivity |]. split; [reflexivity |].
  split; [| reflexivity].
  intros [df H]. discriminate H.
Qed.

(** C9, amended. [parse_dat_file] returns a table for every file that can
    be read, whatever is in it and whatever [print] does; for a file that
    cannot be read it returns the empty table once the message of its
    handler is printed, and what it raises, if anything, is what that
    [print] raised. The table is the empty one, with no rows, when the file
    holds no whole record and whenever no pair gives a bar. The loop over
    the files of a directory runs to its end when its messages can be
    printed. *)
Theorem parse_dat_file_returns utcoffset read print file_path :
  (forall data, read file_path = Ok data ->
     exists df, parse_dat_file utcoffset read print file_path = Ok df) /\
  ((forall e, print (ParseFailed file_path e) = Ok tt) ->
   exists df, parse_dat_file utcoffset read print file_path = Ok df) /\
  (forall e, read file_path = Raise e ->
             print (ParseFailed file_path e) = Ok tt ->
             parse_dat_file utcoffset read print file_path = Ok empty_frame) /\
  (forall e', parse_dat_file utcoffset read print file_path = Raise e' ->
              exists e, read file_path = Raise e /\
                        print (ParseFailed file_path e) = Raise e') /\
  (forall data, read file_path = Ok data ->
                (List.length data < record_size)%nat ->
                parse_dat_file utcoffset read print file_path = Ok empty_frame) /\
  (forall df, parse_dat_file utcoffset read print file_path = Ok df ->
              rows df = [] -> df = empty_frame) /\
  rows empty_frame = [] /\
  ((forall m, print m = Ok tt) ->
   forall files dat_files i all_data successful_count,
     exists result,
       parse_files utcoffset read print files dat_files i all_data
         successful_count = Ok result).
Proof.
  split; [apply ReturnFacts.parse_dat_file_readable |].
  split; [apply ReturnFacts.parse_dat_file_printing |].
  split.
  { intros e He Hp.
    rewrite (ReturnFacts.parse_dat_file_unreadable _ _ _ _ _ He), Hp.
    reflexivity. }
  split; [apply ReturnFacts.parse_dat_file_raises |].
  split.
  { intros data Hd Hlen. unfold parse_dat_file, parse_body. rewrite Hd.
    cbn [bind].
    replace (Nat.div (List.length data) record_size) with 0%nat
      by (symmetry; apply Nat.div_small, Hlen).
    reflexivity. }
  split.
  { intros df Hparse Hrows.
    destruct (ParserFacts.parse_dat_file_inv _ _ _ _ _ Hparse)
      as [-> | [data [records [_ [_ [Hne Hbuilt]]]]]]; [reflexivity |].
    exfalso. apply Hne.
    assert (Hl : List.length (sort_values records) = 0%nat).
    { rewrite <- (proj1 (ParserFacts.built_rows (stem file_path) records)),
        <- Hbuilt, Hrows. reflexivity. }
    rewrite ParserFacts.sort_values_length in Hl.
    now destruct records. }
  split; [reflexivity |].
  intros Hprint files dat_files i all_data successful_count.
  now apply ReturnFacts.parse_files_total.
Qed.

Lemma parse_dat_file_returns_witness :
  Sample.unreadable Sample.daily_path = Raise OSError /\
  Sample.stdout (ParseFailed Sample.daily_path OSError) = Ok tt /\
  parse_dat_file Sample.cst Sample.unreadable Sample.stdout Sample.daily_path =
    Ok empty_frame /\
  Sample.disk Sample.three_pairs Sample.daily_path = Ok Sample.three_pairs /\
  (exists df,
     parse_dat_file Sample.cst (Sample.disk Sample.three_pairs)
       Sample.ascii_stdout Sample.daily_path = Ok df) /\
  (forall m, Sample.stdout m = Ok tt) /\
  (exists result,
     parse_files Sample.cst Sample.unreadable Sample.stdout 2
       [Sample.daily_path; Sample.intraday_path] 1 [] 0 = Ok result).
Proof.
  assert (Hprint : forall m, Sample.stdout m = Ok tt) by reflexivity.
  split; [reflexivity |]. split; [reflexivity |].
  split.
  { exact (proj1 (proj2 (proj2 (parse_dat_file_returns Sample.cst
                                   Sample.unreadable Sample.stdout
                                   Sample.daily_path)))
             OSError eq_refl eq_refl). }
  split; [reflexivity |].
  split.
  { exact (proj1 (parse_dat_file_returns Sample.cst
                    (Sample.disk Sample.three_pairs) Sample.ascii_stdout
                    Sample.daily_path) Sample.three_pairs eq_refl). }
  split; [exact Hprint |].
  exact (proj2 (proj2 (proj2 (proj2 (proj2 (proj2 (proj2
           (parse_dat_file_returns Sample.cst Sample.unreadable Sample.stdout
              Sample.daily_path)))))))
           Hprint 2%nat [Sample.daily_path; Sample.intraday_path] 1%nat [] 0%nat).
Defined.

(** ** C10: raw prices of an accepted pair *)

(** C10. In every pair of decoded records that the assembler accepts, the
    raw open, high and close (fields 3, 4, 6 of the price record) are
    strictly positive; a pair with a zero raw low (field 5) can be
    accepted. *)
Theorem accepted_raw_prices :
  (forall utcoffset is_intraday price_data volume_data p v b,
      Struct.unpack_8I price_data = Ok p ->
      Struct.unpack_8I volume_data = Ok v ->
      assemble utcoffset is_intraday p v = Ok (Some b) ->
      0 < item p 3 /\ 0 < item p 4 /\ 0 < item p 6) /\
  (exists p v b,
      Struct.unpack_8I (Sample.pack Sample.zero_low_record) = Ok p /\
      Struct.unpack_8I (Sample.pack Sample.volume_record) = Ok v /\
      assemble Sample.cst false p v = Ok (Some b) /\
      item p 5 = 0).
Proof.
  split.
  - intros utcoffset is_intraday price_data volume_data p v b Hp _ Hacc.
    apply DecoderFacts.unpack_8I_ok in Hp. destruct Hp as [_ [Hlen Hu]].
    eapply AssemblerFacts.accepted_raw_positive; eassumption.
  - eexists _, _, _. split; [vm_compute; reflexivity |].
    split; [vm_compute; reflexivity |].
    split; [vm_compute; reflexivity | reflexivity].
Qed.

Lemma accepted_raw_prices_witness :
  Struct.unpack_8I (Sample.pack Sample.price_record) = Ok Sample.price_record /\
  Struct.unpack_8I (Sample.pack Sample.volume_record) = Ok Sample.volume_record /\
  assemble Sample.cst false Sample.price_record Sample.volume_record =
    Ok (Some Sample.scenario_bar) /\
  0 < item Sample.price_record 3 /\
  0 < item Sample.price_record 4 /\
  0 < item Sample.price_record 6.
Proof.
  assert (Hp : Struct.unpack_8I (Sample.pack Sample.price_record) =
               Ok Sample.price_record) by (vm_compute; reflexivity).
  assert (Hv : Struct.unpack_8I (Sample.pack Sample.volume_record) =
               Ok Sample.volume_record) by (vm_compute; reflexivity).
  assert (Hacc : assemble Sample.cst false Sample.price_record Sample.volume_record =
                 Ok (Some Sample.scenario_bar)) by (vm_compute; reflexivity).
  split; [exact Hp |]. split; [exact Hv |]. split; [exact Hacc |].
  exact (proj1 accepted_raw_prices Sample.cst false
           (Sample.pack Sample.price_record) (Sample.pack Sample.volume_record)
           _ _ _ Hp Hv Hacc).
Defined.

(** ** C7: the timestamp interpreter *)

(** C7, as stated, fails. [str] raises ValueError on an integer of more
    than 4300 digits. 10^4300 has 4301: it is outside the range of
    timestamps, the [str] in the [try] of [parse_date] raises, and so does
    the [str] of its handler, so the error reaches the caller. *)
Lemma parse_date_raises_on_huge_int :
  unix_timestamp (10 ^ 4300) = false /\
  str (10 ^ 4300) = Raise ValueError /\
  parse_date Sample.cst (10 ^ 4300) false = Raise ValueError /\
  parse_date Sample.cst (10 ^ 4300) true = Raise ValueError.
Proof.
  change (10 ^ 4300) with (10 ^ int_max_str_digits).
  split; [exact (TimestampFacts.huge_outside _ TimestampFacts.limit_is_huge) |].
  split; [exact (TimestampFacts.str_huge _ TimestampFacts.limit_is_huge) |].
  split; apply TimestampFacts.parse_date_huge, TimestampFacts.limit_is_huge.
Qed.

(** C7, amended. On an integer [n] of at most 4300 digits [parse_date]
    never raises. For [1500000000 < n < 2000000000] it returns the local
    date of [n], or the local date and time to the second when
    [include_time] is set, whenever the calendar conversion succeeds (it
    does when local time is within a day of UTC), and that string is not
    the decimal form of [n]. For every other such [n], and whenever the
    conversion fails, it returns the decimal form of [n]. On an integer of
    more than 4300 digits it raises the ValueError of [str]. *)
Theorem parse_date_spec utcoffset n include_time :
  (Z.abs n < 10 ^ int_max_str_digits ->
   (exists s, parse_date utcoffset n include_time = Ok s) /\
   (unix_timestamp n = true <-> 1500000000 < n < 2000000000) /\
   (forall dt,
       unix_timestamp n = true ->
       Calendar.fromtimestamp utcoffset n = Ok dt ->
       parse_date utcoffset n include_time =
         Ok (if include_time then Calendar.strftime_datetime dt
             else Calendar.strftime_date dt) /\
       parse_date utcoffset n include_time <> Ok (decimal n)) /\
   (unix_timestamp n = true -> - 86400 <= utcoffset n <= 86400 ->
    exists dt, Calendar.fromtimestamp utcoffset n = Ok dt) /\
   (unix_timestamp n = false ->
    parse_date utcoffset n include_time = Ok (decimal n)) /\
   (forall e, Calendar.fromtimestamp utcoffset n = Raise e ->
              parse_date utcoffset n include_time = Ok (decimal n))) /\
  (10 ^ int_max_str_digits <= Z.abs n ->
   parse_date utcoffset n include_time = Raise ValueError).
Proof.
  split; [| apply TimestampFacts.parse_date_huge].
  intros Hsmall.
  split; [now apply TimestampFacts.parse_date_total |].
  split; [apply TimestampFacts.unix_timestamp_iff |].
  split.
  { intros dt Hn Hdt.
    assert (Hres : parse_date utcoffset n include_time =
                   Ok (if include_time then Calendar.strftime_datetime dt
                       else Calendar.strftime_date dt)).
    { unfold parse_date. rewrite Hn, Hdt. cbn [bind try_except].
      destruct include_time; reflexivity. }
    split; [exact Hres |].
    rewrite Hres. intros H. injection H as H.
    exact (TimestampFacts.formatted_not_decimal dt include_time n H). }
  split; [apply TimestampFacts.fromtimestamp_in_range |].
  split.
  { intros Hn. rewrite (TimestampFacts.parse_date_outside _ _ _ Hn).
    now apply TimestampFacts.str_small. }
  intros e He. rewrite (TimestampFacts.parse_date_failure _ _ _ _ He).
  now apply TimestampFacts.str_small.
Qed.

Lemma parse_date_spec_witness :
  Z.abs 1700000000 < 10 ^ int_max_str_digits /\
  Z.abs 1500000000 < 10 ^ int_max_str_digits /\
  unix_timestamp 1700000000 = true /\
  - 86400 <= Sample.cst 1700000000 <= 86400 /\
  parse_date Sample.cst 1700000000 false = Ok "2023-11-15"%string /\
  parse_date Sample.cst 1700000000 true = Ok "2023-11-15 06:13:20"%string /\
  parse_date Sample.cst 1500000000 false = Ok "1500000000"%string /\
  parse_date Sample.before_calendar 1700000000 true = Ok "1700000000"%string /\
  10 ^ int_max_str_digits <= Z.abs (- 10 ^ 4300) /\
  parse_date Sample.cst (- 10 ^ 4300) false = Raise ValueError.
Proof.
  assert (Hs : Z.abs 1700000000 < 10 ^ int_max_str_digits)
    by (apply TimestampFacts.ten_digits; reflexivity).
  assert (Hs' : Z.abs 1500000000 < 10 ^ int_max_str_digits)
    by (apply TimestampFacts.ten_digits; reflexivity).
  assert (Hn : unix_timestamp 1700000000 = true) by reflexivity.
  assert (Hoff : - 86400 <= Sample.cst 1700000000 <= 86400)
    by (unfold Sample.cst; lia).
  assert (Hhuge : 10 ^ int_max_str_digits <= Z.abs (- 10 ^ 4300))
    by exact TimestampFacts.opposite_limit_is_huge.
  split; [exact Hs |]. split; [exact Hs' |].
  split; [exact Hn |]. split; [exact Hoff |].
  destruct (proj1 (parse_date_spec Sample.cst 1700000000 false) Hs)
    as [_ [_ [Hdate _]]].
  destruct (proj1 (parse_date_spec Sample.cst 1700000000 true) Hs)
    as [_ [_ [Htime _]]].
  destruct (proj1 (parse_date_spec Sample.cst 1500000000 false) Hs')
    as [_ [_ [_ [_ [Hout _]]]]].
  destruct (proj1 (parse_date_spec Sample.before_calendar 1700000000 true) Hs)
    as [_ [_ [_ [_ [_ Hfail]]]]].
  split; [exact (proj1 (Hdate _ Hn eq_refl)) |].
  split; [exact (proj1 (Htime _ Hn eq_refl)) |].
  split; [exact (Hout eq_refl) |].
  split; [exact (Hfail ValueError eq_refl) |].
  split; [exact Hhuge |].
  exact (proj2 (parse_date_spec Sample.cst (- 10 ^ 4300) false) Hhuge).
Defined.

(** ** Exact results and strict order of rounding *)

Module Float64Exact.

Import Float64 Float64Facts.
Local Open Scope Q_scope.

Lemma rne_comp a b : a == b -> rne a = rne b.
Proof.
  intros H. unfold rne. rewrite (Qfloor_comp _ _ H).
  assert (E : a - inject_Z (Qfloor b) == b - inject_Z (Qfloor b)) by (rewrite H; reflexivity).
  rewrite E. reflexivity.
Qed.

(** A multiple of a power of two with at most 53 significant bits is a
    binary64 number: rounding leaves it as it is. *)
Lemma round_mag_exact m e :
  (0 < m < 2 ^ 53)%Z -> (- 1074 <= e)%Z ->
  round_mag (inject_Z m * pow2 e) == inject_Z m * pow2 e.
Proof.
  intros Hm He. set (q := inject_Z m * pow2 e).
  assert (Hq : 0 < q).
  { unfold q. apply Qmult_lt_0_compat; [| apply pow2_pos].
    change 0 with (inject_Z 0). rewrite <- Zlt_Qlt. lia. }
  destruct (ilog2_spec q Hq) as [L _].
  assert (Hup : q < pow2 (53 + e)).
  { unfold q. rewrite pow2_add. apply Qmult_lt_r; [apply pow2_pos |].
    rewrite <- (pow2_Z 53) by lia. rewrite <- Zlt_Qlt. lia. }
  assert (Hlog : (ilog2 q < 53 + e)%Z).
  { destruct (Z_lt_le_dec (ilog2 q) (53 + e)) as [H | H]; [exact H | exfalso].
    pose proof (pow2_le _ _ H). lra. }
  assert (Hf : (fexp q <= e)%Z) by (unfold fexp; lia).
  unfold round_mag. set (f := fexp q) in *.
  assert (Hint : q / pow2 f == inject_Z (m * 2 ^ (e - f))).
  { unfold q. rewrite inject_Z_mult, pow2_Z by lia.
    replace e with ((e - f) + f)%Z at 1 by lia. rewrite pow2_add.
    field. apply Qnot_eq_sym, Qlt_not_eq, pow2_pos. }
  rewrite (rne_comp _ _ Hint), rne_Z.
  rewrite inject_Z_mult, pow2_Z by lia.
  unfold q. replace e with ((e - f) + f)%Z at 2 by lia. rewrite pow2_add. ring.
Qed.

Lemma nearest_exact m e :
  (0 < m < 2 ^ 53)%Z -> (- 1074 <= e <= 970)%Z ->
  exists r, nearest (inject_Z m * pow2 e) = Fin r /\ r == inject_Z m * pow2 e.
Proof.
  intros Hm He. set (q := inject_Z m * pow2 e).
  assert (Hq : 0 < q).
  { unfold q. apply Qmult_lt_0_compat; [| apply pow2_pos].
    change 0 with (inject_Z 0). rewrite <- Zlt_Qlt. lia. }
  unfold nearest. destruct (Qcompare_spec q 0) as [H | H | H]; try (exfalso; lra).
  pose proof (round_mag_exact m e Hm (proj1 He)) as Hr. fold q in Hr.
  unfold overflow.
  assert (Hlt : q < pow2 1024).
  { apply Qlt_le_trans with (pow2 (53 + e)); [| apply pow2_le; lia].
    unfold q. rewrite pow2_add. apply Qmult_lt_r; [apply pow2_pos |].
    rewrite <- (pow2_Z 53) by lia. rewrite <- Zlt_Qlt. lia. }
  destruct (Qle_bool (pow2 1024) (round_mag q)) eqn:E.
  - apply Qle_bool_iff in E. exfalso. lra.
  - eexists. split; [reflexivity |]. rewrite Qred_correct. exact Hr.
Qed.

(** Two exact results with binary64 numbers between them are rounded to
    different numbers, in their order. *)
Lemma nearest_strict q1 q2 a b a' b' :
  nearest a = Fin a' -> a' == a -> nearest b = Fin b' -> b' == b ->
  q1 <= a -> a < b -> b <= q2 ->
  ltb (nearest q1) (nearest q2) = true.
Proof.
  intros Ha Ea Hb Eb H1 Hab H2.
  pose proof (nearest_mono _ _ H1) as L. pose proof (nearest_mono _ _ H2) as U.
  rewrite Ha in L. rewrite Hb in U.
  destruct (nearest q1) as [x | [] |], (nearest q2) as [y | [] |];
    cbn [leb ltb] in *; try discriminate; try reflexivity.
  apply Qle_bool_iff in L, U. apply negb_true_iff.
  destruct (Qle_bool y x) eqn:E; [| reflexivity].
  apply Qle_bool_iff in E. exfalso. lra.
Qed.

End Float64Exact.

Module Float64Grid.

Import Float64 Float64Facts Float64Exact.
Local Open Scope Q_scope.

Lemma ilog2_unique q k :
  0 < q -> pow2 k <= q -> q < pow2 (k + 1) -> ilog2 q = k.
Proof.
  intros Hq L U. destruct (ilog2_spec q Hq) as [L' U'].
  destruct (Z.lt_trichotomy (ilog2 q) k) as [H | [H | H]]; [exfalso | exact H | exfalso].
  - assert (pow2 (ilog2 q + 1) <= pow2 k) by (apply pow2_le; lia). lra.
  - assert (pow2 (k + 1) <= pow2 (ilog2 q)) by (apply pow2_le; lia). lra.
Qed.

Lemma ilog2_comp a b : 0 < a -> a == b -> ilog2 a = ilog2 b.
Proof.
  intros Ha E. assert (Hb : 0 < b) by (rewrite <- E; exact Ha).
  destruct (ilog2_spec b Hb) as [L U].
  apply ilog2_unique; [exact Ha | rewrite E; exact L | rewrite E; exact U].
Qed.

Lemma round_mag_comp a b : 0 < a -> a == b -> round_mag a == round_mag b.
Proof.
  intros Ha E. unfold round_mag, fexp. rewrite (ilog2_comp a b Ha E).
  assert (E' : a / pow2 (Z.max (ilog2 b - 52) (-1074)) ==
               b / pow2 (Z.max (ilog2 b - 52) (-1074))) by (rewrite E; reflexivity).
  rewrite (rne_comp _ _ E'). reflexivity.
Qed.

Lemma overflow_comp s a b : a == b -> overflow s a = overflow s b.
Proof.
  intros E. unfold overflow. rewrite E.
  destruct (Qle_bool (pow2 1024) b); [reflexivity |].
  f_equal. apply Qred_complete. destruct s; rewrite E; reflexivity.
Qed.

(** Rounding depends on the value of the exact result only, not on the
    fraction that denotes it. *)
Lemma nearest_comp a b : a == b -> nearest a = nearest b.
Proof.
  intros E. unfold nearest. rewrite E.
  destruct (Qcompare_spec b 0) as [H | H | H].
  - reflexivity.
  - apply overflow_comp, round_mag_comp; [| rewrite E; reflexivity]. lra.
  - apply overflow_comp, round_mag_comp; [lra | exact E].
Qed.

(** A multiple of 2^-11 below 2^42 is a binary64 number. *)
Lemma nearest_grid n :
  (0 <= n < 2 ^ 53)%Z ->
  exists r, nearest (inject_Z n / 2048) = Fin r /\ r == inject_Z n / 2048.
Proof.
  intros Hn. destruct (Z.eq_dec n 0) as [-> | N].
  - exists 0. split; reflexivity.
  - destruct (nearest_exact n (-11)) as [r [Hr Er]]; [lia | lia |].
    exists r. split.
    + rewrite <- Hr. apply nearest_comp. unfold pow2. cbn. field.
    + rewrite Er. unfold pow2. cbn. field.
Qed.

(** Rounding a non-negative exact result below 2^40 moves it by no more
    than 2^-11: it stays between the multiples of 2^-11 around it. *)
Lemma nearest_bracket q :
  0 <= q -> q < 1099511627776 ->
  exists r, nearest q = Fin r /\
            inject_Z (Qfloor (q * 2048)) / 2048 <= r /\
            r <= inject_Z (Qfloor (q * 2048) + 1) / 2048.
Proof.
  intros H0 H1. set (n := Qfloor (q * 2048)).
  pose proof (Qfloor_le (q * 2048)) as Fl. pose proof (Qlt_floor (q * 2048)) as Fu.
  fold n in Fl, Fu.
  assert (Hn0 : (0 <= n)%Z).
  { unfold n. change 0%Z with (Qfloor 0). apply Qfloor_resp_le. lra. }
  assert (Hn1 : (n < 2 ^ 52)%Z).
  { rewrite Zlt_Qlt. eapply Qle_lt_trans; [exact Fl |].
    change (inject_Z (2 ^ 52)) with (4503599627370496 # 1). lra. }
  destruct (nearest_grid n) as [a [Ha Ea]]; [lia |].
  destruct (nearest_grid (n + 1)) as [b [Hb Eb]]; [lia |].
  assert (La : inject_Z n / 2048 <= q) by (apply Qle_shift_div_r; [reflexivity | exact Fl]).
  assert (Lb : q <= inject_Z (n + 1) / 2048).
  { apply Qle_shift_div_l; [reflexivity | apply Qlt_le_weak, Fu]. }
  pose proof (nearest_mono _ _ La) as L. pose proof (nearest_mono _ _ Lb) as U.
  rewrite Ha in L. rewrite Hb in U.
  destruct (nearest q) as [r | [] |]; cbn [leb] in L, U; try discriminate.
  apply Qle_bool_iff in L, U. exists r. split; [reflexivity |].
  split; [rewrite <- Ea; exact L | rewrite <- Eb; exact U].
Qed.

(** A number within half a unit of an integer rounds to that integer. *)
Lemma rne_near y k :
  inject_Z k - (1 # 2) < y -> y < inject_Z k + (1 # 2) -> rne y = k.
Proof.
  intros L U. unfold rne.
  pose proof (Qfloor_le y) as Fl. pose proof (Qlt_floor y) as Fu.
  set (f := Qfloor y) in *. clearbody f.
  rewrite inject_Z_plus in Fu. change (inject_Z 1) with 1 in Fu.
  assert (A : inject_Z f < inject_Z (k + 1)).
  { rewrite inject_Z_plus. change (inject_Z 1) with 1. lra. }
  assert (B : inject_Z k < inject_Z (f + 2)).
  { rewrite inject_Z_plus. change (inject_Z 2) with 2. lra. }
  rewrite <- Zlt_Qlt in A, B.
  assert (Hf : (f = k \/ f + 1 = k)%Z) by lia.
  destruct Hf as [E | E].
  - rewrite E in *.
    destruct (Qcompare_spec (y - inject_Z k) (1 # 2)) as [H | H | H];
      [exfalso; lra | reflexivity | exfalso; lra].
  - assert (Ek : inject_Z k == inject_Z f + 1).
    { rewrite <- E, inject_Z_plus. reflexivity. }
    destruct (Qcompare_spec (y - inject_Z f) (1 # 2)) as [H | H | H];
      [exfalso; lra | exfalso; lra | exact E].
Qed.

End Float64Grid.

(** ** Quotients of decoded fields *)

Module QuotientFacts.

Import Float64 Float64Facts Float64Exact Float64Grid Struct.
Local Open Scope Q_scope.

(** An unsigned 32-bit integer converts to binary64 without change. *)
Lemma of_int_exact x : u32 x -> exists r, of_int x = Fin r /\ r == inject_Z x.
Proof.
  intros [H0 H1]. unfold of_int. destruct (Z.eq_dec x 0) as [-> | N].
  - exists 0. split; reflexivity.
  - destruct (nearest_exact x 0) as [r [Hr Er]]; [lia | lia |].
    exists r. split.
    + rewrite <- Hr. apply nearest_comp. unfold pow2. cbn. ring.
    + rewrite Er. unfold pow2. cbn. ring.
Qed.

(** [x / d] on an unsigned 32-bit [x] and a float [d >= 1] is the exact
    quotient, rounded once. *)
Lemma quotient_value x d :
  u32 x -> 1 <= d -> div (of_int x) (Fin d) = nearest (inject_Z x / d).
Proof.
  intros Hx Hd. destruct (of_int_exact x Hx) as [r [-> Er]].
  unfold div. destruct (Qcompare_spec d 0) as [H | H | H]; try (exfalso; lra).
  apply nearest_comp. rewrite Er. reflexivity.
Qed.

Lemma quotient_range x d :
  u32 x -> 1 <= d -> 0 <= inject_Z x / d /\ inject_Z x / d < 1099511627776.
Proof.
  intros [H0 H1] Hd.
  assert (X0 : 0 <= inject_Z x) by (change 0 with (inject_Z 0); rewrite <- Zle_Qle; lia).
  assert (X1 : inject_Z x < 4294967296).
  { change 4294967296 with (inject_Z 4294967296). rewrite <- Zlt_Qlt. lia. }
  split.
  - apply Qle_shift_div_l; lra.
  - apply Qlt_shift_div_r; [lra |].
    apply Qlt_le_trans with (1099511627776 * 1); [lra |].
    apply Qmult_le_l; [reflexivity | exact Hd].
Qed.

(** The quotient lies between the multiples of 2^-11 around its exact
    value. *)
Lemma quotient_bracket x d :
  u32 x -> 1 <= d ->
  exists r, div (of_int x) (Fin d) = Fin r /\
            inject_Z (Qfloor (inject_Z x / d * 2048)) / 2048 <= r /\
            r <= inject_Z (Qfloor (inject_Z x / d * 2048) + 1) / 2048.
Proof.
  intros Hx Hd. rewrite (quotient_value x d Hx Hd).
  destruct (quotient_range x d Hx Hd) as [Q0 Q1].
  apply nearest_bracket; assumption.
Qed.

(** Different raw prices give different scaled prices, in the same order:
    comparing [x / 1000.0] and [y / 1000.0] is comparing [x] and [y]. *)
Lemma thousandth_ltb x y :
  u32 x -> u32 y ->
  ltb (div (of_int x) (Fin 1000)) (div (of_int y) (Fin 1000)) = (x <? y)%Z.
Proof.
  intros Hx Hy.
  assert (H1000 : 1 <= 1000) by discriminate.
  destruct (quotient_bracket x 1000 Hx H1000) as [rx [Ex [Lx Ux]]].
  destruct (quotient_bracket y 1000 Hy H1000) as [ry [Ey [Ly Uy]]].
  rewrite Ex, Ey. cbn [ltb].
  destruct (Z.ltb_spec x y) as [H | H].
  - apply negb_true_iff. destruct (Qle_bool ry rx) eqn:E; [| reflexivity].
    apply Qle_bool_iff in E. exfalso.
    set (nx := Qfloor (inject_Z x / 1000 * 2048)) in *.
    set (ny := Qfloor (inject_Z y / 1000 * 2048)) in *.
    assert (Hn : (nx + 1 < ny)%Z).
    { assert (A : inject_Z nx <= inject_Z x / 1000 * 2048) by apply Qfloor_le.
      assert (B : inject_Z y / 1000 * 2048 < inject_Z (ny + 1)) by apply Qlt_floor.
      rewrite inject_Z_plus in B. change (inject_Z 1) with 1 in B.
      assert (C : inject_Z x + 1 <= inject_Z y).
      { change 1 with (inject_Z 1). rewrite <- inject_Z_plus, <- Zle_Qle. lia. }
      assert (D : inject_Z nx + 1 < inject_Z ny).
      { clearbody nx ny.
        assert (Dx : inject_Z x / 1000 * 1000 == inject_Z x) by (field; discriminate).
        assert (Dy : inject_Z y / 1000 * 1000 == inject_Z y) by (field; discriminate).
        generalize dependent (inject_Z x / 1000). generalize dependent (inject_Z y / 1000).
        intros. lra. }
      change 1 with (inject_Z 1) in D. rewrite <- inject_Z_plus, <- Zlt_Qlt in D.
      exact D. }
    assert (Hq : inject_Z (nx + 1) / 2048 < inject_Z ny / 2048).
    { apply Qmult_lt_r; [reflexivity |]. rewrite <- Zlt_Qlt. exact Hn. }
    clearbody nx ny. lra.
  - apply negb_false_iff, Qle_bool_iff.
    assert (Hle : inject_Z y / 1000 <= inject_Z x / 1000).
    { apply Qmult_le_r; [reflexivity |]. rewrite <- Zle_Qle. exact H. }
    pose proof (nearest_mono _ _ Hle) as M.
    rewrite <- !quotient_value in M by assumption.
    rewrite Ex, Ey in M. cbn [leb] in M. apply Qle_bool_iff. exact M.
Qed.

End QuotientFacts.

(** ** The checks of the assembler, on the raw integers *)

Module RawFacts.

Import Py DATParser Float64 Float64Facts Float64Grid QuotientFacts Struct
       DecoderFacts AssemblerFacts.

(** The second quality check compares the raw prices. *)
Lemma inconsistent_raw is_intraday p v :
  Forall u32 p ->
  inconsistent (scale is_intraday p v) =
  negb ((item p 5 <=? item p 3) && (item p 3 <=? item p 4) &&
        (item p 5 <=? item p 6) && (item p 6 <=? item p 4)).
Proof.
  intros Hp.
  destruct (scale_prices is_intraday p v) as [Eo [Eh [El Ec]]].
  cbv zeta in Eo, Eh, El, Ec.
  unfold inconsistent. rewrite Eo, Eh, El, Ec.
  pose proof (item_u32 p 3 Hp) as U3. pose proof (item_u32 p 4 Hp) as U4.
  pose proof (item_u32 p 5 Hp) as U5. pose proof (item_u32 p 6 Hp) as U6.
  unfold max, min. rewrite !thousandth_ltb by assumption.
  destruct (Z.ltb_spec (item p 3) (item p 6));
    destruct (Z.ltb_spec (item p 6) (item p 3));
    rewrite !thousandth_ltb by assumption;
    repeat match goal with
           | |- context [(?a <? ?b)%Z] => destruct (Z.ltb_spec a b)
           | |- context [(?a <=? ?b)%Z] => destruct (Z.leb_spec a b)
           end; cbn; try reflexivity; exfalso; lia.
Qed.

(** With three plausible raw prices the first quality check finds neither
    four zeros nor a negative price. *)
Lemma plausible_not_zero_or_negative is_intraday p v :
  Forall u32 p -> List.length p = 8%nat ->
  plausible is_intraday p = true ->
  zero_or_negative (scale is_intraday p v) = false.
Proof.
  intros Hp Hlen Hpl.
  destruct (scale_prices is_intraday p v) as [Eo [Eh [El Ec]]].
  cbv zeta in Eo, Eh, El, Ec.
  destruct (thousandth_u32 _ (item_u32 p 3 Hp)) as [o [Ho [O0 [Op _]]]].
  destruct (thousandth_u32 _ (item_u32 p 4 Hp)) as [h [Hh [H0 [Hpos _]]]].
  destruct (thousandth_u32 _ (item_u32 p 5 Hp)) as [l [Hl [L0 [Lp _]]]].
  destruct (thousandth_u32 _ (item_u32 p 6 Hp)) as [c [Hc [C0 [Cp _]]]].
  unfold zero_or_negative, prices. rewrite Eo, Eh, El, Ec, Ho, Hh, Hl, Hc.
  change (of_int 0) with (Fin 0). cbn [forallb existsb eqb ltb].
  assert (Hneg : forall q, (0 <= q)%Q -> negb (Qle_bool 0 q) = false).
  { intros q Hq. apply negb_false_iff, Qle_bool_iff, Hq. }
  rewrite !Hneg by assumption. cbn [orb]. rewrite orb_false_r.
  assert (Hzero : forall q, (0 < q)%Q -> Qeq_bool q 0 = false).
  { intros q Hq. destruct (Qeq_bool q 0) eqn:E; [| reflexivity].
    apply Qeq_bool_iff in E. exfalso. lra. }
  pose proof (item_u32 p 3 Hp) as U3. pose proof (item_u32 p 4 Hp) as U4.
  pose proof (item_u32 p 5 Hp) as U5. pose proof (item_u32 p 6 Hp) as U6.
  destruct p as [| a0 [| a1 [| a2 [| a3 [| a4 [| a5 [| a6 [| a7 [| ? ?]]]]]]]]];
    try discriminate Hlen.
  unfold item in *. cbn [nth] in *.
  destruct (Z.eq_dec a3 0) as [E3 | N3].
  - destruct (Z.eq_dec a5 0) as [E5 | N5].
    + exfalso. exact (proj1 (plausible_zeros _ _ _ _ _ _ _ _ _ Hpl) E3 E5).
    + rewrite (Hzero l) by (apply Lp; unfold u32 in U5; lia).
      rewrite !andb_false_r. reflexivity.
  - rewrite (Hzero o) by (apply Op; unfold u32 in U3; lia). reflexivity.
Qed.

End RawFacts.

(** ** What rounding to two digits stores *)

Module StoredFacts.

Import Float64 Float64Facts Float64Grid QuotientFacts Struct.
Local Open Scope Q_scope.

(** Linear arithmetic with quotients by constants. *)
Ltac q_lra :=
  unfold Qdiv in *;
  repeat match goal with
         | |- context [/ (Zpos ?n # 1)] => change (/ (Zpos n # 1)) with (1 # n)
         | H : context [/ (Zpos ?n # 1)] |- _ =>
             change (/ (Zpos n # 1)) with (1 # n) in H
         end;
  lra.

(** [round(x / 100.0, 2)] is [x / 100.0]: a quotient by 100 has no third
    decimal to round away. *)
Lemma round2_hundredth x :
  u32 x -> round2 (div (of_int x) (Fin 100)) = div (of_int x) (Fin 100).
Proof.
  intros Hx. assert (H100 : 1 <= 100) by discriminate.
  destruct (quotient_bracket x 100 Hx H100) as [r [Er [L U]]].
  rewrite Er at 1. cbn [round2]. rewrite (quotient_value x 100 Hx H100).
  assert (Hr : rne (r * 100) = x).
  { assert (A : inject_Z (Qfloor (inject_Z x / 100 * 2048)) <= inject_Z x / 100 * 2048)
      by apply Qfloor_le.
    assert (B : inject_Z x / 100 * 2048 <
                inject_Z (Qfloor (inject_Z x / 100 * 2048) + 1)) by apply Qlt_floor.
    rewrite inject_Z_plus in B, U. change (inject_Z 1) with 1 in B, U.
    apply rne_near; q_lra. }
  rewrite Hr. reflexivity.
Qed.

(** [round(x / 1000.0, 2)] is the price in whole cents, [x] rounded to the
    nearest ten, as long as [x] does not end in 5. *)
Lemma round2_thousandth x :
  u32 x -> (x mod 10 <> 5)%Z ->
  round2 (div (of_int x) (Fin 1000)) = nearest (inject_Z ((x + 5) / 10) / 100).
Proof.
  intros Hx Hd. assert (H1000 : 1 <= 1000) by discriminate.
  destruct (quotient_bracket x 1000 Hx H1000) as [r [Er [L U]]].
  rewrite Er. cbn [round2].
  assert (Hr : rne (r * 100) = ((x + 5) / 10)%Z).
  { assert (A : inject_Z (Qfloor (inject_Z x / 1000 * 2048)) <= inject_Z x / 1000 * 2048)
      by apply Qfloor_le.
    assert (B : inject_Z x / 1000 * 2048 <
                inject_Z (Qfloor (inject_Z x / 1000 * 2048) + 1)) by apply Qlt_floor.
    rewrite inject_Z_plus in B, U. change (inject_Z 1) with 1 in B, U.
    set (k := ((x + 5) / 10)%Z).
    assert (Hk : (10 * k <= x + 4 /\ x <= 10 * k + 4)%Z).
    { unfold k. Z.to_euclidean_division_equations. lia. }
    destruct Hk as [K0 K1]. rewrite Zle_Qle in K0, K1.
    rewrite inject_Z_plus, inject_Z_mult in K0, K1.
    change (inject_Z 10) with 10 in K0, K1. change (inject_Z 4) with 4 in K0, K1.
    clearbody k. apply rne_near; q_lra. }
  rewrite Hr. reflexivity.
Qed.

End StoredFacts.

(** ** The loop takes every pair *)

Module LoopFacts.

Import Py DATParser Pairing SeriesFacts ParserFacts.

Lemma slice_length {A : Type} (l : list A) a b :
  (b <= List.length l)%nat -> List.length (slice l a b) = (b - a)%nat.
Proof.
  intros H. unfold slice. rewrite length_firstn, length_skipn. lia.
Qed.

(** On a pair of whole records the body of the loop neither breaks nor
    meets [struct.error]: it goes on, with the accepted bar appended. *)
Lemma pair_at_whole utcoffset is_intraday data i records :
  ((i + 2) * record_size <= List.length data)%nat ->
  (exists r, bar_at utcoffset is_intraday data i = Ok r) /\
  pair_at utcoffset is_intraday data i records =
  Ok (Next, records ++ accepted_at utcoffset is_intraday data i).
Proof.
  intros H. unfold pair_at, accepted_at, bar_at. unfold record_size in *.
  set (pd := slice data (i * 32) (i * 32 + 32)).
  set (vd := slice data ((i + 1) * 32) ((i + 1) * 32 + 32)).
  assert (Hp : List.length pd = 32%nat) by (unfold pd; rewrite slice_length; lia).
  assert (Hv : List.length vd = 32%nat) by (unfold vd; rewrite slice_length; lia).
  rewrite Hp, Hv. cbn [Nat.ltb Nat.leb orb].
  unfold Struct.unpack_8I. rewrite Hp, Hv. cbn [Nat.eqb bind].
  destruct (ReturnFacts.assemble_total utcoffset is_intraday
              (Struct.fields 8 pd) (Struct.fields 8 vd)) as [r Hr].
  rewrite Hr. cbn [bind try_except].
  split; [eexists; reflexivity |].
  destruct r as [b |]; [reflexivity | now rewrite app_nil_r].
Qed.

Lemma for_pairs_whole utcoffset is_intraday data indices records :
  (forall i, In i indices -> ((i + 2) * record_size <= List.length data)%nat) ->
  for_pairs utcoffset is_intraday data indices records =
  Ok (records ++ flat_map (accepted_at utcoffset is_intraday data) indices).
Proof.
  revert records. induction indices as [| i rest IH]; intros records H;
    cbn [for_pairs flat_map].
  - now rewrite app_nil_r.
  - rewrite (proj2 (pair_at_whole utcoffset is_intraday data i records
                      (H i (or_introl eq_refl)))).
    cbn [bind]. rewrite IH by (intros j Hj; apply H; right; exact Hj).
    now rewrite <- app_assoc.
Qed.

Lemma range_whole (data : list byte) i :
  In i (range_by_2 (Nat.div (List.length data) record_size - 1)) ->
  ((i + 2) * record_size <= List.length data)%nat.
Proof.
  intros Hi. apply range_by_2_In in Hi. unfold record_size in *. div_lia.
Qed.

Lemma for_pairs_range utcoffset is_intraday (data : list byte) :
  for_pairs utcoffset is_intraday data
    (range_by_2 (Nat.div (List.length data) record_size - 1)) [] =
  Ok (flat_map (accepted_at utcoffset is_intraday data)
        (range_by_2 (Nat.div (List.length data) record_size - 1))).
Proof.
  apply (for_pairs_whole utcoffset is_intraday data _ []). apply range_whole.
Qed.

(** The bars of a returned table are the accepted bars of the file. *)
Lemma rows_accepted utcoffset read print file_path data df :
  read file_path = Ok data ->
  parse_dat_file utcoffset read print file_path = Ok df ->
  Permutation (map bar (rows df)) (accepted_bars utcoffset file_path data).
Proof.
  intros Hread. unfold parse_dat_file, try_except, parse_body, accepted_bars.
  rewrite Hread. cbn [bind].
  destruct (Nat.eqb_spec (Nat.div (List.length data) record_size) 0) as [E | N].
  - intros H. injection H as <-. rewrite E. reflexivity.
  - rewrite for_pairs_range. cbn [bind].
    destruct (flat_map _ _) as [| b rest] eqn:Hacc.
    + intros H. injection H as <-. reflexivity.
    + intros H. injection H as <-. cbn [rows].
      rewrite (proj1 (built_rows (stem file_path) (b :: rest))).
      apply sort_values_perm.
Qed.

End LoopFacts.

(** ** Paths: the kind of data and the instrument code *)

Module PathFacts.

Import Py DATParser Directory.
Local Open Scope string_scope.

Lemma append_assoc (a b c : string) : (a ++ b) ++ c = a ++ b ++ c.
Proof. induction a as [| x a IH]; cbn; [reflexivity | now rewrite IH]. Qed.

Lemma append_nil_r (a : string) : a ++ "" = a.
Proof. induction a as [| x a IH]; cbn; [reflexivity | now rewrite IH]. Qed.

Lemma length_append (a b : string) :
  String.length (a ++ b) = (String.length a + String.length b)%nat.
Proof. induction a as [| x a IH]; cbn; [reflexivity | now rewrite IH]. Qed.

Lemma prefix_iff needle s :
  prefix needle s = true <-> exists post, s = needle ++ post.
Proof.
  revert s. induction needle as [| c needle IH]; intros s.
  - split; [intros _; exists s; reflexivity | intros _; now destruct s].
  - destruct s as [| c' s]; cbn;
      [split; [discriminate | intros [post H]; discriminate] |].
    destruct (Ascii.ascii_dec c c') as [-> | N].
    + rewrite IH. split; intros [post H]; exists post; congruence.
    + split; [discriminate | intros [post H]; congruence].
Qed.

(** [needle in s] holds exactly when [s] is [needle] with something before
    and something after. *)
Lemma contains_iff needle s :
  contains needle s = true <-> exists pre post, s = pre ++ needle ++ post.
Proof.
  induction s as [| c s IH]; cbn [contains]; rewrite orb_true_iff, prefix_iff.
  - split.
    + intros [[post H] | H]; [exists "", post; exact H | discriminate].
    + intros [pre [post H]]. left. destruct pre; [exists post; exact H | discriminate].
  - rewrite IH. split.
    + intros [[post H] | [pre [post H]]].
      * exists "", post. exact H.
      * exists (String c pre), post. cbn. now rewrite H.
    + intros [[| c' pre] [post H]].
      * left. exists post. exact H.
      * right. exists pre, post. cbn in H. congruence.
Qed.

Lemma lower_append (a b : string) : lower (a ++ b) = lower a ++ lower b.
Proof. induction a as [| x a IH]; cbn; [reflexivity | now rewrite IH]. Qed.

Lemma lower_char_idempotent c : lower_char (lower_char c) = lower_char c.
Proof.
  destruct c as [[] [] [] [] [] [] [] []]; reflexivity.
Qed.

Lemma lower_idempotent s : lower (lower s) = lower s.
Proof.
  induction s as [| c s IH]; cbn; [reflexivity |].
  now rewrite lower_char_idempotent, IH.
Qed.

(** *** [rfind] and [stem] *)

Lemma rfind_absent c s : occurs c s = false -> rfind c s = None.
Proof.
  induction s as [| c' s IH]; cbn; [reflexivity |].
  intros H. apply orb_false_iff in H. destruct H as [H1 H2].
  now rewrite (IH H2), H1.
Qed.

Lemma rfind_last c a b :
  occurs c b = false -> rfind c (a ++ String c b) = Some (String.length a).
Proof.
  intros Hb. induction a as [| x a IH]; cbn.
  - now rewrite (rfind_absent c b Hb), Ascii.eqb_refl.
  - now rewrite IH.
Qed.

Lemma substring_skip a b :
  substring (String.length a) (String.length b) (a ++ b) = b.
Proof.
  induction a as [| x a IH]; cbn.
  - induction b as [| y b IHb]; cbn; [reflexivity | now rewrite IHb].
  - exact IH.
Qed.

Lemma substring_take a b : substring 0 (String.length a) (a ++ b) = a.
Proof.
  induction a as [| x a IH]; cbn.
  - now destruct b.
  - now rewrite IH.
Qed.

Lemma occurs_append c a b : occurs c (a ++ b) = occurs c a || occurs c b.
Proof.
  induction a as [| x a IH]; cbn; [reflexivity |]. now rewrite IH, orb_assoc.
Qed.

(** The base name of a file, without its extension, is its stem. *)
Lemma stem_of_file dir name ext :
  name <> "" -> ext <> "" ->
  occurs "/" name = false -> occurs "/" ext = false -> occurs "." ext = false ->
  stem (dir ++ "/" ++ name ++ "." ++ ext) = name.
Proof.
  intros Hname Hext Hn He Hd. unfold stem.
  assert (Hslash : rfind "/" (dir ++ "/" ++ name ++ "." ++ ext) =
                   Some (String.length dir)).
  { apply rfind_last. rewrite occurs_append. cbn. now rewrite Hn, He. }
  rewrite Hslash.
  assert (Hbase : substring (String.length dir + 1)
                    (String.length (dir ++ "/" ++ name ++ "." ++ ext) -
                     (String.length dir + 1))
                    (dir ++ "/" ++ name ++ "." ++ ext) = name ++ "." ++ ext).
  { replace (dir ++ "/" ++ name ++ "." ++ ext)
      with ((dir ++ "/") ++ (name ++ "." ++ ext)) by apply append_assoc.
    replace (String.length dir + 1)%nat with (String.length (dir ++ "/"))
      by (rewrite length_append; reflexivity).
    rewrite (length_append (dir ++ "/")), Nat.add_comm, Nat.add_sub.
    apply substring_skip. }
  rewrite Hbase.
  assert (Hdot : rfind "." (name ++ "." ++ ext) = Some (String.length name)).
  { apply rfind_last, Hd. }
  rewrite Hdot, length_append. cbn [String.length append].
  assert (Hcond : ((0 <? String.length name) &&
                   (String.length name <? String.length name + S (String.length ext) - 1))%nat
                  = true).
  { apply andb_true_iff. rewrite !Nat.ltb_lt.
    destruct name; [contradiction |]. destruct ext; [contradiction |]. cbn. lia. }
  rewrite Hcond. apply substring_take.
Qed.

End PathFacts.

(** ** Tables of a directory *)

Module DirectoryFacts.

Import Py DATParser Directory ParserFacts.

(** A returned table is the empty one, or it has rows, the nine columns, and
    the instrument code of the file in every row. *)
Lemma parse_dat_file_shape utcoffset read print file_path df :
  parse_dat_file utcoffset read print file_path = Ok df ->
  df = empty_frame \/
  (rows df <> [] /\
   columns df =
     ["code"; if _detect_data_type file_path then "datetime" else "date";
      "open"; "high"; "low"; "close"; "volume"; "amount"; "pct_change"]%string /\
   forall r, In r (rows df) -> code r = stem file_path).
Proof.
  unfold parse_dat_file, try_except, parse_body.
  destruct (read file_path) as [data | e]; cbn [bind any_exception];
    [| intros H; left; exact (handler_returns _ _ _ _ H)].
  destruct (Nat.div (List.length data) record_size =? 0)%nat;
    [intros H; left; congruence |].
  destruct (for_pairs _ _ data _ []) as [records | e] eqn:Hloop;
    cbn [bind]; [| intros H; left; exact (handler_returns _ _ _ _ H)].
  destruct records as [| b rest]; [intros H; left; congruence |].
  intros H. right. injection H as <-. cbn [rows columns].
  split; [| split; [reflexivity |]].
  - intros Hnil.
    pose proof (proj1 (built_rows (stem file_path) (b :: rest))) as Hb.
    cbv zeta in Hb. rewrite Hnil in Hb. cbn [map] in Hb.
    pose proof (sort_values_length (b :: rest)) as Hl.
    rewrite <- Hb in Hl. discriminate Hl.
  - intros r Hr. apply in_map_iff in Hr. destruct Hr as [entry [<- _]].
    reflexivity.
Qed.

(** [table_of] is the returned table where there is one. *)
Lemma table_of_ok utcoffset read print file_path df :
  parse_dat_file utcoffset read print file_path = Ok df ->
  table_of utcoffset read print file_path = df.
Proof. intros H. unfold table_of. now rewrite H. Qed.

Lemma table_of_cases utcoffset read print file_path :
  parse_dat_file utcoffset read print file_path =
    Ok (table_of utcoffset read print file_path) \/
  table_of utcoffset read print file_path = empty_frame.
Proof.
  unfold table_of.
  destruct (parse_dat_file utcoffset read print file_path);
    [left | right]; reflexivity.
Qed.

(** A table of [parse_dat_file] is empty exactly when it has no rows. *)
Lemma table_empty_iff utcoffset read print file_path :
  is_empty (table_of utcoffset read print file_path) = true <->
  rows (table_of utcoffset read print file_path) = [].
Proof.
  destruct (table_of_cases utcoffset read print file_path) as [Hparse | ->];
    [| split; reflexivity].
  destruct (parse_dat_file_shape _ _ _ _ _ Hparse) as [-> | [Hrows [Hcols _]]].
  - split; reflexivity.
  - unfold is_empty. rewrite Hcols.
    destruct (rows (table_of utcoffset read print file_path)); [contradiction |].
    split; discriminate.
Qed.

(** When the loop over the files ends, it has kept the tables with rows. *)
Lemma parse_files_result utcoffset read print files dat_files i all_data
    successful_count frames count :
  parse_files utcoffset read print files dat_files i all_data
    successful_count = Ok (frames, count) ->
  frames =
    all_data ++ filter has_rows (map (table_of utcoffset read print) dat_files) /\
  count =
    (successful_count +
     List.length (filter has_rows (map (table_of utcoffset read print) dat_files)))%nat.
Proof.
  revert i all_data successful_count.
  induction dat_files as [| f rest IH]; intros i all_data successful_count;
    cbn [parse_files map filter].
  - intros H. injection H as <- <-. now rewrite app_nil_r, Nat.add_0_r.
  - destruct (if (Nat.modulo i 100 =? 0)%nat
              then print (Processing i files (name f)) else Ok tt)
      as [[] | e]; cbn [bind]; [| discriminate].
    destruct (parse_dat_file utcoffset read print f) as [df | e] eqn:Hparse;
      cbn [bind]; [| discriminate].
    rewrite (table_of_ok _ _ _ _ _ Hparse). fold (has_rows df).
    destruct (has_rows df); intros H; apply IH in H; destruct H as [-> ->].
    + rewrite <- app_assoc. cbn [app List.length]. split; [reflexivity | lia].
    + split; reflexivity.
Qed.

Lemma kept_have_rows (tables : list DataFrame) df :
  In df (filter has_rows tables) -> rows df <> [].
Proof.
  intros Hdf. apply filter_In in Hdf. destruct Hdf as [_ Hrows].
  unfold has_rows, is_empty in Hrows.
  intros Hnil. rewrite Hnil in Hrows. now destruct (columns df).
Qed.

Lemma rows_of_nonempty utcoffset read print dat_files :
  flat_map rows (filter has_rows (map (table_of utcoffset read print) dat_files)) =
  flat_map (fun f => rows (table_of utcoffset read print f)) dat_files.
Proof.
  induction dat_files as [| f rest IH]; cbn [map filter flat_map]; [reflexivity |].
  unfold has_rows at 1.
  destruct (is_empty (table_of utcoffset read print f)) eqn:E; cbn [negb flat_map].
  - apply table_empty_iff in E. now rewrite E, IH.
  - now rewrite IH.
Qed.

End DirectoryFacts.

(** ** Stored prices are finite; the sign of the percent change *)

Module ChangeFacts.

Import Float64 Float64Facts Float64Grid QuotientFacts StoredFacts Struct.
Local Open Scope Q_scope.

Lemma nearest_nonneg q : 0 <= q -> leb (Fin 0) (nearest q) = true.
Proof. intros H. apply (nearest_mono 0 q H). Qed.

Lemma nearest_nonpos q : q <= 0 -> leb (nearest q) (Fin 0) = true.
Proof. intros H. apply (nearest_mono q 0 H). Qed.

(** A stored price is a finite number, not below zero. *)
Lemma round2_thousandth_finite x :
  u32 x ->
  exists r, round2 (div (of_int x) (Fin 1000)) = Fin r /\ 0 <= r.
Proof.
  intros Hx. assert (H1000 : 1 <= 1000) by discriminate.
  destruct (quotient_bracket x 1000 Hx H1000) as [q [Eq [L U]]].
  destruct (quotient_range x 1000 Hx H1000) as [R0 R1].
  rewrite Eq. cbn [round2].
  assert (Fl : inject_Z (Qfloor (inject_Z x / 1000 * 2048)) <= inject_Z x / 1000 * 2048)
    by apply Qfloor_le.
  assert (F0 : 0 <= inject_Z (Qfloor (inject_Z x / 1000 * 2048))).
  { change 0 with (inject_Z 0). rewrite <- Zle_Qle.
    change 0%Z with (Qfloor 0). apply Qfloor_resp_le. q_lra. }
  rewrite inject_Z_plus in U. change (inject_Z 1) with 1 in U.
  assert (Q0 : 0 <= q) by q_lra.
  assert (Q1 : q <= 4294967296).
  { destruct Hx as [_ Hx]. rewrite Zlt_Qlt in Hx.
    change (inject_Z 4294967296) with 4294967296 in Hx. q_lra. }
  assert (K0 : (0 <= rne (q * 100))%Z).
  { apply rne_ge_Z. change (inject_Z 0) with 0. lra. }
  assert (K1 : (rne (q * 100) <= 429496729600)%Z).
  { apply rne_le_Z. change (inject_Z 429496729600) with 429496729600. lra. }
  rewrite Zle_Qle in K0, K1.
  change (inject_Z 0) with 0 in K0. change (inject_Z 429496729600) with 429496729600 in K1.
  destruct (nearest_bracket (inject_Z (rne (q * 100)) / 100)) as [r [Er [Lr _]]].
  - q_lra.
  - q_lra.
  - exists r. split; [exact Er |].
    eapply Qle_trans; [| exact Lr].
    assert (G : 0 <= inject_Z (Qfloor (inject_Z (rne (q * 100)) / 100 * 2048))).
    { change 0 with (inject_Z 0). rewrite <- Zle_Qle.
      change 0%Z with (Qfloor 0). apply Qfloor_resp_le. q_lra. }
    q_lra.
Qed.

Lemma of_int_one : of_int 1 = Fin 1.
Proof. vm_compute. reflexivity. Qed.

Lemma of_int_hundred : of_int 100 = Fin 100.
Proof. vm_compute. reflexivity. Qed.

Lemma nearest_one : nearest 1 = Fin 1.
Proof. vm_compute. reflexivity. Qed.

(** The percent change of two finite closes has the sign of their
    difference. *)
Lemma change_sign c p :
  0 <= c -> 0 < p ->
  let change := mul (sub (div (Fin c) (Fin p)) (of_int 1)) (of_int 100) in
  (p <= c -> leb (Fin 0) change = true) /\
  (c <= p -> leb change (Fin 0) = true) /\
  (c == p -> change = Fin 0).
Proof.
  intros Hc Hp. cbv zeta. rewrite of_int_one, of_int_hundred.
  unfold div. destruct (Qcompare_spec p 0) as [E | E | E]; try (exfalso; lra).
  assert (Hinv : 0 < / p) by (apply Qinv_lt_0_compat, Hp).
  split; [| split].
  - intros Hpc.
    assert (H1 : 1 <= c / p) by (apply Qle_shift_div_l; lra).
    pose proof (nearest_mono _ _ H1) as M. rewrite nearest_one in M.
    destruct (nearest (c / p)) as [a | [] |]; cbn [leb] in M; try discriminate.
    + apply Qle_bool_iff in M. cbn [sub].
      assert (Ha : 0 <= a - 1) by lra.
      pose proof (nearest_nonneg _ Ha) as N.
      destruct (nearest (a - 1)) as [s | [] |]; cbn [leb] in N; try discriminate.
      * apply Qle_bool_iff in N. cbn [mul]. apply nearest_nonneg. lra.
      * reflexivity.
    + reflexivity.
  - intros Hcp.
    assert (H1 : c / p <= 1) by (apply Qle_shift_div_r; lra).
    assert (H0 : 0 <= c / p) by (apply Qle_shift_div_l; lra).
    pose proof (nearest_mono _ _ H1) as M. rewrite nearest_one in M.
    pose proof (nearest_nonneg _ H0) as M0.
    destruct (nearest (c / p)) as [a | [] |]; cbn [leb] in M, M0; try discriminate.
    apply Qle_bool_iff in M. cbn [sub].
    assert (Ha : a - 1 <= 0) by lra.
    pose proof (nearest_nonpos _ Ha) as N.
    destruct (nearest (a - 1)) as [s | [] |]; cbn [leb] in N; try discriminate.
    + apply Qle_bool_iff in N. cbn [mul]. apply nearest_nonpos. lra.
    + reflexivity.
  - intros Heq.
    assert (H1 : c / p == 1) by (rewrite Heq; field; lra).
    rewrite (nearest_comp _ _ H1), nearest_one. cbn [sub].
    assert (H0 : 1 - 1 == 0) by ring.
    rewrite (nearest_comp _ _ H0). reflexivity.
Qed.

End ChangeFacts.

Import Pairing Directory.

(** * Further properties of the parser *)

(** ** The assembler *)

(** X1. The first quality check (four zeros, or a negative price) never
    rejects anything: a decoded price record that passes the plausibility
    test always passes it. *)
Theorem plausible_pair_passes_first_check is_intraday price_data p v :
  Struct.unpack_8I price_data = Ok p ->
  plausible is_intraday p = true ->
  zero_or_negative (scale is_intraday p v) = false.
Proof.
  intros Hp Hpl. apply DecoderFacts.unpack_8I_ok in Hp.
  destruct Hp as [_ [Hlen Hu]].
  apply RawFacts.plausible_not_zero_or_negative; assumption.
Qed.

Lemma plausible_pair_passes_first_check_witness :
  Struct.unpack_8I (Sample.pack Sample.zero_low_record) = Ok Sample.zero_low_record /\
  plausible false Sample.zero_low_record = true /\
  zero_or_negative (scale false Sample.zero_low_record Sample.volume_record) = false.
Proof.
  assert (Hp : Struct.unpack_8I (Sample.pack Sample.zero_low_record) =
               Ok Sample.zero_low_record) by (vm_compute; reflexivity).
  assert (Hpl : plausible false Sample.zero_low_record = true) by reflexivity.
  split; [exact Hp |]. split; [exact Hpl |].
  exact (plausible_pair_passes_first_check false _ _ Sample.volume_record Hp Hpl).
Defined.

(** X2. Whether a decoded pair is accepted is decided by the raw integers
    of the price record: its timestamp lies strictly between 1500000000 and
    2000000000, at least three raw prices are plausible, and raw low <= raw
    open <= raw high and raw low <= raw close <= raw high. Dividing by
    1000.0 does not change any of the comparisons. In every other case the
    pair is skipped; no pair makes the assembler raise. *)
Theorem accepted_iff_raw_order utcoffset is_intraday price_data p v :
  Struct.unpack_8I price_data = Ok p ->
  ((exists b, assemble utcoffset is_intraday p v = Ok (Some b)) <->
   unix_timestamp (item p 2) = true /\
   plausible is_intraday p = true /\
   item p 5 <= item p 3 <= item p 4 /\
   item p 5 <= item p 6 <= item p 4) /\
  ((forall b, assemble utcoffset is_intraday p v <> Ok (Some b)) ->
   assemble utcoffset is_intraday p v = Ok None).
Proof.
  intros Hp. apply DecoderFacts.unpack_8I_ok in Hp. destruct Hp as [_ [Hlen Hu]].
  pose proof (RawFacts.inconsistent_raw is_intraday p v Hu) as Hinc.
  split; [split |].
  - intros [b Hacc].
    destruct (AssemblerFacts.assemble_accepts _ _ _ _ _ Hacc)
      as [Hts [Hpl [_ [Hcons _]]]].
    rewrite Hinc in Hcons. apply negb_false_iff in Hcons.
    rewrite !andb_true_iff, !Z.leb_le in Hcons. tauto.
  - intros [Hts [Hpl [[H1 H2] [H3 H4]]]].
    unfold assemble. rewrite Hts, Hpl.
    rewrite (RawFacts.plausible_not_zero_or_negative is_intraday p v Hu Hlen Hpl).
    rewrite Hinc.
    replace ((item p 5 <=? item p 3) && (item p 3 <=? item p 4) &&
             (item p 5 <=? item p 6) && (item p 6 <=? item p 4)) with true
      by (symmetry; rewrite !andb_true_iff, !Z.leb_le; tauto).
    cbn [negb].
    destruct (TimestampFacts.parse_date_timestamp utcoffset (item p 2)
                is_intraday Hts) as [stamp ->].
    eexists. reflexivity.
  - intros Hnone.
    destruct (ReturnFacts.assemble_total utcoffset is_intraday p v) as [[b |] Hr].
    + exfalso. exact (Hnone b Hr).
    + exact Hr.
Qed.

Lemma accepted_iff_raw_order_witness :
  Struct.unpack_8I (Sample.pack Sample.price_record) = Ok Sample.price_record /\
  exists b, assemble Sample.cst false Sample.price_record Sample.volume_record =
            Ok (Some b).
Proof.
  assert (Hp : Struct.unpack_8I (Sample.pack Sample.price_record) =
               Ok Sample.price_record) by (vm_compute; reflexivity).
  split; [exact Hp |].
  apply (proj1 (accepted_iff_raw_order Sample.cst false _ _ Sample.volume_record Hp)).
  repeat split; try reflexivity; cbn; lia.
Defined.

(** X3. Rounding to two digits never changes the amount, and the volume is
    stored as computed: a daily bar stores field 0 of the volume record
    times 100 and field 2 as an integer; an intraday bar stores field 0 and,
    for field 2, the quotient by 100.0 when the field exceeds 1000000 and
    the integer otherwise. The volume is never negative. *)
Theorem stored_volume_and_amount utcoffset is_intraday price_data volume_data p v b :
  Struct.unpack_8I price_data = Ok p ->
  Struct.unpack_8I volume_data = Ok v ->
  assemble utcoffset is_intraday p v = Ok (Some b) ->
  0 <= volume b /\
  (is_intraday = false ->
   volume b = item v 0 * 100 /\ amount b = Int (item v 2)) /\
  (is_intraday = true ->
   volume b = item v 0 /\
   amount b =
     if 1000000 <? item v 2
     then Float (Float64.div (Float64.of_int (item v 2)) (Float64.Fin 100))
     else Int (item v 2)).
Proof.
  intros _ Hv Hacc. apply DecoderFacts.unpack_8I_ok in Hv.
  destruct Hv as [_ [_ Hu]].
  pose proof (DecoderFacts.item_u32 v 0 Hu) as [U0 _].
  pose proof (DecoderFacts.item_u32 v 2 Hu) as U2.
  destruct (AssemblerFacts.assemble_accepts _ _ _ _ _ Hacc)
    as [_ [_ [_ [_ [stamp [_ ->]]]]]].
  destruct is_intraday; cbn [emit scale volume amount scaled_volume scaled_amount].
  - split; [exact U0 |]. split; [discriminate |]. intros _.
    split; [reflexivity |].
    destruct (1000000 <? item v 2); cbn [round2]; [| reflexivity].
    now rewrite (StoredFacts.round2_hundredth _ U2).
  - split; [lia |]. split; [| discriminate]. intros _. split; reflexivity.
Qed.

Lemma stored_volume_and_amount_witness :
  Struct.unpack_8I (Sample.pack SampleDirectory.odd_cents_record) =
    Ok SampleDirectory.odd_cents_record /\
  Struct.unpack_8I (Sample.pack Sample.intraday_volume_record) =
    Ok Sample.intraday_volume_record /\
  assemble Sample.cst true SampleDirectory.odd_cents_record
    Sample.intraday_volume_record = Ok (Some SampleDirectory.odd_cents_bar) /\
  volume SampleDirectory.odd_cents_bar = 500 /\
  amount SampleDirectory.odd_cents_bar =
    Float (Float64.div (Float64.of_int 2000000) (Float64.Fin 100)).
Proof.
  assert (Hp : Struct.unpack_8I (Sample.pack SampleDirectory.odd_cents_record) =
               Ok SampleDirectory.odd_cents_record) by (vm_compute; reflexivity).
  assert (Hv : Struct.unpack_8I (Sample.pack Sample.intraday_volume_record) =
               Ok Sample.intraday_volume_record) by (vm_compute; reflexivity).
  assert (Hacc : assemble Sample.cst true SampleDirectory.odd_cents_record
                   Sample.intraday_volume_record =
                 Ok (Some SampleDirectory.odd_cents_bar)) by (vm_compute; reflexivity).
  split; [exact Hp |]. split; [exact Hv |]. split; [exact Hacc |].
  exact (proj2 (proj2 (stored_volume_and_amount Sample.cst true _ _ _ _ _ Hp Hv Hacc))
           eq_refl).
Defined.

(** X4. A stored price is the price in whole cents: for a raw price that
    does not end in the digit 5, the bar stores the binary64 number nearest
    to (raw + 5) // 10 hundredths, that is the raw thousandths rounded to
    the nearest ten. *)
Theorem stored_price_whole_cents utcoffset is_intraday price_data p v b :
  Struct.unpack_8I price_data = Ok p ->
  assemble utcoffset is_intraday p v = Ok (Some b) ->
  (item p 3 mod 10 <> 5 ->
   open b = Float64.nearest (inject_Z ((item p 3 + 5) / 10) / 100)) /\
  (item p 4 mod 10 <> 5 ->
   high b = Float64.nearest (inject_Z ((item p 4 + 5) / 10) / 100)) /\
  (item p 5 mod 10 <> 5 ->
   low b = Float64.nearest (inject_Z ((item p 5 + 5) / 10) / 100)) /\
  (item p 6 mod 10 <> 5 ->
   close b = Float64.nearest (inject_Z ((item p 6 + 5) / 10) / 100)).
Proof.
  intros Hp Hacc. apply DecoderFacts.unpack_8I_ok in Hp. destruct Hp as [_ [_ Hu]].
  destruct (AssemblerFacts.assemble_accepts _ _ _ _ _ Hacc)
    as [_ [_ [_ [_ [stamp [_ ->]]]]]].
  destruct (AssemblerFacts.scale_prices is_intraday p v) as [Eo [Eh [El Ec]]].
  cbv zeta in Eo, Eh, El, Ec.
  cbn [emit open high low close]. rewrite Eo, Eh, El, Ec.
  repeat split; intros Hd; apply StoredFacts.round2_thousandth;
    try exact Hd; apply DecoderFacts.item_u32, Hu.
Qed.

Lemma stored_price_whole_cents_witness :
  Struct.unpack_8I (Sample.pack SampleDirectory.odd_cents_record) =
    Ok SampleDirectory.odd_cents_record /\
  assemble Sample.cst true SampleDirectory.odd_cents_record
    Sample.intraday_volume_record = Ok (Some SampleDirectory.odd_cents_bar) /\
  open SampleDirectory.odd_cents_bar = Float64.nearest (1000 # 100) /\
  high SampleDirectory.odd_cents_bar = Float64.nearest (1051 # 100) /\
  low SampleDirectory.odd_cents_bar = Float64.nearest (990 # 100) /\
  close SampleDirectory.odd_cents_bar = Float64.nearest (1020 # 100).
Proof.
  assert (Hp : Struct.unpack_8I (Sample.pack SampleDirectory.odd_cents_record) =
               Ok SampleDirectory.odd_cents_record) by (vm_compute; reflexivity).
  assert (Hacc : assemble Sample.cst true SampleDirectory.odd_cents_record
                   Sample.intraday_volume_record =
                 Ok (Some SampleDirectory.odd_cents_bar)) by (vm_compute; reflexivity).
  split; [exact Hp |]. split; [exact Hacc |].
  destruct (stored_price_whole_cents Sample.cst true _ _ _ _ Hp Hacc)
    as [Ho [Hh [Hl Hc]]].
  split; [apply Ho; cbn; discriminate |].
  split; [apply Hh; cbn; discriminate |].
  split; [apply Hl; cbn; discriminate | apply Hc; cbn; discriminate].
Defined.

(** ** The loop and the table of a file *)

(** X5. Over the pairs of whole records of a file the loop never breaks and
    never meets [struct.error]: every pair is decoded and assembled, and the
    loop returns, in the order of the file, exactly the bars the assembler
    accepts. *)
Theorem loop_takes_every_pair utcoffset is_intraday (data : list byte) :
  (forall i,
      In i (range_by_2 (Nat.div (List.length data) record_size - 1)) ->
      exists r, bar_at utcoffset is_intraday data i = Ok r) /\
  for_pairs utcoffset is_intraday data
    (range_by_2 (Nat.div (List.length data) record_size - 1)) [] =
  Ok (flat_map (accepted_at utcoffset is_intraday data)
        (range_by_2 (Nat.div (List.length data) record_size - 1))).
Proof.
  split.
  - intros i Hi.
    exact (proj1 (LoopFacts.pair_at_whole utcoffset is_intraday data i []
                    (LoopFacts.range_whole data i Hi))).
  - apply LoopFacts.for_pairs_range.
Qed.

Lemma loop_takes_every_pair_witness :
  In 2%nat (range_by_2 (Nat.div (List.length Sample.three_pairs) record_size - 1)) /\
  exists r, bar_at Sample.cst false Sample.three_pairs 2 = Ok r.
Proof.
  assert (Hi : In 2%nat
                 (range_by_2 (Nat.div (List.length Sample.three_pairs) record_size - 1)))
    by (right; left; reflexivity).
  split; [exact Hi |].
  exact (proj1 (loop_takes_every_pair Sample.cst false Sample.three_pairs) 2%nat Hi).
Defined.

(** X6. The bars of the table returned for a file are the bars the
    assembler accepts for its pairs of whole records, each once: sorting
    loses none and repeats none, and there are as many rows as accepted
    pairs. *)
Theorem rows_are_accepted_bars utcoffset read print file_path data df :
  read file_path = Ok data ->
  parse_dat_file utcoffset read print file_path = Ok df ->
  Permutation (map bar (rows df)) (accepted_bars utcoffset file_path data) /\
  List.length (rows df) = List.length (accepted_bars utcoffset file_path data).
Proof.
  intros Hread Hparse.
  pose proof (LoopFacts.rows_accepted _ _ _ _ _ _ Hread Hparse) as Hperm.
  split; [exact Hperm |].
  rewrite <- (length_map bar). apply Permutation_length, Hperm.
Qed.

Lemma rows_are_accepted_bars_witness :
  Sample.disk Sample.three_pairs Sample.daily_path = Ok Sample.three_pairs /\
  parse_dat_file Sample.cst (Sample.disk Sample.three_pairs) Sample.stdout
    Sample.daily_path =
    Ok Sample.three_pairs_frame /\
  Permutation (map bar (rows Sample.three_pairs_frame))
    (accepted_bars Sample.cst Sample.daily_path Sample.three_pairs) /\
  List.length (rows Sample.three_pairs_frame) =
  List.length (accepted_bars Sample.cst Sample.daily_path Sample.three_pairs).
Proof.
  assert (Hparse : parse_dat_file Sample.cst (Sample.disk Sample.three_pairs)
                     Sample.stdout Sample.daily_path = Ok Sample.three_pairs_frame)
    by (vm_compute; reflexivity).
  split; [reflexivity |]. split; [exact Hparse |].
  exact (rows_are_accepted_bars Sample.cst (Sample.disk Sample.three_pairs)
           Sample.stdout Sample.daily_path Sample.three_pairs
           Sample.three_pairs_frame
           eq_refl Hparse).
Defined.

(** X7. A file with fewer than two whole records (under 64 bytes) has no
    pair: its table is the empty one. *)
Theorem single_record_file_is_empty utcoffset read print file_path data :
  read file_path = Ok data ->
  (List.length data < 2 * record_size)%nat ->
  parse_dat_file utcoffset read print file_path = Ok empty_frame.
Proof.
  intros Hread Hlen. unfold parse_dat_file, parse_body. rewrite Hread.
  cbn [bind].
  destruct (Nat.div (List.length data) record_size =? 0)%nat; [reflexivity |].
  replace (range_by_2 (Nat.div (List.length data) record_size - 1)) with (@nil nat).
  - reflexivity.
  - rewrite ParserFacts.range_by_2_pairs.
    replace (Nat.div (Nat.div (List.length data) record_size) 2) with 0%nat;
      [reflexivity |].
    unfold record_size in *. ParserFacts.div_lia.
Qed.

Lemma single_record_file_is_empty_witness :
  Sample.disk (Sample.pack Sample.price_record ++ Sample.partial_record)
    Sample.daily_path =
    Ok (Sample.pack Sample.price_record ++ Sample.partial_record) /\
  (List.length (Sample.pack Sample.price_record ++ Sample.partial_record) <
   2 * record_size)%nat /\
  parse_dat_file Sample.cst
    (Sample.disk (Sample.pack Sample.price_record ++ Sample.partial_record))
    Sample.stdout Sample.daily_path = Ok empty_frame.
Proof.
  assert (Hlen : (List.length (Sample.pack Sample.price_record ++ Sample.partial_record) <
                  2 * record_size)%nat) by (vm_compute; lia).
  split; [reflexivity |]. split; [exact Hlen |].
  exact (single_record_file_is_empty Sample.cst
           (Sample.disk (Sample.pack Sample.price_record ++ Sample.partial_record))
           Sample.stdout Sample.daily_path _ eq_refl Hlen).
Defined.

(** ** Paths *)

(** X8. A file is parsed as intraday data exactly when its path, in lower
    case, has "5m" or "min" somewhere in it; every other path is daily. *)
Theorem intraday_iff_marker file_path :
  _detect_data_type file_path = true <->
  (exists before after, lower file_path = (before ++ "5m" ++ after)%string) \/
  (exists before after, lower file_path = (before ++ "min" ++ after)%string).
Proof.
  unfold _detect_data_type. cbv zeta.
  rewrite orb_true_iff, !PathFacts.contains_iff. tauto.
Qed.

(** X9. The test does not look at the case of letters, nor at where in the
    path the marker stands: a path with any spelling of "5m" or "min" in a
    directory or in the file name is intraday. *)
Theorem marker_in_any_case before marker after :
  lower marker = "5m"%string \/ lower marker = "min"%string ->
  _detect_data_type (before ++ marker ++ after) = true.
Proof.
  intros H. unfold _detect_data_type. cbv zeta.
  rewrite !PathFacts.lower_append. apply orb_true_iff.
  destruct H as [-> | ->]; [left | right];
    apply PathFacts.contains_iff; eexists _, _; reflexivity.
Qed.

Lemma marker_in_any_case_witness :
  (lower "5M" = "5m"%string \/ lower "5M" = "min"%string) /\
  _detect_data_type ("data/SH" ++ "5M" ++ "K/600000.DAT") = true.
Proof.
  assert (H : lower "5M" = "5m"%string \/ lower "5M" = "min"%string)
    by (left; reflexivity).
  split; [exact H |].
  exact (marker_in_any_case "data/SH" "5M" "K/600000.DAT" H).
Defined.

(** X10. The instrument code of a file [dir/name.ext] is [name]: whatever
    the directory, and whatever dots the name has, as long as the name and
    the extension are not empty and hold no further separator. *)
Theorem stem_is_base_name dir name ext :
  name <> ""%string -> ext <> ""%string ->
  occurs "/" name = false -> occurs "/" ext = false -> occurs "." ext = false ->
  stem (dir ++ "/" ++ name ++ "." ++ ext) = name.
Proof. apply PathFacts.stem_of_file. Qed.

Lemma stem_is_base_name_witness :
  "000001.SZ"%string <> ""%string /\ "DAT"%string <> ""%string /\
  occurs "/" "000001.SZ" = false /\ occurs "/" "DAT" = false /\
  occurs "." "DAT" = false /\
  stem ("data/szdayK" ++ "/" ++ "000001.SZ" ++ "." ++ "DAT") = "000001.SZ"%string.
Proof.
  assert (Hname : "000001.SZ"%string <> ""%string) by discriminate.
  assert (Hext : "DAT"%string <> ""%string) by discriminate.
  split; [exact Hname |]. split; [exact Hext |].
  split; [reflexivity |]. split; [reflexivity |]. split; [reflexivity |].
  exact (stem_is_base_name "data/szdayK" "000001.SZ" "DAT" Hname Hext
           eq_refl eq_refl eq_refl).
Defined.

(** ** The rows of a table *)

(** X11. A table with rows has the nine columns code, date (datetime for
    intraday files), open, high, low, close, volume, amount, pct_change;
    every row carries the stem of the file's path as its code and names its
    time field after the kind of the file. *)
Theorem rows_schema utcoffset read print file_path df r :
  parse_dat_file utcoffset read print file_path = Ok df ->
  In r (rows df) ->
  code r = stem file_path /\
  time_field (bar r) =
    (if _detect_data_type file_path then "datetime" else "date")%string /\
  columns df =
    ["code"; if _detect_data_type file_path then "datetime" else "date";
     "open"; "high"; "low"; "close"; "volume"; "amount"; "pct_change"]%string.
Proof.
  intros Hparse Hin.
  destruct (DirectoryFacts.parse_dat_file_shape _ _ _ _ _ Hparse)
    as [-> | [_ [Hcols Hcode]]]; [destruct Hin |].
  split; [apply Hcode, Hin |]. split; [| exact Hcols].
  destruct (ParserFacts.rows_materialized _ _ _ _ _ _ Hparse Hin)
    as [pd [vd [p [v [_ [_ Hacc]]]]]].
  destruct (AssemblerFacts.assemble_accepts _ _ _ _ _ Hacc)
    as [_ [_ [_ [_ [stamp [_ ->]]]]]].
  reflexivity.
Qed.

Lemma rows_schema_witness :
  parse_dat_file Sample.cst (Sample.disk Sample.three_pairs) Sample.stdout
    Sample.daily_path =
    Ok Sample.three_pairs_frame /\
  In Sample.scenario_row (rows Sample.three_pairs_frame) /\
  code Sample.scenario_row = "000001"%string /\
  time_field (bar Sample.scenario_row) = "date"%string.
Proof.
  assert (Hparse : parse_dat_file Sample.cst (Sample.disk Sample.three_pairs)
                     Sample.stdout Sample.daily_path = Ok Sample.three_pairs_frame)
    by (vm_compute; reflexivity).
  assert (Hin : In Sample.scenario_row (rows Sample.three_pairs_frame))
    by (right; right; left; reflexivity).
  split; [exact Hparse |]. split; [exact Hin |].
  destruct (rows_schema _ _ _ _ _ _ Hparse Hin) as [Hc [Ht _]].
  split; [exact Hc | exact Ht].
Defined.

(** X12. When local time is within a day of UTC, every time of a table is a
    calendar string, never the decimal fallback: the local date (10
    characters) of an accepted timestamp in a daily file, its local date and
    time (19 characters) in an intraday file. *)
Theorem times_are_calendar_strings utcoffset read print file_path df r :
  (forall t, - 86400 <= utcoffset t <= 86400) ->
  parse_dat_file utcoffset read print file_path = Ok df ->
  In r (rows df) ->
  exists n dt,
    unix_timestamp n = true /\
    Calendar.fromtimestamp utcoffset n = Ok dt /\
    time (bar r) =
      (if _detect_data_type file_path then Calendar.strftime_datetime dt
       else Calendar.strftime_date dt) /\
    String.length (time (bar r)) =
      (if _detect_data_type file_path then 19 else 10)%nat.
Proof.
  intros Hoff Hparse Hin.
  destruct (ParserFacts.rows_materialized _ _ _ _ _ _ Hparse Hin)
    as [pd [vd [p [v [_ [_ Hacc]]]]]].
  destruct (AssemblerFacts.assemble_accepts _ _ _ _ _ Hacc)
    as [Hts [_ [_ [_ [stamp [Hstamp ->]]]]]].
  destruct (TimestampFacts.fromtimestamp_in_range utcoffset _ Hts (Hoff _))
    as [dt Hdt].
  exists (item p 2), dt. split; [exact Hts |]. split; [exact Hdt |].
  cbn [emit time]. unfold parse_date in Hstamp. rewrite Hts, Hdt in Hstamp.
  cbn [bind try_except] in Hstamp.
  destruct (_detect_data_type file_path); injection Hstamp as <-;
    split; reflexivity.
Qed.

Lemma times_are_calendar_strings_witness :
  (forall t, - 86400 <= Sample.cst t <= 86400) /\
  parse_dat_file Sample.cst (Sample.disk Sample.three_pairs) Sample.stdout
    Sample.daily_path =
    Ok Sample.three_pairs_frame /\
  In Sample.scenario_row (rows Sample.three_pairs_frame) /\
  exists n dt,
    unix_timestamp n = true /\
    Calendar.fromtimestamp Sample.cst n = Ok dt /\
    time (bar Sample.scenario_row) = Calendar.strftime_date dt /\
    String.length (time (bar Sample.scenario_row)) = 10%nat.
Proof.
  assert (Hoff : forall t, - 86400 <= Sample.cst t <= 86400)
    by (intros t; unfold Sample.cst; lia).
  assert (Hparse : parse_dat_file Sample.cst (Sample.disk Sample.three_pairs)
                     Sample.stdout Sample.daily_path = Ok Sample.three_pairs_frame)
    by (vm_compute; reflexivity).
  assert (Hin : In Sample.scenario_row (rows Sample.three_pairs_frame))
    by (right; right; left; reflexivity).
  split; [exact Hoff |]. split; [exact Hparse |]. split; [exact Hin |].
  exact (times_are_calendar_strings _ _ _ _ _ _ Hoff Hparse Hin).
Defined.

(** X13. The percent change has the sign of the move of the close: after a
    positive close it is not negative when the close did not fall, not
    positive when the close did not rise, and exactly 0.0 when the close is
    unchanged. *)
Theorem pct_change_sign utcoffset read print file_path df i r_prev r :
  parse_dat_file utcoffset read print file_path = Ok df ->
  nth_error (rows df) i = Some r_prev ->
  nth_error (rows df) (S i) = Some r ->
  Float64.ltb (Float64.of_int 0) (close (bar r_prev)) = true ->
  (Float64.leb (close (bar r_prev)) (close (bar r)) = true ->
   Float64.leb (Float64.of_int 0) (pct_change r) = true) /\
  (Float64.leb (close (bar r)) (close (bar r_prev)) = true ->
   Float64.leb (pct_change r) (Float64.of_int 0) = true) /\
  (Float64.eqb (close (bar r)) (close (bar r_prev)) = true ->
   pct_change r = Float64.of_int 0).
Proof.
  intros Hparse Hprev Hr Hpos.
  assert (Hfin : forall x, In x (rows df) ->
            exists c, close (bar x) = Float64.Fin c /\ (0 <= c)%Q).
  { intros x Hx.
    destruct (ParserFacts.rows_materialized _ _ _ _ _ _ Hparse Hx)
      as [pd [vd [p [v [Hp [_ Hacc]]]]]].
    apply DecoderFacts.unpack_8I_ok in Hp. destruct Hp as [_ [_ Hu]].
    destruct (AssemblerFacts.assemble_accepts _ _ _ _ _ Hacc)
      as [_ [_ [_ [_ [stamp [_ ->]]]]]].
    cbn [emit close].
    rewrite (proj2 (proj2 (proj2 (AssemblerFacts.scale_prices
                                     (_detect_data_type file_path) p v)))).
    apply ChangeFacts.round2_thousandth_finite, DecoderFacts.item_u32, Hu. }
  destruct (Hfin _ (nth_error_In _ _ Hprev)) as [q [Eq Q0]].
  destruct (Hfin _ (nth_error_In _ _ Hr)) as [c [Ec C0]].
  assert (Hlaw : pct_change r =
            Float64.mul
              (Float64.sub (Float64.div (close (bar r)) (close (bar r_prev)))
                 (Float64.of_int 1))
              (Float64.of_int 100)).
  { pose proof (map_nth_error pct_change _ _ Hr) as Hleft.
    rewrite (rows_pct_change _ _ _ _ _ Hparse) in Hleft.
    unfold pct_change_100 in Hleft.
    assert (Hc0 : nth_error (map close (map bar (rows df))) i =
                  Some (close (bar r_prev))).
    { rewrite map_map. apply (map_nth_error (fun x => close (bar x))), Hprev. }
    assert (Hc1 : nth_error (map close (map bar (rows df))) (S i) =
                  Some (close (bar r))).
    { rewrite map_map. apply (map_nth_error (fun x => close (bar x))), Hr. }
    pose proof (SeriesFacts.ratios_step Float64.NaN _ _ _ _ Hc0 Hc1) as Hratio.
    apply (map_nth_error (fun x => Float64.mul x (Float64.of_int 100))) in Hratio.
    congruence. }
  rewrite Hlaw, Eq, Ec in *. change (Float64.of_int 0) with (Float64.Fin 0) in *.
  apply AssemblerFacts.ltb_Fin_true in Hpos.
  destruct (ChangeFacts.change_sign c q C0 Hpos) as [Hup [Hdown Hsame]].
  cbv zeta in Hup, Hdown, Hsame. cbn [Float64.leb Float64.eqb].
  split; [| split].
  - intros H. apply Hup. now apply Qle_bool_iff.
  - intros H. apply Hdown. now apply Qle_bool_iff.
  - intros H. apply Hsame. now apply Qeq_bool_iff.
Qed.

Lemma pct_change_sign_witness :
  parse_dat_file Sample.cst (Sample.disk Sample.three_pairs) Sample.stdout
    Sample.daily_path =
    Ok Sample.three_pairs_frame /\
  nth_error (rows Sample.three_pairs_frame) 1 = Some Sample.zero_low_row /\
  nth_error (rows Sample.three_pairs_frame) 2 = Some Sample.scenario_row /\
  Float64.ltb (Float64.of_int 0) (close (bar Sample.zero_low_row)) = true /\
  Float64.eqb (close (bar Sample.scenario_row)) (close (bar Sample.zero_low_row)) =
    true /\
  pct_change Sample.scenario_row = Float64.of_int 0.
Proof.
  assert (Hparse : parse_dat_file Sample.cst (Sample.disk Sample.three_pairs)
                     Sample.stdout Sample.daily_path = Ok Sample.three_pairs_frame)
    by (vm_compute; reflexivity).
  assert (Hpos : Float64.ltb (Float64.of_int 0) (close (bar Sample.zero_low_row)) = true)
    by (vm_compute; reflexivity).
  assert (Hsame : Float64.eqb (close (bar Sample.scenario_row))
                    (close (bar Sample.zero_low_row)) = true)
    by (vm_compute; reflexivity).
  split; [exact Hparse |]. split; [reflexivity |]. split; [reflexivity |].
  split; [exact Hpos |]. split; [exact Hsame |].
  exact (proj2 (proj2 (pct_change_sign Sample.cst _ _ _ _ 1%nat _ _ Hparse
                         eq_refl eq_refl Hpos)) Hsame).
Defined.

(** ** Directories *)

(** X14. The loop over the files of a directory keeps, in the order of the
    files, the tables that are not empty, and counts them: the count is the
    number of tables kept, at most the number of files, and every table
    kept has rows. *)
Theorem parse_files_keeps_tables_with_rows utcoffset read print files dat_files
    i frames count :
  parse_files utcoffset read print files dat_files i [] 0 = Ok (frames, count) ->
  frames = filter has_rows (map (table_of utcoffset read print) dat_files) /\
  count = List.length frames /\
  (count <= List.length dat_files)%nat /\
  Forall (fun df => rows df <> []) frames.
Proof.
  intros H. apply DirectoryFacts.parse_files_result in H.
  cbn [app Nat.add] in H. destruct H as [-> ->].
  split; [reflexivity |]. split; [reflexivity |].
  split.
  - eapply Nat.le_trans; [apply filter_length_le | now rewrite length_map].
  - apply Forall_forall. intros df. apply DirectoryFacts.kept_have_rows.
Qed.

Lemma parse_files_keeps_tables_with_rows_witness :
  parse_files Sample.cst (Sample.disk Sample.three_pairs) Sample.stdout 2
    [Sample.daily_path; Sample.intraday_path] 1 [] 0 =
    Ok ([Sample.three_pairs_frame; SampleDirectory.intraday_frame], 2%nat) /\
  (2 <= 2)%nat.
Proof.
  assert (H : parse_files Sample.cst (Sample.disk Sample.three_pairs)
                Sample.stdout 2 [Sample.daily_path; Sample.intraday_path] 1 [] 0 =
              Ok ([Sample.three_pairs_frame; SampleDirectory.intraday_frame], 2%nat))
    by (vm_compute; reflexivity).
  split; [exact H |].
  exact (proj1 (proj2 (proj2
           (parse_files_keeps_tables_with_rows _ _ _ _ _ _ _ _ H)))).
Defined.

(** X15. The table [parse_directory] returns is the tables of the files of
    the directory put one after the other, in the order the files were
    listed. So each of its rows comes from one of the files, carries the
    stem of that file as its code, and has its stored prices in order. *)
Theorem parse_directory_concatenates utcoffset read print mkdir glob to_csv
    directory_path output_dir df :
  parse_directory utcoffset read print mkdir glob to_csv directory_path output_dir =
    Ok df ->
  rows df =
    flat_map (fun f => rows (table_of utcoffset read print f)) (glob directory_path) /\
  forall r, In r (rows df) ->
    exists f, In f (glob directory_path) /\
              In r (rows (table_of utcoffset read print f)) /\
              code r = stem f /\
              Float64.leb (low (bar r))
                (Float64.min (open (bar r)) (close (bar r))) = true /\
              Float64.leb (Float64.max (open (bar r)) (close (bar r)))
                (high (bar r)) = true.
Proof.
  intros Hdir.
  assert (Hrows : rows df =
            flat_map (fun f => rows (table_of utcoffset read print f))
              (glob directory_path)).
  { unfold parse_directory in Hdir.
    destruct (mkdir output_dir) as [[] | e]; cbn [bind] in Hdir; [| discriminate].
    destruct (glob directory_path) as [| f rest] eqn:Hglob.
    - destruct (print _) as [[] | e]; cbn [bind] in Hdir; [| discriminate].
      injection Hdir as <-. reflexivity.
    - destruct (print (FilesFound _)) as [[] | e]; cbn [bind] in Hdir;
        [| discriminate].
      destruct (parse_files _ _ _ _ _ _ _ _) as [[frames count] | e] eqn:Hloop;
        cbn [bind fst snd] in Hdir; [| discriminate].
      apply DirectoryFacts.parse_files_result in Hloop.
      cbn [app] in Hloop. destruct Hloop as [Hframes _].
      destruct (print (FilesParsed _)) as [[] | e]; cbn [bind] in Hdir;
        [| discriminate].
      rewrite <- DirectoryFacts.rows_of_nonempty, <- Hframes.
      destruct frames as [| d ds].
      + injection Hdir as <-. reflexivity.
      + destruct (to_csv _ _) as [[] | e]; cbn [bind] in Hdir; [| discriminate].
        destruct (print (CombinedSaved _)) as [[] | e]; cbn [bind] in Hdir;
          [| discriminate].
        destruct (print (Totals _ _)) as [[] | e]; cbn [bind] in Hdir;
          [| discriminate].
        injection Hdir as <-. reflexivity. }
  split; [exact Hrows |].
  intros r Hr. rewrite Hrows in Hr. apply in_flat_map in Hr.
  destruct Hr as [f [Hf Hin]]. exists f. split; [exact Hf |]. split; [exact Hin |].
  destruct (DirectoryFacts.table_of_cases utcoffset read print f) as [Hparse | E];
    [| rewrite E in Hin; destruct Hin].
  split.
  - destruct (DirectoryFacts.parse_dat_file_shape _ _ _ _ _ Hparse)
      as [E | [_ [_ Hcode]]]; [rewrite E in Hin; destruct Hin | apply Hcode, Hin].
  - apply (AssemblerFacts.materialized_prices utcoffset (_detect_data_type f)).
    eapply ParserFacts.rows_materialized; eassumption.
Qed.

Lemma parse_directory_concatenates_witness :
  parse_directory Sample.cst (Sample.disk Sample.three_pairs) Sample.stdout
    SampleDirectory.mkdir_ok SampleDirectory.glob_two SampleDirectory.to_csv_ok
    "data" "output" = Ok SampleDirectory.combined_frame /\
  In SampleDirectory.combined_row (rows SampleDirectory.combined_frame) /\
  exists f, In f (SampleDirectory.glob_two "data") /\
            In SampleDirectory.combined_row
              (rows (table_of Sample.cst (Sample.disk Sample.three_pairs)
                       Sample.stdout f)) /\
            code SampleDirectory.combined_row = stem f /\
            Float64.leb (low (bar SampleDirectory.combined_row))
              (Float64.min (open (bar SampleDirectory.combined_row))
                 (close (bar SampleDirectory.combined_row))) = true /\
            Float64.leb
              (Float64.max (open (bar SampleDirectory.combined_row))
                 (close (bar SampleDirectory.combined_row)))
              (high (bar SampleDirectory.combined_row)) = true.
Proof.
  assert (Hdir : parse_directory Sample.cst (Sample.disk Sample.three_pairs)
                   Sample.stdout SampleDirectory.mkdir_ok SampleDirectory.glob_two
                   SampleDirectory.to_csv_ok "data" "output" =
                 Ok SampleDirectory.combined_frame) by (vm_compute; reflexivity).
  assert (Hin : In SampleDirectory.combined_row (rows SampleDirectory.combined_frame))
    by (do 4 right; left; reflexivity).
  split; [exact Hdir |]. split; [exact Hin |].
  exact (proj2 (parse_directory_concatenates _ _ _ _ _ _ _ _ _ Hdir) _ Hin).
Defined.



(** A standard output that cannot encode the messages stops
    [parse_directory] at its first message, before any file is read. *)
Example parse_directory_stops_at_print :
  parse_directory Sample.cst (Sample.disk Sample.three_pairs) Sample.ascii_stdout
    SampleDirectory.mkdir_ok SampleDirectory.glob_two SampleDirectory.to_csv_ok
    "data" "output" = Raise UnicodeEncodeError.
Proof. reflexivity. Qed.

(** X17. [parse_single_stock] returns the table of [parse_dat_file],
    whatever the output file. It writes only a table with rows to an output
    file that was given: for a table without rows nothing is written and
    nothing more is printed. What it raises was raised by the [print] of
    the handler of [parse_dat_file], for a file that could not be read, by
    writing the table, or by the [print] that follows the writing. *)
Theorem parse_single_stock_returns_table utcoffset read print to_csv
    dat_file_path output_file :
  (forall df,
      parse_single_stock utcoffset read print to_csv dat_file_path output_file =
        Ok df ->
      parse_dat_file utcoffset read print dat_file_path = Ok df) /\
  (forall e,
      parse_single_stock utcoffset read print to_csv dat_file_path output_file =
        Raise e ->
      (exists e0, read dat_file_path = Raise e0 /\
                  print (ParseFailed dat_file_path e0) = Raise e) \/
      (exists path df,
          output_file = Some path /\ path <> ""%string /\
          parse_dat_file utcoffset read print dat_file_path = Ok df /\
          rows df <> [] /\
          (to_csv path df = Raise e \/
           to_csv path df = Ok tt /\ print (DataSaved path) = Raise e))) /\
  (forall df,
      parse_dat_file utcoffset read print dat_file_path = Ok df ->
      rows df = [] ->
      parse_single_stock utcoffset read print to_csv dat_file_path output_file =
        Ok empty_frame).
Proof.
  unfold parse_single_stock.
  destruct (parse_dat_file utcoffset read print dat_file_path) as [df | e0]
    eqn:Hparse; cbn [bind].
  2: { split; [discriminate |]. split; [| discriminate].
       intros e H. left.
       destruct (ReturnFacts.parse_dat_file_raises _ _ _ _ _ Hparse)
         as [e1 [Hread Hprint]].
       exists e1. split; [exact Hread | congruence]. }
  pose proof (DirectoryFacts.table_empty_iff utcoffset read print dat_file_path)
    as Hempty.
  rewrite (DirectoryFacts.table_of_ok _ _ _ _ _ Hparse) in Hempty.
  assert (Hshape : rows df = [] -> df = empty_frame).
  { intros Hnil.
    destruct (DirectoryFacts.parse_dat_file_shape _ _ _ _ _ Hparse)
      as [E | [Hne _]]; [exact E | contradiction]. }
  split; [| split].
  - intros df' H. destruct output_file as [[| c rest] |]; try congruence.
    destruct (is_empty df); cbn [negb] in H; [congruence |].
    destruct (to_csv (String c rest) df) as [[] | e]; cbn [bind] in H;
      [| discriminate].
    destruct (print (DataSaved (String c rest))) as [[] | e]; cbn [bind] in H;
      congruence.
  - intros e H. right. destruct output_file as [[| c rest] |]; try discriminate.
    destruct (is_empty df) eqn:E; cbn [negb] in H; [discriminate |].
    exists (String c rest), df. split; [reflexivity |]. split; [discriminate |].
    split; [reflexivity |].
    split.
    + intros Hnil. apply Hempty in Hnil. congruence.
    + destruct (to_csv (String c rest) df) as [[] | e']; cbn [bind] in H;
        [| left; congruence].
      right. split; [reflexivity |].
      destruct (print (DataSaved (String c rest))) as [[] | e']; cbn [bind] in H;
        congruence.
  - intros df' Hdf' Hnil. injection Hdf' as <-. rewrite (Hshape Hnil).
    destruct output_file as [[| c rest] |]; reflexivity.
Qed.

Lemma parse_single_stock_returns_table_witness :
  parse_dat_file Sample.cst (Sample.disk Sample.partial_record) Sample.ascii_stdout
    Sample.daily_path = Ok empty_frame /\
  rows empty_frame = [] /\
  parse_single_stock Sample.cst (Sample.disk Sample.partial_record)
    Sample.ascii_stdout SampleDirectory.to_csv_fails
    Sample.daily_path (Some "output/000001_final.csv"%string) = Ok empty_frame /\
  parse_single_stock Sample.cst (Sample.disk Sample.three_pairs)
    Sample.ascii_stdout SampleDirectory.to_csv_ok
    Sample.daily_path (Some "output/000001_final.csv"%string) =
    Raise UnicodeEncodeError /\
  ((exists e0, Sample.disk Sample.three_pairs Sample.daily_path = Raise e0 /\
               Sample.ascii_stdout (ParseFailed Sample.daily_path e0) =
                 Raise UnicodeEncodeError) \/
   (exists path df,
       Some "output/000001_final.csv"%string = Some path /\ path <> ""%string /\
       parse_dat_file Sample.cst (Sample.disk Sample.three_pairs)
         Sample.ascii_stdout Sample.daily_path = Ok df /\
       rows df <> [] /\
       (SampleDirectory.to_csv_ok path df = Raise UnicodeEncodeError \/
        SampleDirectory.to_csv_ok path df = Ok tt /\
        Sample.ascii_stdout (DataSaved path) = Raise UnicodeEncodeError))).
Proof.
  assert (Hparse : parse_dat_file Sample.cst (Sample.disk Sample.partial_record)
                     Sample.ascii_stdout Sample.daily_path = Ok empty_frame)
    by reflexivity.
  assert (Hraise : parse_single_stock Sample.cst (Sample.disk Sample.three_pairs)
                     Sample.ascii_stdout SampleDirectory.to_csv_ok
                     Sample.daily_path (Some "output/000001_final.csv"%string) =
                   Raise UnicodeEncodeError) by (vm_compute; reflexivity).
  split; [exact Hparse |]. split; [reflexivity |].
  split.
  { exact (proj2 (proj2 (parse_single_stock_returns_table Sample.cst
                           (Sample.disk Sample.partial_record)
                           Sample.ascii_stdout SampleDirectory.to_csv_fails
                           Sample.daily_path
                           (Some "output/000001_final.csv"%string)))
             _ Hparse eq_refl). }
  split; [exact Hraise |].
  exact (proj1 (proj2 (parse_single_stock_returns_table _ _ _ _ _ _)) _ Hraise).
Defined.

(** ** Decoding *)

(** X18. [struct.unpack('<8I', data)] fails with [struct.error] unless
    [data] has exactly 32 bytes; on 32 bytes it gives eight integers, each
    at least 0 and below 2^32. *)
Theorem unpack_gives_eight_unsigned data :
  (List.length data <> 32%nat -> Struct.unpack_8I data = Raise StructError) /\
  (List.length data = 32%nat ->
   exists t, Struct.unpack_8I data = Ok t /\ List.length t = 8%nat /\
             Forall Struct.u32 t).
Proof.
  unfold Struct.unpack_8I. split; intros H.
  - now apply Nat.eqb_neq in H; rewrite H.
  - rewrite H. cbn [Nat.eqb]. eexists. split; [reflexivity |].
    split; [apply DecoderFacts.fields_length | apply DecoderFacts.fields_u32].
Qed.

Lemma unpack_gives_eight_unsigned_witness :
  List.length Sample.partial_record <> 32%nat /\
  Struct.unpack_8I Sample.partial_record = Raise StructError.
Proof.
  assert (H : List.length Sample.partial_record <> 32%nat) by (vm_compute; lia).
  split; [exact H |].
  exact (proj1 (unpack_gives_eight_unsigned Sample.partial_record) H).
Defined.
